(** * Servo driver (src/src/servo.c, src/include/servo.h)

    A shallow embedding of the servo driver: the single-precision
    arithmetic of the PWM math ([calculate_pwm_params], [angle_to_level]),
    the eight-slot registry ([servo_state]) and the five public operations,
    which thread the registry and the sequence of hardware calls.

    The definitions come first: the arithmetic, the driver, then the
    vocabulary of the statements.  The lemmas follow: rounding, the PWM
    math, the registry and the operations. *)

From Stdlib Require Import ZArith QArith Qround Qabs Qpower Lqa Lia List Bool.
From Stdlib Require SpecFloat.
Import ListNotations.

(** ** Single-precision floating point

    C [float] on the target is IEEE 754 binary32 with round to nearest, ties
    to even.  A finite value is kept as the rational it denotes; every
    operation rounds the exact rational result.  The two zeros are
    identified: no operation of the driver tells them apart (every divisor
    is a product or a literal that is never negative). *)
Module F32.

Local Open Scope Q_scope.

(** Precision (bits of significand), and the exponent of the smallest
    subnormal and of the overflow threshold. *)
Definition prec : Z := 24.
Definition emin : Z := -149.
Definition emax : Z := 128.

Definition pow2 (e : Z) : Q := 2 ^ e.

(** [Qlog2 q] is the integer [e] with [2^e <= q < 2^(e+1)], for [0 < q]. *)
Definition Qlog2 (q : Q) : Z :=
  if Qle_bool 1 q then Z.log2 (Qfloor q)
  else (- Z.log2_up (Qceiling (/ q)))%Z.

(** Nearest integer, ties to even. *)
Definition Qrne (q : Q) : Z :=
  let f := Qfloor q in
  match Qcompare (q - inject_Z f) (1 # 2) with
  | Lt => f
  | Gt => (f + 1)%Z
  | Eq => if Z.even f then f else (f + 1)%Z
  end.

(** Exponent of the unit in the last place of a positive rational. *)
Definition fexp (q : Q) : Z := Z.max (Qlog2 q - (prec - 1)) emin.

Definition rnd_pos (q : Q) : Q :=
  let e := fexp q in inject_Z (Qrne (q / pow2 e)) * pow2 e.

(** Rounding to the binary32 grid, exponent unbounded above. *)
Definition rndq (q : Q) : Q :=
  match Qcompare q 0 with
  | Eq => 0
  | Gt => rnd_pos q
  | Lt => - rnd_pos (- q)
  end.

Inductive float32 : Type :=
| Fnum (q : Q)
| Finf (neg : bool)
| Fnan.

Definition Qneg (q : Q) : bool := negb (Qle_bool 0 q).

(** Rounding with overflow to infinity. *)
Definition round32 (q : Q) : float32 :=
  let r := rndq q in
  if Qle_bool (pow2 emax) (Qabs r) then Finf (Qneg r) else Fnum r.

Definition Qzero (q : Q) : bool := Qeq_bool q 0.

Definition fadd (x y : float32) : float32 :=
  match x, y with
  | Fnan, _ | _, Fnan => Fnan
  | Finf a, Finf b => if Bool.eqb a b then Finf a else Fnan
  | Finf a, Fnum _ => Finf a
  | Fnum _, Finf b => Finf b
  | Fnum a, Fnum b => round32 (a + b)
  end.

Definition fopp (x : float32) : float32 :=
  match x with
  | Fnan => Fnan
  | Finf a => Finf (negb a)
  | Fnum a => Fnum (- a)
  end.

Definition fsub (x y : float32) : float32 := fadd x (fopp y).

Definition fmul (x y : float32) : float32 :=
  match x, y with
  | Fnan, _ | _, Fnan => Fnan
  | Finf a, Finf b => Finf (xorb a b)
  | Finf a, Fnum q | Fnum q, Finf a =>
      if Qzero q then Fnan else Finf (xorb a (Qneg q))
  | Fnum a, Fnum b => round32 (a * b)
  end.

Definition fdiv (x y : float32) : float32 :=
  match x, y with
  | Fnan, _ | _, Fnan => Fnan
  | Finf _, Finf _ => Fnan
  | Finf a, Fnum q => Finf (xorb a (Qneg q))
  | Fnum _, Finf _ => Fnum 0
  | Fnum a, Fnum b =>
      if Qzero b then (if Qzero a then Fnan else Finf (Qneg a))
      else round32 (a / b)
  end.

(** [x < y]; false as soon as one side is a NaN. *)
Definition fltb (x y : float32) : bool :=
  match x, y with
  | Fnan, _ | _, Fnan => false
  | Finf a, Finf b => a && negb b
  | Finf a, Fnum _ => a
  | Fnum _, Finf b => negb b
  | Fnum a, Fnum b => negb (Qle_bool b a)
  end.

Definition fgtb (x y : float32) : bool := fltb y x.

(** Conversion of an integer to [float]. *)
Definition of_Z (z : Z) : float32 := round32 (inject_Z z).

(** Truncation toward zero. *)
Definition Qtrunc (q : Q) : Z :=
  if Qle_bool 0 q then Qfloor q else Qceiling q.

End F32.

Import F32.

Local Open Scope Z_scope.

(** Integers of the program are in [Z].  An argument ranges over the
    values of its C parameter type; what the driver computes and stores is
    brought back into its type where the C code converts it ([u16], [u32],
    [float_to_u16]). *)

(** ** Configuration (src/include/servo.h) *)

Definition MAX_SERVOS : Z := 8.
Definition DEFAULT_SERVO_MIN_PULSE_US : Z := 1000.
Definition DEFAULT_SERVO_MAX_PULSE_US : Z := 2000.
Definition SERVO_PWM_FREQ_HZ : Z := 50.

(** ** The platform the driver is compiled for and runs on

    The SDK calls that return a value, and the result of converting a
    [float] to [uint16_t] when the truncated value does not fit (ISO C
    leaves that conversion undefined; the compiled code stores some 16-bit
    value, which [float_to_u16_undef] supplies). *)

Inductive cast_undef : Type :=
| UndefInt (z : Z)
| UndefInf (neg : bool)
| UndefNan.

Record platform : Type := {
  clock_get_hz_clk_sys : Z;
  pwm_gpio_to_slice_num : Z -> Z;
  pwm_gpio_to_channel : Z -> Z;
  float_to_u16_undef : cast_undef -> Z
}.

Definition u16 (z : Z) : Z := z mod 65536.
Definition u32 (z : Z) : Z := z mod 4294967296.

(** [(uint16_t) x] for a [float] [x]. *)
Definition float_to_u16 (p : platform) (x : float32) : Z :=
  match x with
  | Fnum q =>
      let t := Qtrunc q in
      if (0 <=? t) && (t <=? 65535) then t
      else u16 (float_to_u16_undef p (UndefInt t))
  | Finf s => u16 (float_to_u16_undef p (UndefInf s))
  | Fnan => u16 (float_to_u16_undef p UndefNan)
  end.

(** ** PWM parameters *)

(** [255.0f + (15.0f / 16.0f)] *)
Definition MAX_DIVIDER : float32 :=
  fadd (Fnum 255) (fdiv (Fnum 15) (Fnum 16)).

(** [calculate_pwm_params]: [Some (wrap_val, clk_div_int, clk_div_frac)]
    when the function returns [true] (the three values it has stored
    through its pointers), [None] when it returns [false]. *)
Definition calculate_pwm_params (p : platform) (freq_hz : Z)
  : option (Z * Z * Z) :=
  let sys_clk_hz := u32 (clock_get_hz_clk_sys p) in
  if sys_clk_hz =? 0 then None else
  let divider := fdiv (of_Z sys_clk_hz) (fmul (of_Z freq_hz) (Fnum 65536)) in
  let divider := if fltb divider (Fnum 1) then Fnum 1 else divider in
  if fgtb divider MAX_DIVIDER then None else
  let clk_div_int := float_to_u16 p divider in
  let clk_div_frac :=
    float_to_u16 p (fmul (fsub divider (of_Z clk_div_int)) (Fnum 16)) in
  let effective_divider :=
    fadd (of_Z clk_div_int) (fdiv (of_Z clk_div_frac) (Fnum 16)) in
  let wrap_val :=
    float_to_u16 p
      (fsub (fdiv (of_Z sys_clk_hz) (fmul effective_divider (of_Z freq_hz)))
            (Fnum 1)) in
  if (wrap_val =? 0) || (65535 <? wrap_val) then
    if wrap_val =? 0 then None else Some (65535, clk_div_int, clk_div_frac)
  else Some (wrap_val, clk_div_int, clk_div_frac).

(** ** Registry entries *)

Record servo_info_t : Type := {
  gpio_num : Z;
  slice_num : Z;
  chan_num : Z;
  wrap_val : Z;
  min_pulse_us : Z;
  max_pulse_us : Z;
  is_initialized : bool;
  is_attached : bool
}.

(** [angle_to_level]; the pointer argument is [None] when null. *)
Definition angle_to_level (p : platform) (angle : Z)
    (servo : option servo_info_t) : Z :=
  match servo with
  | None => 0
  | Some servo =>
      if negb (is_initialized servo) then 0 else
      let angle := if 180 <? angle then 180 else angle in
      let pulse_us :=
        fadd (of_Z (min_pulse_us servo))
             (fmul (fdiv (of_Z angle) (Fnum 180))
                   (of_Z (max_pulse_us servo - min_pulse_us servo))) in
      let period_us := fdiv (Fnum 1000000) (of_Z SERVO_PWM_FREQ_HZ) in
      let level :=
        float_to_u16 p
          (fmul (fdiv pulse_us period_us) (of_Z (wrap_val servo + 1))) in
      if wrap_val servo <? level then wrap_val servo else level
  end.

(** ** Driver state: the registry and the hardware calls issued so far *)

(** SDK calls that act on the hardware, in the order they were issued.
    [Call_pwm_init] carries the configuration built by
    [pwm_get_default_config], [pwm_config_set_wrap] and
    [pwm_config_set_clkdiv_int_frac]. *)
Inductive hw_call : Type :=
| Call_gpio_set_function_pwm (gpio : Z)
| Call_pwm_init (slice wrap clk_div_int clk_div_frac : Z) (start : bool)
| Call_pwm_set_gpio_level (gpio level : Z)
| Call_pwm_set_enabled (slice : Z) (enabled : bool).

Record driver : Type := {
  servo_state : list servo_info_t;
  servo_state_initialized : bool;
  hw_log : list hw_call
}.

(** An entry after [memset (..., 0, ...)]. *)
Definition servo_zero : servo_info_t :=
  {| gpio_num := 0; slice_num := 0; chan_num := 0; wrap_val := 0;
     min_pulse_us := 0; max_pulse_us := 0;
     is_initialized := false; is_attached := false |}.

Definition servo_state_zero : list servo_info_t :=
  repeat servo_zero (Z.to_nat MAX_SERVOS).

(** State at program start: statics are zero, nothing sent to hardware. *)
Definition driver_start : driver :=
  {| servo_state := servo_state_zero;
     servo_state_initialized := false;
     hw_log := [] |}.

(** State-passing computations over [driver]. *)
Definition M (A : Type) : Type := driver -> A * driver.

Definition ret {A} (a : A) : M A := fun d => (a, d).

Definition bind {A B} (m : M A) (k : A -> M B) : M B :=
  fun d => let (a, d') := m d in k a d'.

Notation "x <- m ;; k" := (bind m (fun x => k))
  (at level 61, m at next level, right associativity).
Notation "m ;;; k" := (bind m (fun _ => k))
  (at level 61, right associativity).

Definition get_servo_state : M (list servo_info_t) :=
  fun d => (servo_state d, d).

Definition put_servo_state (st : list servo_info_t) : M unit :=
  fun d => (tt, {| servo_state := st;
                   servo_state_initialized := servo_state_initialized d;
                   hw_log := hw_log d |}).

Definition hw (c : hw_call) : M unit :=
  fun d => (tt, {| servo_state := servo_state d;
                   servo_state_initialized := servo_state_initialized d;
                   hw_log := hw_log d ++ [c] |}).

(** [servo_state[i]] and the array with [servo_state[i]] replaced. *)
Definition entry_at (st : list servo_info_t) (i : Z) : servo_info_t :=
  nth (Z.to_nat i) st servo_zero.

Fixpoint store_nat (st : list servo_info_t) (n : nat) (e : servo_info_t)
  : list servo_info_t :=
  match st, n with
  | [], _ => []
  | _ :: st', O => e :: st'
  | x :: st', S n' => x :: store_nat st' n' e
  end.

Definition store_at (st : list servo_info_t) (i : Z) (e : servo_info_t)
  : list servo_info_t := store_nat st (Z.to_nat i) e.

Definition set_is_attached (e : servo_info_t) (b : bool) : servo_info_t :=
  {| gpio_num := gpio_num e; slice_num := slice_num e;
     chan_num := chan_num e; wrap_val := wrap_val e;
     min_pulse_us := min_pulse_us e; max_pulse_us := max_pulse_us e;
     is_initialized := is_initialized e; is_attached := b |}.

(** ** Internal functions *)

Definition initialize_servo_state : M unit :=
  fun d =>
    if negb (servo_state_initialized d)
    then (tt, {| servo_state := servo_state_zero;
                 servo_state_initialized := true;
                 hw_log := hw_log d |})
    else (tt, d).

(** The scan of [find_servo_index], from index [i] over the rest of the
    array. *)
Fixpoint scan_servo_index (st : list servo_info_t) (i : Z) (gpio : Z) : Z :=
  match st with
  | [] => -1
  | e :: st' =>
      if is_initialized e && (gpio_num e =? gpio) then i
      else scan_servo_index st' (i + 1) gpio
  end.

Definition find_servo_index (gpio : Z) : M Z :=
  initialize_servo_state ;;;
  st <- get_servo_state ;;
  ret (scan_servo_index st 0 gpio).

Fixpoint scan_free_index (st : list servo_info_t) (i : Z) : Z :=
  match st with
  | [] => -1
  | e :: st' =>
      if negb (is_initialized e) then i else scan_free_index st' (i + 1)
  end.

Definition find_free_index : M Z :=
  initialize_servo_state ;;;
  st <- get_servo_state ;;
  ret (scan_free_index st 0).

(** ** Public operations *)

Definition servo_init (p : platform) (gpio min_us max_us : Z) : M bool :=
  initialize_servo_state ;;;
  index <- find_free_index ;;
  if index =? -1 then ret false else
  found <- find_servo_index gpio ;;
  if negb (found =? -1) then ret false else
  if (min_us =? 0) || (max_us =? 0) || (max_us <=? min_us) then ret false else
  let slice := u16 (pwm_gpio_to_slice_num p gpio) in
  let chan := u16 (pwm_gpio_to_channel p gpio) in
  match calculate_pwm_params p SERVO_PWM_FREQ_HZ with
  | None => ret false
  | Some (wrap, clk_div_int, clk_div_frac) =>
      hw (Call_gpio_set_function_pwm gpio) ;;;
      hw (Call_pwm_init slice wrap clk_div_int clk_div_frac true) ;;;
      st <- get_servo_state ;;
      let servo :=
        {| gpio_num := gpio; slice_num := slice; chan_num := chan;
           wrap_val := wrap; min_pulse_us := min_us; max_pulse_us := max_us;
           is_initialized := true; is_attached := true |} in
      put_servo_state (store_at st index servo) ;;;
      st <- get_servo_state ;;
      let initial_level := angle_to_level p 0 (Some (entry_at st index)) in
      hw (Call_pwm_set_gpio_level gpio initial_level) ;;;
      ret true
  end.

Definition servo_init_default (p : platform) (gpio : Z) : M bool :=
  servo_init p gpio DEFAULT_SERVO_MIN_PULSE_US DEFAULT_SERVO_MAX_PULSE_US.

Definition servo_set (p : platform) (gpio angle : Z) : M bool :=
  index <- find_servo_index gpio ;;
  if index =? -1 then ret false else
  st <- get_servo_state ;;
  (if negb (is_attached (entry_at st index)) then
     hw (Call_pwm_set_enabled (slice_num (entry_at st index)) true) ;;;
     put_servo_state
       (store_at st index (set_is_attached (entry_at st index) true))
   else ret tt) ;;;
  st <- get_servo_state ;;
  let level := angle_to_level p angle (Some (entry_at st index)) in
  hw (Call_pwm_set_gpio_level (gpio_num (entry_at st index)) level) ;;;
  ret true.

Definition servo_detach (gpio : Z) : M bool :=
  index <- find_servo_index gpio ;;
  if index =? -1 then ret false else
  st <- get_servo_state ;;
  if negb (is_attached (entry_at st index)) then ret true else
  hw (Call_pwm_set_enabled (slice_num (entry_at st index)) false) ;;;
  put_servo_state
    (store_at st index (set_is_attached (entry_at st index) false)) ;;;
  ret true.

Definition servo_attach (gpio : Z) : M bool :=
  index <- find_servo_index gpio ;;
  if index =? -1 then ret false else
  st <- get_servo_state ;;
  if is_attached (entry_at st index) then ret true else
  hw (Call_pwm_set_enabled (slice_num (entry_at st index)) true) ;;;
  put_servo_state
    (store_at st index (set_is_attached (entry_at st index) true)) ;;;
  ret true.

(** The public interface as data, for sequences of calls. *)
Inductive api_call : Type :=
| Servo_init (gpio min_us max_us : Z)
| Servo_init_default (gpio : Z)
| Servo_set (gpio angle : Z)
| Servo_detach (gpio : Z)
| Servo_attach (gpio : Z).

Definition api (p : platform) (c : api_call) : M bool :=
  match c with
  | Servo_init gpio min_us max_us => servo_init p gpio min_us max_us
  | Servo_init_default gpio => servo_init_default p gpio
  | Servo_set gpio angle => servo_set p gpio angle
  | Servo_detach gpio => servo_detach gpio
  | Servo_attach gpio => servo_attach gpio
  end.

(** Runs the calls in order; the results, and the final state. *)
Fixpoint run (p : platform) (cs : list api_call) : M (list bool) :=
  match cs with
  | [] => ret []
  | c :: cs' => r <- api p c ;; rs <- run p cs' ;; ret (r :: rs)
  end.

(** ** Named parts of the PWM computations

    The subexpressions of [calculate_pwm_params] and [angle_to_level] that
    the statements below refer to.  Each is the term of the function body,
    given a name. *)

(** [(float)sys_clk_hz / (freq_hz * 65536.0f)] *)
Definition ideal_divider (sys_clk_hz freq_hz : Z) : float32 :=
  fdiv (of_Z sys_clk_hz) (fmul (of_Z freq_hz) (Fnum 65536)).

(** [if (divider < 1.0f) divider = 1.0f;] *)
Definition raise_to_one (divider : float32) : float32 :=
  if fltb divider (Fnum 1) then Fnum 1 else divider.

(** [clk_div_int + clk_div_frac / 16.0f], on the two values just stored. *)
Definition effective_divider (clk_div_int clk_div_frac : Z) : float32 :=
  fadd (of_Z clk_div_int) (fdiv (of_Z clk_div_frac) (Fnum 16)).

(** [((float)sys_clk_hz / (effective_divider * freq_hz)) - 1.0f] *)
Definition wrap_float (sys_clk_hz freq_hz clk_div_int clk_div_frac : Z)
  : float32 :=
  fsub (fdiv (of_Z sys_clk_hz)
             (fmul (effective_divider clk_div_int clk_div_frac)
                   (of_Z freq_hz)))
       (Fnum 1).

(** The first half of [calculate_pwm_params]: the two divider parts it has
    stored when it reaches the wrap computation, [None] when it has returned
    [false] before. *)
Definition divider_parts (p : platform) (freq_hz : Z) : option (Z * Z) :=
  let sys_clk_hz := u32 (clock_get_hz_clk_sys p) in
  if sys_clk_hz =? 0 then None else
  let divider := raise_to_one (ideal_divider sys_clk_hz freq_hz) in
  if fgtb divider MAX_DIVIDER then None else
  let clk_div_int := float_to_u16 p divider in
  Some (clk_div_int,
        float_to_u16 p (fmul (fsub divider (of_Z clk_div_int)) (Fnum 16))).

(** The value [angle_to_level] converts to [uint16_t], for an angle already
    limited to 180. *)
Definition level_float (angle : Z) (servo : servo_info_t) : float32 :=
  fmul (fdiv (fadd (of_Z (min_pulse_us servo))
                   (fmul (fdiv (of_Z angle) (Fnum 180))
                         (of_Z (max_pulse_us servo - min_pulse_us servo))))
             (fdiv (Fnum 1000000) (of_Z SERVO_PWM_FREQ_HZ)))
       (of_Z (wrap_val servo + 1)).

(** ** The formulas as the specification words them

    Exact rational arithmetic and rounding to the nearest integer. *)

Definition Qround_half_up (q : Q) : Z := Qfloor (q + (1 # 2)).

(** [round (systemClockHz / (effectiveDivider * targetFrequencyHz)) - 1],
    failing at 0 and limited to 65535. *)
Definition claimed_wrap_val (sys_clk_hz freq_hz clk_div_int clk_div_frac : Z)
  : option Z :=
  let effective :=
    (inject_Z clk_div_int + inject_Z clk_div_frac / 16)%Q in
  let wrap :=
    Qround_half_up (inject_Z sys_clk_hz / (effective * inject_Z freq_hz)) - 1
  in
  if wrap =? 0 then None
  else Some (if 65535 <? wrap then 65535 else wrap).

(** [round (pulseUs / periodUs * (wrapValue + 1))], limited to the wrap
    value. *)
Definition claimed_level (angle : Z) (servo : servo_info_t) : Z :=
  let angle := Z.min angle 180 in
  let pulse_us :=
    (inject_Z (min_pulse_us servo) +
     (inject_Z angle / 180) *
     inject_Z (max_pulse_us servo - min_pulse_us servo))%Q in
  let period_us := (1000000 / inject_Z SERVO_PWM_FREQ_HZ)%Q in
  Z.min (Qround_half_up
           (pulse_us / period_us * inject_Z (wrap_val servo + 1)))
        (wrap_val servo).

(** ** Registry invariant *)

(** Pins of the initialized entries, in array order. *)
Definition initialized_pins (st : list servo_info_t) : list Z :=
  map gpio_num (filter is_initialized st).

(** [gpio] belongs to an initialized entry. *)
Definition registered (d : driver) (gpio : Z) : Prop :=
  In gpio (initialized_pins (servo_state d)).

Definition registry_full (d : driver) : Prop :=
  length (filter is_initialized (servo_state d)) = Z.to_nat MAX_SERVOS.

(** The array has [MAX_SERVOS] entries and is all zero until the lazy
    initialization has run; at most [MAX_SERVOS] entries are initialized and
    their pins are pairwise distinct. *)
Record registry_inv (d : driver) : Prop := {
  inv_length : length (servo_state d) = Z.to_nat MAX_SERVOS;
  inv_lazy : servo_state_initialized d = false ->
             servo_state d = servo_state_zero;
  inv_capacity :
    (length (filter is_initialized (servo_state d)) <= Z.to_nat MAX_SERVOS)%nat;
  inv_distinct : NoDup (initialized_pins (servo_state d))
}.

(** The entries other than the one at index [i] are the same in both
    arrays. *)
Definition same_elsewhere (st st' : list servo_info_t) (i : Z) : Prop :=
  length st' = length st /\
  forall j, 0 <= j -> j <> i -> entry_at st' j = entry_at st j.

(** ** The entry of a pin *)

(** [e] is the initialized entry of [gpio]. *)
Definition entry_of (d : driver) (gpio : Z) (e : servo_info_t) : Prop :=
  In e (servo_state d) /\ is_initialized e = true /\ gpio_num e = gpio.

(** Every call of the sequence is a detach or an attach of [gpio]. *)
Definition toggles (gpio : Z) (cs : list api_call) : Prop :=
  Forall (fun c => c = Servo_detach gpio \/ c = Servo_attach gpio) cs.

(** ** The state between the steps of an operation *)

(** The state once [initialize_servo_state] has run. *)
Definition live (d : driver) : driver := snd (initialize_servo_state d).

Definition with_registry (d : driver) (st : list servo_info_t)
    (cs : list hw_call) : driver :=
  {| servo_state := st;
     servo_state_initialized := servo_state_initialized d;
     hw_log := hw_log d ++ cs |}.

(** ** Example platform and states *)

(** The RP2040 at a given system clock, with the pin routing of its PWM
    block (slice [(gpio >> 1) & 7], channel [gpio & 1]) and a conversion
    that goes through a saturating 32-bit integer and keeps the low half,
    as compilers for the Cortex-M0+ emit it. *)
Definition through_int32 (c : cast_undef) : Z :=
  match c with
  | UndefInt z => Z.max (-2147483648) (Z.min 2147483647 z)
  | UndefInf true => -2147483648
  | UndefInf false => 2147483647
  | UndefNan => 0
  end.

Definition rp2040 (sys_clk_hz : Z) : platform :=
  {| clock_get_hz_clk_sys := sys_clk_hz;
     pwm_gpio_to_slice_num := fun gpio => Z.land (Z.shiftr gpio 1) 7;
     pwm_gpio_to_channel := fun gpio => Z.land gpio 1;
     float_to_u16_undef := through_int32 |}.

(** At 128 MHz = (39 + 1/16) * 50 * 65536 the divider for 50 Hz is exactly
    39 + 1/16 and the wrap value exactly 65535: no conversion in
    [calculate_pwm_params] is out of range. *)
Definition board : platform := rp2040 128000000.

(** The state after [init (2, 1000, 2000)] and [detach (2)] on [board]. *)
Definition detached_2 : driver :=
  snd (run board [Servo_init 2 1000 2000; Servo_detach 2] driver_start).

Definition entry_2 (attached : bool) : servo_info_t :=
  {| gpio_num := 2; slice_num := 1; chan_num := 0; wrap_val := 65535;
     min_pulse_us := 1000; max_pulse_us := 2000;
     is_initialized := true; is_attached := attached |}.

(** An initialized, attached entry of pin 2 with the given calibration and
    wrap value. *)
Definition calibrated (min_us max_us wrap : Z) : servo_info_t :=
  {| gpio_num := 2; slice_num := 1; chan_num := 0; wrap_val := wrap;
     min_pulse_us := min_us; max_pulse_us := max_us;
     is_initialized := true; is_attached := true |}.

(** ** The same computations on the library's binary32

    [SpecFloat] is the bit-level specification of IEEE 754 arithmetic of
    the Standard Library, here at precision 24 and [emax] 128.  The
    expressions of the driver are written once more with its operations, to
    compare the two on concrete inputs. *)

Definition of_spec (x : SpecFloat.spec_float) : float32 :=
  match x with
  | SpecFloat.S754_zero _ => Fnum 0
  | SpecFloat.S754_infinity s => Finf s
  | SpecFloat.S754_nan => Fnan
  | SpecFloat.S754_finite s m e =>
      Fnum ((if s then - inject_Z (Zpos m) else inject_Z (Zpos m))
            * pow2 e)%Q
  end.

Definition same (x y : float32) : bool :=
  match x, y with
  | Fnum a, Fnum b => Qeq_bool a b
  | Finf a, Finf b => Bool.eqb a b
  | Fnan, Fnan => true
  | _, _ => false
  end.

Definition sf_of_Z (z : Z) : SpecFloat.spec_float :=
  SpecFloat.binary_normalize 24 128 z 0 false.

Definition sf_ideal_divider (sys_clk_hz freq_hz : Z) : SpecFloat.spec_float :=
  SpecFloat.SFdiv 24 128 (sf_of_Z sys_clk_hz)
    (SpecFloat.SFmul 24 128 (sf_of_Z freq_hz) (sf_of_Z 65536)).

Definition sf_wrap_float (sys_clk_hz freq_hz clk_div_int clk_div_frac : Z)
  : SpecFloat.spec_float :=
  SpecFloat.SFsub 24 128
    (SpecFloat.SFdiv 24 128 (sf_of_Z sys_clk_hz)
       (SpecFloat.SFmul 24 128
          (SpecFloat.SFadd 24 128 (sf_of_Z clk_div_int)
             (SpecFloat.SFdiv 24 128 (sf_of_Z clk_div_frac) (sf_of_Z 16)))
          (sf_of_Z freq_hz)))
    (sf_of_Z 1).

Definition sf_level_float (angle min_us max_us wrap : Z)
  : SpecFloat.spec_float :=
  SpecFloat.SFmul 24 128
    (SpecFloat.SFdiv 24 128
       (SpecFloat.SFadd 24 128 (sf_of_Z min_us)
          (SpecFloat.SFmul 24 128
             (SpecFloat.SFdiv 24 128 (sf_of_Z angle) (sf_of_Z 180))
             (sf_of_Z (max_us - min_us))))
       (SpecFloat.SFdiv 24 128 (sf_of_Z 1000000)
          (sf_of_Z SERVO_PWM_FREQ_HZ)))
    (sf_of_Z (wrap + 1)).

(** The angles 0 to 180. *)
Definition angles : list Z := map Z.of_nat (seq 0 181).

(** ** Well-typed calls and what the driver keeps about them *)

Definition is_u16 (z : Z) : Prop := 0 <= z <= 65535.

(** The arguments of the call are values of their C parameter types
    ([uint16_t] pins and pulse widths, [uint8_t] angles). *)
Definition api_call_typed (c : api_call) : Prop :=
  match c with
  | Servo_init gpio min_us max_us =>
      is_u16 gpio /\ is_u16 min_us /\ is_u16 max_us
  | Servo_init_default gpio => is_u16 gpio
  | Servo_set gpio angle => is_u16 gpio /\ 0 <= angle <= 255
  | Servo_detach gpio => is_u16 gpio
  | Servo_attach gpio => is_u16 gpio
  end.

(** The pin a call initializes, if it is a call of [servo_init] or
    [servo_init_default]. *)
Definition init_pin (c : api_call) : option Z :=
  match c with
  | Servo_init gpio _ _ => Some gpio
  | Servo_init_default gpio => Some gpio
  | _ => None
  end.

(** ** A system clock that changes between calls

    [calculate_pwm_params] asks [clock_get_hz (clk_sys)] each time it runs,
    once in every [servo_init] that reaches it, and the application may
    have changed the system clock since the previous call.  [with_clock]
    is the platform at another clock; [run_clocked] runs a sequence of
    calls, each with the clock it finds.  [run] is the case of a clock
    that stays the same. *)
Definition with_clock (p : platform) (sys_clk_hz : Z) : platform :=
  {| clock_get_hz_clk_sys := sys_clk_hz;
     pwm_gpio_to_slice_num := pwm_gpio_to_slice_num p;
     pwm_gpio_to_channel := pwm_gpio_to_channel p;
     float_to_u16_undef := float_to_u16_undef p |}.

Fixpoint run_clocked (p : platform) (cs : list (Z * api_call))
  : M (list bool) :=
  match cs with
  | [] => ret []
  | (sys_clk_hz, c) :: cs' =>
      r <- api (with_clock p sys_clk_hz) c ;;
      rs <- run_clocked p cs' ;;
      ret (r :: rs)
  end.

(** The clocks at the calls of [servo_init] and [servo_init_default], the
    only operations that read the clock. *)
Definition init_clocks (cs : list (Z * api_call)) : list Z :=
  flat_map (fun x => match init_pin (snd x) with
                     | Some _ => [fst x]
                     | None => []
                     end) cs.

(** What [servo_init] has stored in an entry: the routing of the pin, a
    valid calibration and the wrap value computed for the servo frequency
    at one of the clocks [K]. *)
Definition entry_ok (p : platform) (K : Z -> Prop) (e : servo_info_t)
  : Prop :=
  is_u16 (gpio_num e) /\
  slice_num e = u16 (pwm_gpio_to_slice_num p (gpio_num e)) /\
  chan_num e = u16 (pwm_gpio_to_channel p (gpio_num e)) /\
  0 < min_pulse_us e < max_pulse_us e /\ max_pulse_us e <= 65535 /\
  1 <= wrap_val e <= 65535 /\
  exists sys_clk_hz clk_div_int clk_div_frac : Z,
    K sys_clk_hz /\
    calculate_pwm_params (with_clock p sys_clk_hz) SERVO_PWM_FREQ_HZ
    = Some (wrap_val e, clk_div_int, clk_div_frac).

Definition entries_ok (p : platform) (K : Z -> Prop) (d : driver) : Prop :=
  forall e : servo_info_t,
    In e (servo_state d) -> is_initialized e = true -> entry_ok p K e.

(** A hardware call with parameters the PWM block accepts: a slice started
    with the divider and wrap value computed for the servo frequency at one
    of the clocks [K], the divider within [[1, 255]] and [[0, 15]]; a level
    within the period computed at one of these clocks. *)
Definition hw_call_ok (p : platform) (K : Z -> Prop) (c : hw_call) : Prop :=
  match c with
  | Call_gpio_set_function_pwm gpio => is_u16 gpio
  | Call_pwm_init slice wrap clk_div_int clk_div_frac start =>
      start = true /\
      (exists sys_clk_hz : Z,
         K sys_clk_hz /\
         calculate_pwm_params (with_clock p sys_clk_hz) SERVO_PWM_FREQ_HZ
         = Some (wrap, clk_div_int, clk_div_frac)) /\
      1 <= wrap <= 65535 /\ 1 <= clk_div_int <= 255 /\
      0 <= clk_div_frac <= 15
  | Call_pwm_set_gpio_level gpio level =>
      exists sys_clk_hz wrap clk_div_int clk_div_frac : Z,
        K sys_clk_hz /\
        calculate_pwm_params (with_clock p sys_clk_hz) SERVO_PWM_FREQ_HZ
        = Some (wrap, clk_div_int, clk_div_frac) /\
        0 <= level <= wrap
  | Call_pwm_set_enabled slice enabled => True
  end.

Definition driver_ok (p : platform) (K : Z -> Prop) (d : driver) : Prop :=
  registry_inv d /\ entries_ok p K d /\ Forall (hw_call_ok p K) (hw_log d).

(** No initialized entry comes after an uninitialized one. *)
Fixpoint filled_prefix (st : list servo_info_t) : bool :=
  match st with
  | [] => true
  | e :: st' =>
      if is_initialized e then filled_prefix st'
      else forallb (fun x => negb (is_initialized x)) st'
  end.

(** The pins given to [gpio_set_function], in call order, and the number
    of [pwm_init] calls. *)
Definition pwm_pins (log : list hw_call) : list Z :=
  flat_map (fun c => match c with
                     | Call_gpio_set_function_pwm gpio => [gpio]
                     | _ => []
                     end) log.

Definition pwm_init_count (log : list hw_call) : nat :=
  length (filter (fun c => match c with
                           | Call_pwm_init _ _ _ _ _ => true
                           | _ => false
                           end) log).

Definition allocation_inv (d : driver) : Prop :=
  registry_inv d /\ filled_prefix (servo_state d) = true /\
  pwm_pins (hw_log d) = initialized_pins (servo_state d) /\
  pwm_init_count (hw_log d) = length (initialized_pins (servo_state d)).

(** The value [angle_to_level] would convert for a pulse of exactly
    [pulse_us] microseconds: [(pulse_us / period_us) * (wrap_val + 1)]. *)
Definition pulse_level (pulse_us wrap : Z) : float32 :=
  fmul (fdiv (of_Z pulse_us) (fdiv (Fnum 1000000) (of_Z SERVO_PWM_FREQ_HZ)))
       (of_Z (wrap + 1)).

(** Two [float] values that denote the same number. *)
Definition feq (x y : float32) : Prop :=
  match x, y with
  | Fnum a, Fnum b => (a == b)%Q
  | Finf a, Finf b => a = b
  | Fnan, Fnan => True
  | _, _ => False
  end.

(** The state after [init_default (2)] and [init_default (3)] on [board]:
    two attached servos on the two channels of slice 1. *)
Definition pair_23 : driver :=
  snd (run board [Servo_init_default 2; Servo_init_default 3] driver_start).

Definition entry_3 : servo_info_t :=
  {| gpio_num := 3; slice_num := 1; chan_num := 1; wrap_val := 65535;
     min_pulse_us := 1000; max_pulse_us := 2000;
     is_initialized := true; is_attached := true |}.

(** Two servos on slice 1 initialized at 128 MHz, with a [servo_set] in
    between at another clock; and the same pins initialized at two
    different clocks. *)
Definition steady_calls : list (Z * api_call) :=
  [(128000000, Servo_init 2 1000 2000);
   (125000000, Servo_set 2 90);
   (128000000, Servo_init_default 3)].

Definition drifting_calls : list (Z * api_call) :=
  [(128000000, Servo_init 2 1000 2000);
   (125000000, Servo_init 3 1000 2000);
   (125000000, Servo_set 2 90)].

(** * Rounding *)

Local Open Scope Q_scope.

Lemma pow2_pos e : 0 < pow2 e.
Proof. unfold pow2. apply Qpower_0_lt. reflexivity. Qed.

Lemma pow2_add a b : pow2 (a + b) == pow2 a * pow2 b.
Proof. unfold pow2. apply Qpower_plus. discriminate. Qed.

Lemma pow2_le a b : (a <= b)%Z -> pow2 a <= pow2 b.
Proof. intros H. unfold pow2. apply Qpower_le_compat_l; auto. discriminate. Qed.

Lemma pow2_lt a b : (a < b)%Z -> pow2 a < pow2 b.
Proof. intros H. unfold pow2. apply Qpower_lt_compat_l; auto. reflexivity. Qed.

Lemma pow2_lt_inv a b : pow2 a < pow2 b -> (a < b)%Z.
Proof.
  intros H. destruct (Z_lt_le_dec a b) as [L|L]; auto.
  apply pow2_le in L. exfalso. apply (Qlt_irrefl (pow2 a)).
  eapply Qlt_le_trans; eauto.
Qed.

Lemma pow2_Z e : (0 <= e)%Z -> pow2 e == inject_Z (2 ^ e).
Proof. intros H. unfold pow2. rewrite Zpower_Qpower; auto. reflexivity. Qed.

Lemma pow2_opp e : pow2 (- e) == / pow2 e.
Proof. unfold pow2. apply Qpower_opp. Qed.

Lemma Qlog2_spec q : 0 < q -> pow2 (Qlog2 q) <= q /\ q < pow2 (Qlog2 q + 1).
Proof.
  intros Hq. unfold Qlog2.
  destruct (Qle_bool 1 q) eqn:E.
  - apply Qle_bool_iff in E.
    assert (Hf : (1 <= Qfloor q)%Z).
    { change 1%Z with (Qfloor 1). apply Qfloor_resp_le; auto. }
    destruct (Z.log2_spec (Qfloor q) ltac:(lia)) as [L U].
    pose proof (Z.log2_nonneg (Qfloor q)) as Hn.
    split.
    + rewrite pow2_Z by auto.
      eapply Qle_trans; [|apply Qfloor_le].
      rewrite <- Zle_Qle. exact L.
    + rewrite pow2_Z by lia.
      eapply Qlt_le_trans; [apply Qlt_floor|].
      rewrite <- Zle_Qle. rewrite <- Z.add_1_r in U. lia.
  - assert (Hlt : q < 1).
    { apply Qnot_le_lt. intros H. apply Qle_bool_iff in H. congruence. }
    assert (Hinv : 1 < / q).
    { apply Qlt_shift_inv_l; auto. rewrite Qmult_1_l; auto. }
    set (c := Qceiling (/ q)).
    assert (Hc : (1 < c)%Z).
    { assert (inject_Z 1 < inject_Z c).
      { eapply Qlt_le_trans; [exact Hinv|apply Qle_ceiling]. }
      rewrite <- Zlt_Qlt in H. exact H. }
    destruct (Z.log2_up_spec c Hc) as [L U].
    pose proof (Z.log2_up_pos c Hc) as Hk.
    set (k := Z.log2_up c) in *.
    assert (Hq0 : ~ q == 0) by (intros X; rewrite X in Hq; discriminate).
    split.
    + rewrite pow2_opp. apply Qle_shift_inv_r; [apply pow2_pos|].
      assert (Hle : / q <= pow2 k).
      { rewrite pow2_Z by lia. eapply Qle_trans; [apply Qle_ceiling|].
        rewrite <- Zle_Qle. exact U. }
      apply (Qmult_le_compat_r _ _ q) in Hle; [|apply Qlt_le_weak; auto].
      rewrite (Qmult_comm (/ q)), Qmult_inv_r in Hle by auto.
      rewrite Qmult_comm. exact Hle.
    + replace (- k + 1)%Z with (- (k - 1))%Z by lia.
      rewrite pow2_opp.
      assert (Hlt2 : pow2 (k - 1) < / q).
      { rewrite pow2_Z by lia.
        eapply Qle_lt_trans; [|apply Qceiling_lt].
        rewrite <- Zle_Qle. fold c. replace (k - 1)%Z with (Z.pred k) by lia. lia. }
      apply Qlt_shift_inv_l; [apply pow2_pos|].
      apply (Qmult_lt_compat_r _ _ q) in Hlt2; auto.
      rewrite (Qmult_comm (/ q)), Qmult_inv_r in Hlt2 by auto.
      rewrite Qmult_comm. exact Hlt2.
Qed.

Lemma Qlog2_unique q a :
  0 < q -> pow2 a <= q -> q < pow2 (a + 1) -> Qlog2 q = a.
Proof.
  intros Hq L U. destruct (Qlog2_spec q Hq) as [L' U'].
  assert (Qlog2 q < a + 1)%Z.
  { apply pow2_lt_inv. eapply Qle_lt_trans; eauto. }
  assert (a < Qlog2 q + 1)%Z.
  { apply pow2_lt_inv. eapply Qle_lt_trans; eauto. }
  lia.
Qed.

Lemma Qlog2_mono x y : 0 < x -> x <= y -> (Qlog2 x <= Qlog2 y)%Z.
Proof.
  intros Hx Hxy.
  assert (Hy : 0 < y) by (eapply Qlt_le_trans; eauto).
  destruct (Qlog2_spec x Hx) as [Lx Ux].
  destruct (Qlog2_spec y Hy) as [Ly Uy].
  assert (Qlog2 x < Qlog2 y + 1)%Z.
  { apply pow2_lt_inv. eapply Qle_lt_trans; [exact Lx|].
    eapply Qle_lt_trans; eauto. }
  lia.
Qed.

Lemma Qrne_cases q :
  (Qrne q = Qfloor q /\ q - inject_Z (Qfloor q) <= 1 # 2) \/
  (Qrne q = (Qfloor q + 1)%Z /\ 1 # 2 <= q - inject_Z (Qfloor q)).
Proof.
  unfold Qrne. cbv zeta.
  destruct (Qcompare_spec (q - inject_Z (Qfloor q)) (1 # 2)) as [E|L|G].
  - destruct (Z.even (Qfloor q)); [left|right]; split; auto;
      rewrite E; apply Qle_refl.
  - left; split; auto. apply Qlt_le_weak; auto.
  - right; split; auto. apply Qlt_le_weak; auto.
Qed.

Lemma Qrne_floor q : (Qfloor q <= Qrne q <= Qfloor q + 1)%Z.
Proof. destruct (Qrne_cases q) as [[E _]|[E _]]; rewrite E; lia. Qed.

Lemma Qrne_mono x y : x <= y -> (Qrne x <= Qrne y)%Z.
Proof.
  intros Hxy.
  pose proof (Qfloor_resp_le x y Hxy) as Hf.
  pose proof (Qrne_floor x) as Bx. pose proof (Qrne_floor y) as By.
  destruct (Z.eq_dec (Qfloor x) (Qfloor y)) as [E|NE]; [|lia].
  unfold Qrne in *. cbv zeta in *. rewrite <- E in *.
  assert (Hd : x - inject_Z (Qfloor x) <= y - inject_Z (Qfloor x)) by lra.
  destruct (Qcompare_spec (x - inject_Z (Qfloor x)) (1 # 2)) as [Ex|Lx|Gx];
  destruct (Qcompare_spec (y - inject_Z (Qfloor x)) (1 # 2)) as [Ey|Ly|Gy];
    try lia; try (destruct (Z.even (Qfloor x)); lia); exfalso; lra.
Qed.

Lemma Qrne_comp x y : x == y -> Qrne x = Qrne y.
Proof.
  intros E. apply Z.le_antisymm; apply Qrne_mono; rewrite E; apply Qle_refl.
Qed.

Lemma Qrne_Z z : Qrne (inject_Z z) = z.
Proof.
  unfold Qrne. cbv zeta. rewrite Qfloor_Z.
  destruct (Qcompare_spec (inject_Z z - inject_Z z) (1 # 2)) as [E|L|G];
    auto; exfalso; lra.
Qed.

#[local] Instance Qrne_proper : Proper (Qeq ==> eq) Qrne.
Proof. intros x y E. apply Qrne_comp; auto. Qed.

#[local] Instance Qlog2_proper : Proper (Qeq ==> eq) Qlog2.
Proof.
  intros x y E. unfold Qlog2.
  rewrite (Qfloor_comp _ _ E).
  assert (E' : / x == / y) by (rewrite E; reflexivity).
  rewrite (Qceiling_comp _ _ E').
  assert (Eb : Qle_bool 1 x = Qle_bool 1 y) by (rewrite E; reflexivity).
  rewrite Eb. reflexivity.
Qed.

#[local] Instance fexp_proper : Proper (Qeq ==> eq) fexp.
Proof. intros x y E. unfold fexp. rewrite (Qlog2_proper _ _ E). reflexivity. Qed.

#[local] Instance rnd_pos_proper : Proper (Qeq ==> Qeq) rnd_pos.
Proof.
  intros x y E. unfold rnd_pos. cbv zeta.
  rewrite (fexp_proper _ _ E).
  assert (E' : x / pow2 (fexp y) == y / pow2 (fexp y)) by (rewrite E; reflexivity).
  rewrite (Qrne_comp _ _ E'). reflexivity.
Qed.

#[local] Instance rndq_proper : Proper (Qeq ==> Qeq) rndq.
Proof.
  intros x y E. unfold rndq.
  assert (Ec : Qcompare x 0 = Qcompare y 0) by (rewrite E; reflexivity).
  rewrite Ec.
  destruct (Qcompare y 0); try reflexivity.
  - assert (E' : - x == - y) by (rewrite E; reflexivity).
    rewrite (rnd_pos_proper _ _ E'). reflexivity.
  - apply rnd_pos_proper; auto.
Qed.

#[local] Instance Qtrunc_proper : Proper (Qeq ==> eq) Qtrunc.
Proof.
  intros x y E. unfold Qtrunc.
  assert (Eb : Qle_bool 0 x = Qle_bool 0 y) by (rewrite E; reflexivity).
  rewrite Eb, (Qfloor_comp _ _ E), (Qceiling_comp _ _ E). reflexivity.
Qed.

Lemma fexp_spec q : (fexp q = Z.max (Qlog2 q - 23) (-149))%Z.
Proof. reflexivity. Qed.

Lemma rnd_pos_nonneg q : 0 < q -> 0 <= rnd_pos q.
Proof.
  intros Hq. unfold rnd_pos. cbv zeta.
  apply Qmult_le_0_compat; [|apply Qlt_le_weak, pow2_pos].
  change 0 with (inject_Z 0). rewrite <- Zle_Qle.
  change 0%Z with (Qrne (inject_Z 0)). apply Qrne_mono.
  apply Qle_shift_div_l; [apply pow2_pos|].
  change (inject_Z 0) with 0. rewrite Qmult_0_l. apply Qlt_le_weak; auto.
Qed.

(** Scaled value lies below [2^(L+1-e)]. *)
Lemma scaled_lt q e :
  0 < q -> q / pow2 e < pow2 (Qlog2 q + 1 - e).
Proof.
  intros Hq. destruct (Qlog2_spec q Hq) as [_ U].
  apply Qlt_shift_div_r; [apply pow2_pos|].
  rewrite <- pow2_add. replace (Qlog2 q + 1 - e + e)%Z with (Qlog2 q + 1)%Z by lia.
  exact U.
Qed.

Lemma scaled_ge q e :
  0 < q -> pow2 (Qlog2 q - e) <= q / pow2 e.
Proof.
  intros Hq. destruct (Qlog2_spec q Hq) as [L _].
  apply Qle_shift_div_l; [apply pow2_pos|].
  rewrite <- pow2_add. replace (Qlog2 q - e + e)%Z with (Qlog2 q) by lia.
  exact L.
Qed.

Lemma Qfloor_unique q z : inject_Z z <= q -> q < inject_Z (z + 1) -> Qfloor q = z.
Proof.
  intros L U.
  pose proof (Qfloor_le q) as A. pose proof (Qlt_floor q) as B.
  assert (inject_Z (Qfloor q) < inject_Z (z + 1)) by (eapply Qle_lt_trans; eauto).
  assert (inject_Z z < inject_Z (Qfloor q + 1)) by (eapply Qle_lt_trans; eauto).
  rewrite <- Zlt_Qlt in *. lia.
Qed.

Lemma Qrne_small q : 0 <= q -> q < 1 # 2 -> Qrne q = 0%Z.
Proof.
  intros L U.
  assert (F : Qfloor q = 0%Z).
  { apply Qfloor_unique; simpl; auto. change (inject_Z 1) with 1. lra. }
  unfold Qrne. cbv zeta. rewrite F.
  destruct (Qcompare_spec (q - inject_Z 0) (1 # 2)) as [E|Lx|G]; auto;
    exfalso; change (inject_Z 0) with 0 in *; lra.
Qed.

Lemma scaled_pos q e : 0 < q -> 0 < q / pow2 e.
Proof.
  intros Hq. apply Qlt_shift_div_l; [apply pow2_pos|].
  rewrite Qmult_0_l. exact Hq.
Qed.

Lemma rnd_pos_upper q :
  0 < q -> rnd_pos q <= pow2 (Qlog2 q + 1).
Proof.
  intros Hq. unfold rnd_pos. cbv zeta.
  set (e := fexp q).
  pose proof (scaled_lt q e Hq) as S.
  destruct (Z_le_gt_dec 0 (Qlog2 q + 1 - e)) as [Hk|Hk].
  - assert (Hr : (Qrne (q / pow2 e) <= 2 ^ (Qlog2 q + 1 - e))%Z).
    { rewrite <- (Qrne_Z (2 ^ (Qlog2 q + 1 - e))). apply Qrne_mono.
      rewrite <- pow2_Z by auto. apply Qlt_le_weak; auto. }
    rewrite Zle_Qle in Hr. rewrite <- pow2_Z in Hr by auto.
    apply (Qmult_le_compat_r _ _ (pow2 e)) in Hr; [|apply Qlt_le_weak, pow2_pos].
    rewrite <- pow2_add in Hr.
    replace (Qlog2 q + 1 - e + e)%Z with (Qlog2 q + 1)%Z in Hr by lia.
    exact Hr.
  - assert (Hs : q / pow2 e < 1 # 2).
    { eapply Qlt_le_trans; [exact S|].
      change (1 # 2) with (pow2 (-1)). apply pow2_le. lia. }
    rewrite Qrne_small; auto.
    + change (inject_Z 0) with 0. rewrite Qmult_0_l.
      apply Qlt_le_weak, pow2_pos.
    + apply Qlt_le_weak, scaled_pos; auto.
Qed.

Lemma rnd_pos_lower q :
  0 < q -> (emin <= Qlog2 q - 23)%Z -> pow2 (Qlog2 q) <= rnd_pos q.
Proof.
  intros Hq Hn. unfold rnd_pos. cbv zeta.
  assert (He : fexp q = (Qlog2 q - 23)%Z).
  { rewrite fexp_spec. unfold emin in Hn. lia. }
  rewrite He.
  pose proof (scaled_ge q (Qlog2 q - 23) Hq) as S.
  replace (Qlog2 q - (Qlog2 q - 23))%Z with 23%Z in S by lia.
  assert (Hr : (2 ^ 23 <= Qrne (q / pow2 (Qlog2 q - 23)))%Z).
  { rewrite <- (Qrne_Z (2 ^ 23)). apply Qrne_mono.
    rewrite <- pow2_Z by lia. exact S. }
  rewrite Zle_Qle in Hr. rewrite <- pow2_Z in Hr by lia.
  apply (Qmult_le_compat_r _ _ (pow2 (Qlog2 q - 23))) in Hr;
    [|apply Qlt_le_weak, pow2_pos].
  rewrite <- pow2_add in Hr.
  replace (23 + (Qlog2 q - 23))%Z with (Qlog2 q) in Hr by lia.
  exact Hr.
Qed.

Lemma rnd_pos_mono x y : 0 < x -> x <= y -> rnd_pos x <= rnd_pos y.
Proof.
  intros Hx Hxy.
  assert (Hy : 0 < y) by (eapply Qlt_le_trans; eauto).
  pose proof (Qlog2_mono x y Hx Hxy) as HL.
  destruct (Z.eq_dec (fexp x) (fexp y)) as [E|NE].
  - unfold rnd_pos. cbv zeta. rewrite E.
    apply Qmult_le_compat_r; [|apply Qlt_le_weak, pow2_pos].
    rewrite <- Zle_Qle. apply Qrne_mono.
    apply Qmult_le_compat_r; auto.
    apply Qlt_le_weak, Qinv_lt_0_compat, pow2_pos.
  - rewrite !fexp_spec in NE.
    assert (Hlt : (Qlog2 x < Qlog2 y)%Z) by lia.
    assert (Hn : (emin <= Qlog2 y - 23)%Z) by (unfold emin; lia).
    eapply Qle_trans; [apply rnd_pos_upper; auto|].
    eapply Qle_trans; [|apply rnd_pos_lower; auto].
    apply pow2_le. lia.
Qed.

Lemma rndq_pos q : 0 < q -> rndq q = rnd_pos q.
Proof.
  intros H. unfold rndq.
  destruct (Qcompare_spec q 0) as [E|L|G]; auto; exfalso; lra.
Qed.

Lemma rndq_neg q : q < 0 -> rndq q = - rnd_pos (- q).
Proof.
  intros H. unfold rndq.
  destruct (Qcompare_spec q 0) as [E|L|G]; auto; exfalso; lra.
Qed.

Lemma rndq_zero q : q == 0 -> rndq q = 0.
Proof.
  intros H. unfold rndq.
  destruct (Qcompare_spec q 0) as [E|L|G]; auto; exfalso; lra.
Qed.

Lemma rndq_mono x y : x <= y -> rndq x <= rndq y.
Proof.
  intros Hxy.
  destruct (Qcompare_spec x 0) as [Ex|Lx|Gx];
  destruct (Qcompare_spec y 0) as [Ey|Ly|Gy]; try (exfalso; lra).
  - rewrite (rndq_zero x), (rndq_zero y); auto. apply Qle_refl.
  - rewrite (rndq_zero x), (rndq_pos y); auto. apply rnd_pos_nonneg; auto.
  - rewrite (rndq_neg x), (rndq_zero y); auto.
    pose proof (rnd_pos_nonneg (- x) ltac:(lra)). lra.
  - rewrite (rndq_neg x), (rndq_neg y); auto.
    pose proof (rnd_pos_mono (- y) (- x) ltac:(lra) ltac:(lra)). lra.
  - rewrite (rndq_neg x), (rndq_pos y); auto.
    pose proof (rnd_pos_nonneg (- x) ltac:(lra)).
    pose proof (rnd_pos_nonneg y ltac:(lra)). lra.
  - rewrite (rndq_pos x), (rndq_pos y); auto. apply rnd_pos_mono; auto.
Qed.

Lemma pow2_sub_Z k e : (e <= k)%Z -> pow2 k / pow2 e == inject_Z (2 ^ (k - e)).
Proof.
  intros H. rewrite <- pow2_Z by lia.
  apply Qmult_inj_r with (pow2 e).
  - intros X. pose proof (pow2_pos e). rewrite X in H0. discriminate.
  - rewrite <- pow2_add. replace (k - e + e)%Z with k by lia.
    field. intros X. pose proof (pow2_pos e). rewrite X in H0. discriminate.
Qed.

Lemma rnd_pos_exact n k :
  (0 < n < 2 ^ 24)%Z -> (emin <= k)%Z ->
  rnd_pos (inject_Z n * pow2 k) == inject_Z n * pow2 k.
Proof.
  intros Hn Hk. unfold emin in Hk.
  set (q := inject_Z n * pow2 k).
  assert (Hq : 0 < q).
  { apply Qmult_lt_0_compat; [|apply pow2_pos].
    change 0 with (inject_Z 0). rewrite <- Zlt_Qlt. lia. }
  destruct (Z.log2_spec n ltac:(lia)) as [L U].
  pose proof (Z.log2_nonneg n) as Hl0.
  assert (Hl : (Z.log2 n < 24)%Z).
  { apply Z.log2_lt_pow2; lia. }
  assert (HL : Qlog2 q = (Z.log2 n + k)%Z).
  { apply Qlog2_unique; auto; unfold q.
    - rewrite pow2_add. apply Qmult_le_compat_r; [|apply Qlt_le_weak, pow2_pos].
      rewrite pow2_Z by auto. rewrite <- Zle_Qle. exact L.
    - replace (Z.log2 n + k + 1)%Z with (Z.succ (Z.log2 n) + k)%Z by lia.
      rewrite pow2_add. apply Qmult_lt_compat_r; [apply pow2_pos|].
      rewrite pow2_Z by lia. rewrite <- Zlt_Qlt. exact U. }
  unfold rnd_pos. cbv zeta. fold q.
  assert (He : (fexp q <= k)%Z) by (rewrite fexp_spec, HL; lia).
  set (e := fexp q) in *.
  assert (Hs : q / pow2 e == inject_Z (n * 2 ^ (k - e))).
  { unfold q. rewrite inject_Z_mult, <- pow2_sub_Z by auto.
    unfold Qdiv. ring. }
  rewrite (Qrne_comp _ _ Hs), Qrne_Z.
  rewrite inject_Z_mult, <- pow2_sub_Z by auto. unfold q.
  field. intros X. pose proof (pow2_pos e) as P. rewrite X in P. discriminate.
Qed.

Lemma rndq_exact n k :
  (Z.abs n < 2 ^ 24)%Z -> (emin <= k)%Z ->
  rndq (inject_Z n * pow2 k) == inject_Z n * pow2 k.
Proof.
  intros Hn Hk. pose proof (pow2_pos k) as P.
  destruct (Z.lt_trichotomy n 0) as [Neg|[Zero|Pos]].
  - assert (Hq : inject_Z n * pow2 k < 0).
    { assert (inject_Z n < 0) by (change 0 with (inject_Z 0); rewrite <- Zlt_Qlt; lia).
      nra. }
    rewrite (rndq_neg _ Hq).
    assert (E : - (inject_Z n * pow2 k) == inject_Z (- n) * pow2 k).
    { rewrite inject_Z_opp. ring. }
    rewrite (rnd_pos_proper _ _ E), rnd_pos_exact by lia.
    rewrite inject_Z_opp. ring.
  - subst n. rewrite rndq_zero; [|ring]. ring.
  - assert (Hq : 0 < inject_Z n * pow2 k).
    { apply Qmult_lt_0_compat; auto.
      change 0 with (inject_Z 0). rewrite <- Zlt_Qlt. lia. }
    rewrite (rndq_pos _ Hq). apply rnd_pos_exact; lia.
Qed.

Lemma rndq_pow2 k : (emin <= k)%Z -> rndq (pow2 k) == pow2 k.
Proof.
  intros H. pose proof (rndq_exact 1 k ltac:(simpl; lia) H) as E.
  assert (X : inject_Z 1 * pow2 k == pow2 k) by ring.
  rewrite <- X at 2. rewrite <- E. apply rndq_proper. symmetry; exact X.
Qed.

Lemma rndq_opp q : rndq (- q) == - rndq q.
Proof.
  destruct (Qcompare_spec q 0) as [E|L|G].
  - rewrite (rndq_zero q), (rndq_zero (- q)); auto; lra.
  - rewrite (rndq_neg q), (rndq_pos (- q)); auto; lra.
  - rewrite (rndq_pos q), (rndq_neg (- q)); auto; try lra.
    assert (E : - - q == q) by ring.
    rewrite (rnd_pos_proper _ _ E). reflexivity.
Qed.

(** Rounding keeps a value within a power-of-two bound. *)
Lemma rndq_bound q k :
  (emin <= k)%Z -> - pow2 k <= q <= pow2 k ->
  - pow2 k <= rndq q <= pow2 k.
Proof.
  intros Hk [L U]. split.
  - rewrite <- (rndq_pow2 k Hk), <- rndq_opp. apply rndq_mono; auto.
  - rewrite <- (rndq_pow2 k Hk). apply rndq_mono; auto.
Qed.

Lemma round32_num q :
  Qabs (rndq q) < pow2 emax -> round32 q = Fnum (rndq q).
Proof.
  intros H. unfold round32. cbv zeta.
  destruct (Qle_bool (pow2 emax) (Qabs (rndq q))) eqn:E; auto.
  apply Qle_bool_iff in E. exfalso. lra.
Qed.

Lemma round32_bounded q k :
  (emin <= k < emax)%Z -> - pow2 k <= q <= pow2 k ->
  round32 q = Fnum (rndq q).
Proof.
  intros Hk Hq. apply round32_num.
  destruct (rndq_bound q k ltac:(lia) Hq) as [L U].
  apply Qle_lt_trans with (pow2 k); [|apply pow2_lt; lia].
  apply Qabs_Qle_condition. split; auto.
Qed.

Lemma round32_cases q :
  round32 q = Fnum (rndq q) \/ exists s, round32 q = Finf s.
Proof.
  unfold round32. cbv zeta.
  destruct (Qle_bool _ _); [right; eexists; reflexivity | left; reflexivity].
Qed.

Lemma rndq_grid x :
  1 <= rndq x -> exists k : Z, rndq x == inject_Z k * pow2 (-23).
Proof.
  intros H1.
  destruct (Qcompare_spec x 0) as [E|L|G].
  - rewrite (rndq_zero x E) in H1. exfalso. lra.
  - rewrite (rndq_neg x L) in H1.
    pose proof (rnd_pos_nonneg (- x) ltac:(lra)). exfalso. lra.
  - rewrite (rndq_pos x G) in *.
    destruct (Z_le_gt_dec (-23) (fexp x)) as [He|He].
    + exists (Qrne (x / pow2 (fexp x)) * 2 ^ (fexp x + 23))%Z.
      unfold rnd_pos. cbv zeta.
      rewrite inject_Z_mult, <- pow2_Z by lia.
      rewrite <- Qmult_assoc, <- pow2_add.
      replace (fexp x + 23 + -23)%Z with (fexp x) by lia. reflexivity.
    + exists (2 ^ 23)%Z.
      assert (HL : (Qlog2 x + 1 <= 0)%Z) by (rewrite fexp_spec in He; lia).
      pose proof (rnd_pos_upper x G) as U.
      apply pow2_le in HL.
      assert (E1 : rnd_pos x == 1).
      { apply Qle_antisym; auto. eapply Qle_trans; eauto. }
      rewrite E1. reflexivity.
Qed.

Lemma inject_Z_abs_bound n k :
  (Z.abs n < 2 ^ 24)%Z ->
  - pow2 (24 + k) <= inject_Z n * pow2 k <= pow2 (24 + k).
Proof.
  intros H. rewrite pow2_add. pose proof (pow2_pos k) as P.
  assert (A : - pow2 24 <= inject_Z n <= pow2 24).
  { rewrite pow2_Z by lia. rewrite <- inject_Z_opp, <- !Zle_Qle. lia. }
  destruct A as [A1 A2]. split; nra.
Qed.

Lemma round32_exact q n k :
  q == inject_Z n * pow2 k ->
  (Z.abs n < 2 ^ 24)%Z -> (emin <= k <= 103)%Z ->
  round32 q = Fnum (rndq q) /\ rndq q == q.
Proof.
  intros E Hn Hk. split.
  - apply round32_bounded with (k := (24 + k)%Z).
    + unfold emin, emax in *. lia.
    + rewrite E. apply inject_Z_abs_bound; auto.
  - rewrite (rndq_proper _ _ E), E. apply rndq_exact; auto. lia.
Qed.

Lemma of_Z_exact z :
  (Z.abs z < 2 ^ 24)%Z ->
  of_Z z = Fnum (rndq (inject_Z z)) /\ rndq (inject_Z z) == inject_Z z.
Proof.
  intros H. unfold of_Z.
  apply round32_exact with (n := z) (k := 0%Z); auto.
  - change (pow2 0) with 1. ring.
  - unfold emin. lia.
Qed.

Lemma of_Z_pos z :
  (1 <= z <= 2 ^ 32)%Z ->
  of_Z z = Fnum (rndq (inject_Z z)) /\ 1 <= rndq (inject_Z z).
Proof.
  intros H. unfold of_Z. split.
  - apply round32_bounded with (k := 32%Z).
    + unfold emin, emax. lia.
    + rewrite pow2_Z by lia. rewrite <- inject_Z_opp, <- !Zle_Qle. lia.
  - rewrite <- (rndq_pow2 0) by (unfold emin; lia).
    apply rndq_mono. change (pow2 0) with (inject_Z 1).
    rewrite <- Zle_Qle. lia.
Qed.

Lemma MAX_DIVIDER_value : exists m, MAX_DIVIDER = Fnum m /\ m == 4095 # 16.
Proof. eexists. split; [vm_compute; reflexivity | reflexivity]. Qed.

Lemma ideal_divider_cases sys freq :
  (1 <= sys <= 2 ^ 32)%Z ->
  (exists s, ideal_divider sys freq = Finf s) \/
  (exists x, ideal_divider sys freq = Fnum (rndq x)).
Proof.
  intros Hs. unfold ideal_divider.
  destruct (of_Z_pos sys Hs) as [-> Hr].
  set (r := rndq (inject_Z sys)) in *.
  assert (Hz : Qzero r = false).
  { unfold Qzero. destruct (Qeq_bool r 0) eqn:E; auto.
    apply Qeq_bool_iff in E. exfalso. lra. }
  assert (HY : (exists s, fmul (of_Z freq) (Fnum 65536) = Finf s) \/
               (exists b, fmul (of_Z freq) (Fnum 65536) = Fnum b)).
  { unfold of_Z. destruct (round32_cases (inject_Z freq)) as [->|[s ->]].
    - unfold fmul.
      destruct (round32_cases (rndq (inject_Z freq) * 65536)) as [->|[s ->]];
        eauto.
    - left. simpl. eauto. }
  destruct HY as [[s ->]|[b ->]].
  - right. exists 0. reflexivity.
  - unfold fdiv. destruct (Qzero b).
    + rewrite Hz. left; eauto.
    + destruct (round32_cases (r / b)) as [->|[s ->]]; eauto.
Qed.

(** What passes the two range tests is a number of [[1, 255.9375]] on the
    grid of the binade of 1. *)
Lemma divider_shape sys freq :
  (1 <= sys <= 2 ^ 32)%Z ->
  fgtb (raise_to_one (ideal_divider sys freq)) MAX_DIVIDER = false ->
  exists v k,
    raise_to_one (ideal_divider sys freq) = Fnum v /\
    1 <= v /\ v <= 4095 # 16 /\ v == inject_Z k * pow2 (-23) /\
    (fltb (ideal_divider sys freq) (Fnum 1) = true -> v == 1).
Proof.
  intros Hs. destruct MAX_DIVIDER_value as (m & -> & Hm).
  unfold raise_to_one.
  destruct (ideal_divider_cases sys freq Hs) as [[s ->]|[x ->]].
  - destruct s; simpl.
    + intros _. exists 1, (2 ^ 23)%Z. repeat split; auto; try lra; try reflexivity.
    + discriminate.
  - assert (Hlt : fltb (Fnum (rndq x)) (Fnum 1) = negb (Qle_bool 1 (rndq x)))
      by reflexivity.
    rewrite Hlt. clear Hlt.
    destruct (Qle_bool 1 (rndq x)) eqn:E; simpl negb; cbv iota.
    + apply Qle_bool_iff in E. unfold fgtb, fltb.
      destruct (Qle_bool (rndq x) m) eqn:E2; simpl; [|discriminate].
      intros _. apply Qle_bool_iff in E2.
      destruct (rndq_grid x E) as [k Hk].
      exists (rndq x), k. repeat split; auto; try lra;
        try (intros X; discriminate X).
    + intros _. exists 1, (2 ^ 23)%Z. repeat split; auto; try lra; try reflexivity.
Qed.

Lemma float_to_u16_in_range p q :
  0 <= q -> q < 65536 ->
  float_to_u16 p (Fnum q) = Qfloor q /\ (0 <= Qfloor q <= 65535)%Z.
Proof.
  intros L U. unfold float_to_u16. cbv zeta.
  assert (T : Qtrunc q = Qfloor q).
  { unfold Qtrunc. destruct (Qle_bool 0 q) eqn:E; auto.
    exfalso. apply Qle_bool_iff in L. congruence. }
  rewrite T.
  assert (B : (0 <= Qfloor q <= 65535)%Z).
  { split.
    - change 0%Z with (Qfloor 0). apply Qfloor_resp_le; auto.
    - pose proof (Qfloor_le q) as F.
      assert (X : inject_Z (Qfloor q) < inject_Z 65536).
      { eapply Qle_lt_trans; eauto. }
      rewrite <- Zlt_Qlt in X. lia. }
  split; auto.
  destruct B as [B1 B2].
  apply Z.leb_le in B1, B2. rewrite B1, B2. reflexivity.
Qed.

Lemma grid_floor v k i :
  v == inject_Z k * pow2 (-23) -> Qfloor v = i ->
  (0 <= k - i * 2 ^ 23 < 2 ^ 23)%Z /\
  v - inject_Z i == inject_Z (k - i * 2 ^ 23) * pow2 (-23).
Proof.
  intros Hv Hi.
  pose proof (Qfloor_le v) as L. pose proof (Qlt_floor v) as U.
  rewrite Hi in L, U.
  assert (P : pow2 23 * pow2 (-23) == 1) by reflexivity.
  assert (E : inject_Z k == v * pow2 23).
  { rewrite Hv. rewrite <- Qmult_assoc, (Qmult_comm (pow2 (-23))), P. ring. }
  assert (P23 : pow2 23 == inject_Z (2 ^ 23)) by reflexivity.
  split.
  - assert (A : inject_Z (i * 2 ^ 23) <= inject_Z k).
    { rewrite E, inject_Z_mult, <- P23.
      apply Qmult_le_compat_r; auto. apply Qlt_le_weak, pow2_pos. }
    assert (B : inject_Z k < inject_Z ((i + 1) * 2 ^ 23)).
    { rewrite E, inject_Z_mult, <- P23.
      apply Qmult_lt_compat_r; auto. apply pow2_pos. }
    rewrite <- Zle_Qle in A. rewrite <- Zlt_Qlt in B. lia.
  - unfold Zminus. rewrite inject_Z_plus, inject_Z_opp, inject_Z_mult, <- P23.
    rewrite Hv.
    transitivity (inject_Z k * pow2 (-23) - inject_Z i * (pow2 23 * pow2 (-23))).
    + rewrite P. ring.
    + ring.
Qed.

Lemma divider_parts_bounds p v k :
  1 <= v -> v <= 4095 # 16 -> v == inject_Z k * pow2 (-23) ->
  let i := float_to_u16 p (Fnum v) in
  let f := float_to_u16 p (fmul (fsub (Fnum v) (of_Z i)) (Fnum 16)) in
  i = Qfloor v /\ (1 <= i <= 255)%Z /\
  f = Qfloor ((v - inject_Z i) * 16) /\ (0 <= f <= 15)%Z.
Proof.
  intros L U Hk. cbv zeta.
  destruct (float_to_u16_in_range p v ltac:(lra) ltac:(lra)) as [Ei _].
  rewrite Ei.
  set (i := Qfloor v).
  assert (Bi : (1 <= i <= 255)%Z).
  { split.
    - change 1%Z with (Qfloor 1). apply Qfloor_resp_le; auto.
    - change 255%Z with (Qfloor (4095 # 16)). apply Qfloor_resp_le; auto. }
  destruct (of_Z_exact i ltac:(lia)) as [-> Hri].
  set (ri := rndq (inject_Z i)) in *.
  destruct (grid_floor v k i Hk eq_refl) as [Bn En].
  set (n := (k - i * 2 ^ 23)%Z) in *.
  assert (Ed : v + - ri == inject_Z n * pow2 (-23)).
  { rewrite Hri, <- En. ring. }
  unfold fsub, fopp, fadd.
  destruct (round32_exact _ n (-23) Ed ltac:(lia) ltac:(unfold emin; lia))
    as [-> Hw].
  set (w := rndq (v + - ri)) in *.
  assert (Em : w * 16 == inject_Z n * pow2 (-19)).
  { rewrite Hw, Ed. rewrite <- Qmult_assoc.
    assert (X : pow2 (-23) * 16 == pow2 (-19)) by reflexivity.
    rewrite X. reflexivity. }
  unfold fmul.
  destruct (round32_exact _ n (-19) Em ltac:(lia) ltac:(unfold emin; lia))
    as [-> Hw'].
  set (w' := rndq (w * 16)) in *.
  assert (Ew' : w' == (v - inject_Z i) * 16).
  { rewrite Hw', Hw, Hri. ring. }
  pose proof (Qfloor_le v) as F1. pose proof (Qlt_floor v) as F2.
  fold i in F1, F2. rewrite inject_Z_plus in F2. change (inject_Z 1) with 1 in F2.
  destruct (float_to_u16_in_range p w' ltac:(lra) ltac:(lra)) as [Ef _].
  rewrite Ef. rewrite (Qfloor_comp _ _ Ew').
  repeat split; auto; try lia.
  - change 0%Z with (Qfloor 0). apply Qfloor_resp_le. lra.
  - assert (X : (Qfloor ((v - inject_Z i) * 16) < 16)%Z).
    { rewrite Zlt_Qlt. eapply Qle_lt_trans; [apply Qfloor_le|].
      change (inject_Z 16) with 16. lra. }
    lia.
Qed.

Local Open Scope Z_scope.

(** ** Agreement with the library's binary32 on concrete inputs *)

Example level_float_agrees :
  forallb (fun a => same (of_spec (sf_level_float a 1000 2000 65535))
                         (level_float a (calibrated 1000 2000 65535)))
          angles = true /\
  forallb (fun a => same (of_spec (sf_level_float a 1000 40000 65535))
                         (level_float a (calibrated 1000 40000 65535)))
          angles = true /\
  forallb (fun a => same (of_spec (sf_level_float a 544 2400 19999))
                         (level_float a (calibrated 544 2400 19999)))
          angles = true.
Proof. vm_compute. auto. Qed.

Example ideal_divider_agrees :
  forallb (fun c => same (of_spec (sf_ideal_divider (fst c) (snd c)))
                         (ideal_divider (fst c) (snd c)))
          [(125000000, 50); (125000000, 3000); (1000030, 50);
           (128000000, 50); (133000000, 50); (4294967295, 1);
           (1, 4294967295); (30, 50); (125000000, 0)] = true.
Proof. vm_compute. reflexivity. Qed.

Example wrap_float_agrees :
  same (of_spec (sf_wrap_float 125000000 50 38 2))
       (wrap_float 125000000 50 38 2) = true /\
  same (of_spec (sf_wrap_float 125000000 3000 1 0))
       (wrap_float 125000000 3000 1 0) = true /\
  same (of_spec (sf_wrap_float 1000030 50 1 0))
       (wrap_float 1000030 50 1 0) = true /\
  same (of_spec (sf_wrap_float 128000000 50 39 1))
       (wrap_float 128000000 50 39 1) = true /\
  same (of_spec (sf_wrap_float 30 50 1 0)) (wrap_float 30 50 1 0) = true.
Proof. vm_compute. auto. Qed.

Example of_Z_ties_to_even :
  same (of_spec (sf_of_Z 16777217)) (of_Z 16777217) = true /\
  same (of_Z 16777217) (Fnum 16777216) = true /\
  same (of_spec (sf_of_Z 16777219)) (of_Z 16777219) = true /\
  same (of_Z 16777219) (Fnum 16777220) = true.
Proof. vm_compute. auto. Qed.

(** * PWM parameters and levels *)

Lemma float_to_u16_range p x : 0 <= float_to_u16 p x <= 65535.
Proof.
  unfold float_to_u16, u16.
  destruct x as [q|s|]; cbv zeta;
    try (pose proof (Z.mod_pos_bound (float_to_u16_undef p (UndefInf s)) 65536
                       ltac:(lia)); lia);
    try (pose proof (Z.mod_pos_bound (float_to_u16_undef p UndefNan) 65536
                       ltac:(lia)); lia).
  destruct ((0 <=? Qtrunc q) && (Qtrunc q <=? 65535)) eqn:E.
  - apply andb_true_iff in E. destruct E as [A B].
    apply Z.leb_le in A, B. lia.
  - pose proof (Z.mod_pos_bound (float_to_u16_undef p (UndefInt (Qtrunc q)))
                  65536 ltac:(lia)). lia.
Qed.

(** The function is [divider_parts] followed by the conversion of
    [wrap_float]; the clamp to 65535 never applies. *)
Lemma calculate_pwm_params_eq p freq_hz :
  calculate_pwm_params p freq_hz =
  match divider_parts p freq_hz with
  | None => None
  | Some (i, f) =>
      let w :=
        float_to_u16 p (wrap_float (u32 (clock_get_hz_clk_sys p)) freq_hz i f)
      in if w =? 0 then None else Some (w, i, f)
  end.
Proof.
  unfold calculate_pwm_params, divider_parts. cbv zeta.
  destruct (u32 (clock_get_hz_clk_sys p) =? 0); [reflexivity|].
  fold (ideal_divider (u32 (clock_get_hz_clk_sys p)) freq_hz).
  fold (raise_to_one (ideal_divider (u32 (clock_get_hz_clk_sys p)) freq_hz)).
  set (d := raise_to_one _).
  destruct (fgtb d MAX_DIVIDER); [reflexivity|].
  set (i := float_to_u16 p d).
  set (f := float_to_u16 p (fmul (fsub d (of_Z i)) (Fnum 16))).
  fold (effective_divider i f).
  fold (wrap_float (u32 (clock_get_hz_clk_sys p)) freq_hz i f).
  pose proof (float_to_u16_range p
                (wrap_float (u32 (clock_get_hz_clk_sys p)) freq_hz i f)) as R.
  set (w := float_to_u16 p (wrap_float _ _ _ _)) in *.
  destruct (Z.eqb_spec w 0) as [E|E]; simpl.
  - reflexivity.
  - destruct (Z.ltb_spec 65535 w); [lia|reflexivity].
Qed.

Lemma u32_range z : 0 <= u32 z < 4294967296.
Proof. unfold u32. apply Z.mod_pos_bound. lia. Qed.

Lemma divider_parts_some p freq_hz i f :
  divider_parts p freq_hz = Some (i, f) ->
  1 <= i <= 255 /\ 0 <= f <= 15 /\
  (fltb (ideal_divider (u32 (clock_get_hz_clk_sys p)) freq_hz) (Fnum 1) = true
   -> i = 1 /\ f = 0).
Proof.
  unfold divider_parts. cbv zeta.
  pose proof (u32_range (clock_get_hz_clk_sys p)) as R.
  set (sys := u32 (clock_get_hz_clk_sys p)) in *.
  destruct (Z.eqb_spec sys 0) as [E|E]; [discriminate|].
  destruct (fgtb _ MAX_DIVIDER) eqn:G; [discriminate|].
  destruct (divider_shape sys freq_hz ltac:(lia) G)
    as (v & k & -> & L & U & Hk & H1).
  destruct (divider_parts_bounds p v k L U Hk) as (Ei & Bi & Ef & Bf).
  cbv zeta in Ef, Bf.
  intros X.
  assert (Xi : float_to_u16 p (Fnum v) = i) by congruence.
  assert (Xf : float_to_u16 p
                 (fmul (fsub (Fnum v) (of_Z (float_to_u16 p (Fnum v))))
                    (Fnum 16)) = f) by congruence.
  clear X. rewrite <- Xi, <- Xf. clear Xi Xf.
  split; [exact Bi|]. split; [exact Bf|].
  intros Hlt. specialize (H1 Hlt).
  assert (Ei1 : float_to_u16 p (Fnum v) = 1).
  { rewrite Ei, (Qfloor_comp _ _ H1). reflexivity. }
  split; [exact Ei1|].
  rewrite Ef, Ei1.
  assert (X : ((v - inject_Z 1) * 16 == 0)%Q) by (rewrite H1; reflexivity).
  rewrite (Qfloor_comp _ _ X). reflexivity.
Qed.

Lemma ideal_above_max sys freq_hz :
  1 <= sys <= 2 ^ 32 ->
  fgtb (ideal_divider sys freq_hz) MAX_DIVIDER = true ->
  fgtb (raise_to_one (ideal_divider sys freq_hz)) MAX_DIVIDER = true.
Proof.
  intros Hs. destruct MAX_DIVIDER_value as (m & Em & Hm). rewrite Em.
  unfold raise_to_one.
  destruct (ideal_divider_cases sys freq_hz Hs) as [[s ->]|[x ->]].
  - destruct s; simpl; auto; discriminate.
  - unfold fgtb, fltb. intros G.
    destruct (Qle_bool (rndq x) m) eqn:E; [discriminate|].
    assert (Hx : (m < rndq x)%Q).
    { apply Qnot_le_lt. intros C. apply Qle_bool_iff in C. congruence. }
    destruct (Qle_bool 1 (rndq x)) eqn:E1; simpl.
    + rewrite E. reflexivity.
    + exfalso.
      assert (C : (1 <= rndq x)%Q) by lra.
      apply Qle_bool_iff in C. congruence.
Qed.

(** C5: [calculate_pwm_params] fails when the system clock is 0 and when
    the ideal divider [sys_clk_hz / (freq_hz * 65536)] is above
    [MAX_DIVIDER], which is 255.9375; whenever it succeeds the integer part
    of the divider is in [[1, 255]] and the fractional part in [[0, 15]], and
    an ideal divider below 1.0 has been raised to exactly 1.0 (parts 1 and
    0). *)
Theorem calculate_pwm_params_divider (p : platform) (freq_hz : Z) :
  (u32 (clock_get_hz_clk_sys p) = 0 -> calculate_pwm_params p freq_hz = None) /\
  (fgtb (ideal_divider (u32 (clock_get_hz_clk_sys p)) freq_hz) MAX_DIVIDER
   = true -> calculate_pwm_params p freq_hz = None) /\
  (forall wrap clk_div_int clk_div_frac : Z,
     calculate_pwm_params p freq_hz = Some (wrap, clk_div_int, clk_div_frac) ->
     1 <= clk_div_int <= 255 /\ 0 <= clk_div_frac <= 15 /\
     (fltb (ideal_divider (u32 (clock_get_hz_clk_sys p)) freq_hz) (Fnum 1)
      = true -> clk_div_int = 1 /\ clk_div_frac = 0)) /\
  (exists m : Q, MAX_DIVIDER = Fnum m /\ (m == 4095 # 16)%Q).
Proof.
  pose proof (u32_range (clock_get_hz_clk_sys p)) as R.
  split; [|split; [|split]].
  - intros E. unfold calculate_pwm_params. cbv zeta. rewrite E. reflexivity.
  - intros G. rewrite calculate_pwm_params_eq. unfold divider_parts. cbv zeta.
    destruct (Z.eqb_spec (u32 (clock_get_hz_clk_sys p)) 0) as [E|E];
      [reflexivity|].
    rewrite ideal_above_max; auto. lia.
  - intros w i f. rewrite calculate_pwm_params_eq.
    destruct (divider_parts p freq_hz) as [[i' f']|] eqn:D; [|discriminate].
    cbv zeta. destruct (_ =? 0); [discriminate|].
    intros X. injection X as _ <- <-.
    apply divider_parts_some; auto.
  - exact MAX_DIVIDER_value.
Qed.

Lemma calculate_pwm_params_divider_witness :
  calculate_pwm_params (rp2040 125000000) 50 = Some (36, 38, 2) /\
  1 <= 38 <= 255 /\ 0 <= 2 <= 15.
Proof.
  assert (E : calculate_pwm_params (rp2040 125000000) 50 = Some (36, 38, 2))
    by (vm_compute; reflexivity).
  destruct (proj1 (proj2 (proj2
              (calculate_pwm_params_divider (rp2040 125000000) 50)))
              36 38 2 E) as (Hi & Hf & _).
  split; [exact E|]. split; [exact Hi | exact Hf].
Defined.

Lemma effective_divider_exact i f :
  1 <= i <= 255 -> 0 <= f <= 15 ->
  exists e : Q,
    effective_divider i f = Fnum e /\ (e == inject_Z i + inject_Z f / 16)%Q.
Proof.
  intros Hi Hf. unfold effective_divider.
  destruct (of_Z_exact i ltac:(lia)) as [-> Hri].
  destruct (of_Z_exact f ltac:(lia)) as [-> Hrf].
  set (ri := rndq (inject_Z i)) in *. set (rf := rndq (inject_Z f)) in *.
  unfold fdiv. change (Qzero 16) with false. cbv iota.
  assert (Et : (rf / 16 == inject_Z f * pow2 (-4))%Q).
  { rewrite Hrf. unfold Qdiv. reflexivity. }
  destruct (round32_exact _ f (-4) Et ltac:(lia) ltac:(unfold emin; lia))
    as [-> Ht].
  set (t := rndq (rf / 16)) in *.
  unfold fadd.
  assert (Es : (ri + t == inject_Z (16 * i + f) * pow2 (-4))%Q).
  { rewrite Hri, Ht, Et, inject_Z_plus, inject_Z_mult.
    change (pow2 (-4)) with (1 # 16)%Q. change (inject_Z 16) with 16%Q. field. }
  destruct (round32_exact _ (16 * i + f) (-4) Es ltac:(lia)
              ltac:(unfold emin; lia)) as [-> Hs].
  eexists. split; [reflexivity|].
  rewrite Hs, Hri, Ht, Hrf. reflexivity.
Qed.

(** C1, as amended: once the divider has been split into [clk_div_int]
    and [clk_div_frac], the effective divider is exactly
    [clk_div_int + clk_div_frac / 16]; when the single-precision value [q]
    of [sys_clk_hz / (effective * freq_hz) - 1] lies in [[0, 65536)], the
    wrap value is [q] truncated toward zero (not the nearest integer of the
    quotient, minus 1): the function fails when that is 0 and returns it
    otherwise. *)
Theorem wrap_val_truncated (p : platform) (freq_hz : Z)
    (clk_div_int clk_div_frac : Z) (q : Q) :
  divider_parts p freq_hz = Some (clk_div_int, clk_div_frac) ->
  wrap_float (u32 (clock_get_hz_clk_sys p)) freq_hz clk_div_int clk_div_frac
  = Fnum q ->
  (0 <= q)%Q -> (q < 65536)%Q ->
  (exists e : Q,
     effective_divider clk_div_int clk_div_frac = Fnum e /\
     (e == inject_Z clk_div_int + inject_Z clk_div_frac / 16)%Q) /\
  (inject_Z (Qfloor q) <= q)%Q /\ (q < inject_Z (Qfloor q) + 1)%Q /\
  (Qfloor q = 0 -> calculate_pwm_params p freq_hz = None) /\
  (Qfloor q <> 0 ->
   calculate_pwm_params p freq_hz =
   Some (Qfloor q, clk_div_int, clk_div_frac)).
Proof.
  intros D Ew L U.
  destruct (divider_parts_some p freq_hz _ _ D) as (Bi & Bf & _).
  split; [apply effective_divider_exact; auto|].
  split; [apply Qfloor_le|].
  split; [rewrite <- (inject_Z_plus _ 1); apply Qlt_floor|].
  rewrite calculate_pwm_params_eq, D. cbv zeta. rewrite Ew.
  destruct (float_to_u16_in_range p q L U) as [-> _].
  split.
  - intros ->. reflexivity.
  - intros N. apply Z.eqb_neq in N. rewrite N. reflexivity.
Qed.

Lemma wrap_val_truncated_witness :
  calculate_pwm_params (rp2040 125000000) 3000 = Some (41665, 1, 0).
Proof.
  edestruct (wrap_val_truncated (rp2040 125000000) 3000 1 0)
    as (_ & _ & _ & _ & H).
  - vm_compute. reflexivity.
  - vm_compute. reflexivity.
  - vm_compute. discriminate.
  - vm_compute. reflexivity.
  - apply H. vm_compute. discriminate.
Defined.

(** C1 fails as stated: with the divider raised to 1.0 the quotient is not
    an integer, the code truncates [quotient - 1] where the claim rounds the
    quotient.  At 125 MHz for 3000 Hz: 41665 against 41666; at 1.00003 MHz
    for 50 Hz: 19999 against 20000. *)
Lemma wrap_val_not_rounded :
  calculate_pwm_params (rp2040 125000000) 3000 = Some (41665, 1, 0) /\
  claimed_wrap_val 125000000 3000 1 0 = Some 41666 /\
  calculate_pwm_params (rp2040 1000030) 50 = Some (19999, 1, 0) /\
  claimed_wrap_val 1000030 50 1 0 = Some 20000 /\
  ~ (forall wrap clk_div_int clk_div_frac : Z,
       calculate_pwm_params (rp2040 125000000) 3000
       = Some (wrap, clk_div_int, clk_div_frac) ->
       claimed_wrap_val 125000000 3000 clk_div_int clk_div_frac = Some wrap).
Proof.
  repeat split; try (vm_compute; reflexivity).
  intros H. specialize (H 41665 1 0 ltac:(vm_compute; reflexivity)).
  vm_compute in H. discriminate H.
Qed.

Lemma angle_to_level_eq p angle servo :
  is_initialized servo = true ->
  angle_to_level p angle (Some servo) =
  Z.min (float_to_u16 p (level_float (Z.min angle 180) servo))
        (wrap_val servo).
Proof.
  intros Hi. unfold angle_to_level. rewrite Hi. cbv zeta. simpl negb. cbv iota.
  assert (Ea : (if 180 <? angle then 180 else angle) = Z.min angle 180).
  { destruct (Z.ltb_spec 180 angle); lia. }
  rewrite Ea. fold (level_float (Z.min angle 180) servo).
  destruct (Z.ltb_spec (wrap_val servo)
              (float_to_u16 p (level_float (Z.min angle 180) servo))); lia.
Qed.

Lemma period_us_value :
  exists q : Q,
    fdiv (Fnum 1000000) (of_Z SERVO_PWM_FREQ_HZ) = Fnum q /\ (q == 20000)%Q.
Proof. eexists. split; [vm_compute; reflexivity | reflexivity]. Qed.

(** C2, as amended: [angle_to_level] returns 0 for a null or an
    uninitialized entry; for an initialized entry the returned level never
    exceeds [wrap_val]; the angle is limited to 180 and, when the
    single-precision value [q] of [pulse / period * (wrap_val + 1)], with
    the pulse interpolated between the two bounds and the period 20000 us of
    50 Hz, lies in [[0, 65536)], the level is [q] truncated toward zero (not
    the nearest integer), limited to [wrap_val]. *)
Theorem angle_to_level_truncates (p : platform) (angle : Z) :
  angle_to_level p angle None = 0 /\
  (exists q : Q,
     fdiv (Fnum 1000000) (of_Z SERVO_PWM_FREQ_HZ) = Fnum q /\ (q == 20000)%Q) /\
  forall servo : servo_info_t,
    (is_initialized servo = false -> angle_to_level p angle (Some servo) = 0) /\
    (is_initialized servo = true ->
     angle_to_level p angle (Some servo) <= wrap_val servo /\
     forall q : Q,
       level_float (Z.min angle 180) servo = Fnum q ->
       (0 <= q)%Q -> (q < 65536)%Q ->
       (inject_Z (Qfloor q) <= q)%Q /\ (q < inject_Z (Qfloor q) + 1)%Q /\
       angle_to_level p angle (Some servo) =
       Z.min (Qfloor q) (wrap_val servo)).
Proof.
  split; [reflexivity|]. split; [exact period_us_value|].
  intros servo. split.
  - intros Hi. unfold angle_to_level. rewrite Hi. reflexivity.
  - intros Hi. rewrite (angle_to_level_eq p angle servo Hi).
    split; [lia|].
    intros q -> L U.
    split; [apply Qfloor_le|].
    split; [rewrite <- (inject_Z_plus _ 1); apply Qlt_floor|].
    destruct (float_to_u16_in_range p q L U) as [-> _]. reflexivity.
Qed.

Lemma angle_to_level_truncates_witness :
  angle_to_level board 200 (Some (calibrated 1000 2000 65535)) <= 65535 /\
  angle_to_level board 200 (Some (calibrated 1000 2000 65535)) = 6553.
Proof.
  destruct (proj2 (proj2 (angle_to_level_truncates board 200))
              (calibrated 1000 2000 65535)) as [_ H].
  destruct (H eq_refl) as (B & T).
  split; [exact B|].
  edestruct T as (_ & _ & E).
  - vm_compute. reflexivity.
  - vm_compute. discriminate.
  - vm_compute. reflexivity.
  - rewrite E. vm_compute. reflexivity.
Defined.

(** C2 fails as stated: for the default calibration and wrap value 65535
    the exact levels for 0 and 180 degrees are 3276.8 and 6553.6; the code
    returns 3276 and 6553, the nearest integers are 3277 and 6554. *)
Lemma angle_to_level_not_rounded :
  angle_to_level board 0 (Some (calibrated 1000 2000 65535)) = 3276 /\
  claimed_level 0 (calibrated 1000 2000 65535) = 3277 /\
  angle_to_level board 180 (Some (calibrated 1000 2000 65535)) = 6553 /\
  claimed_level 180 (calibrated 1000 2000 65535) = 6554 /\
  angle_to_level board 0 (Some (calibrated 1000 2000 65535)) <>
  claimed_level 0 (calibrated 1000 2000 65535).
Proof.
  repeat split; try (vm_compute; reflexivity).
  vm_compute. discriminate.
Qed.

Lemma round32_mono a b k :
  (emin <= k < emax)%Z -> (0 <= a)%Q -> (a <= b)%Q -> (b <= pow2 k)%Q ->
  round32 a = Fnum (rndq a) /\ round32 b = Fnum (rndq b) /\
  (0 <= rndq a)%Q /\ (rndq a <= rndq b)%Q /\ (rndq b <= pow2 k)%Q.
Proof.
  intros Hk H0 Hab Hb.
  pose proof (pow2_pos k) as P.
  assert (Z0 : rndq 0 = 0%Q) by reflexivity.
  repeat split.
  - apply round32_bounded with (k := k); auto. split; lra.
  - apply round32_bounded with (k := k); auto. split; lra.
  - rewrite <- Z0. apply rndq_mono; auto.
  - apply rndq_mono; auto.
  - rewrite <- (rndq_pow2 k) by lia. apply rndq_mono; auto.
Qed.

(** The value converted by [angle_to_level] is finite, not negative, and
    does not decrease with the angle. *)
Lemma level_float_mono servo a1 a2 :
  0 < min_pulse_us servo < max_pulse_us servo ->
  max_pulse_us servo <= 65535 -> 0 <= wrap_val servo <= 65535 ->
  0 <= a1 <= a2 -> a2 <= 180 ->
  exists q1 q2 : Q,
    level_float a1 servo = Fnum q1 /\ level_float a2 servo = Fnum q2 /\
    (0 <= q1)%Q /\ (q1 <= q2)%Q /\
    (max_pulse_us servo < 20000 -> (q2 < 65536)%Q).
Proof.
  intros Hmin Hmax Hwrap Ha Ha2. unfold level_float.
  destruct period_us_value as (pq & -> & Hpq).
  destruct (of_Z_exact a1 ltac:(lia)) as [-> E1].
  destruct (of_Z_exact a2 ltac:(lia)) as [-> E2].
  destruct (of_Z_exact (min_pulse_us servo) ltac:(lia)) as [-> Em].
  destruct (of_Z_exact (max_pulse_us servo - min_pulse_us servo) ltac:(lia))
    as [-> Ed].
  destruct (of_Z_exact (wrap_val servo + 1) ltac:(lia)) as [-> Ew].
  set (r1 := rndq (inject_Z a1)) in *. set (r2 := rndq (inject_Z a2)) in *.
  set (rm := rndq (inject_Z (min_pulse_us servo))) in *.
  set (rd := rndq (inject_Z (max_pulse_us servo - min_pulse_us servo))) in *.
  set (rw := rndq (inject_Z (wrap_val servo + 1))) in *.
  assert (B1 : (0 <= r1)%Q /\ (r1 <= r2)%Q /\ (r2 <= 180)%Q).
  { rewrite E1, E2. change 0%Q with (inject_Z 0). change 180%Q with (inject_Z 180).
    rewrite <- !Zle_Qle. lia. }
  assert (Bm : (0 <= rm)%Q /\ (rm <= 65535)%Q).
  { rewrite Em. change 0%Q with (inject_Z 0). change 65535%Q with (inject_Z 65535).
    rewrite <- !Zle_Qle. lia. }
  assert (Bd : (0 <= rd)%Q /\ (rd <= 65535)%Q).
  { rewrite Ed. change 0%Q with (inject_Z 0). change 65535%Q with (inject_Z 65535).
    rewrite <- !Zle_Qle. lia. }
  assert (Bw : (0 <= rw)%Q /\ (rw <= 65536)%Q).
  { rewrite Ew. change 0%Q with (inject_Z 0). change 65536%Q with (inject_Z 65536).
    rewrite <- !Zle_Qle. lia. }
  destruct B1 as (B1a & B1b & B1c). destruct Bm as [Bm1 Bm2].
  destruct Bd as [Bd1 Bd2]. destruct Bw as [Bw1 Bw2].
  (* angle / 180 *)
  unfold fdiv at 2 4. change (Qzero 180) with false. cbv iota.
  destruct (round32_mono (r1 / 180) (r2 / 180) 0 ltac:(unfold emin, emax; lia))
    as (-> & -> & T0 & T1 & T2).
  { apply Qle_shift_div_l; lra. }
  { apply Qmult_le_compat_r; [lra|]. apply Qlt_le_weak. reflexivity. }
  { change (pow2 0) with 1%Q. apply Qle_shift_div_r; lra. }
  change (pow2 0) with 1%Q in T2.
  set (t1 := rndq (r1 / 180)) in *. set (t2 := rndq (r2 / 180)) in *.
  (* ... * (max - min) *)
  unfold fmul at 2 4.
  destruct (round32_mono (t1 * rd) (t2 * rd) 16 ltac:(unfold emin, emax; lia))
    as (-> & -> & U0 & U1 & U2).
  { apply Qmult_le_0_compat; auto. }
  { apply Qmult_le_compat_r; auto. }
  { change (pow2 16) with 65536%Q. nra. }
  change (pow2 16) with 65536%Q in U2.
  set (u1 := rndq (t1 * rd)) in *. set (u2 := rndq (t2 * rd)) in *.
  (* min + ... *)
  unfold fadd.
  destruct (round32_mono (rm + u1) (rm + u2) 17 ltac:(unfold emin, emax; lia))
    as (-> & -> & S0 & S1 & S2).
  { lra. } { lra. } { change (pow2 17) with 131072%Q. lra. }
  change (pow2 17) with 131072%Q in S2.
  set (s1 := rndq (rm + u1)) in *. set (s2 := rndq (rm + u2)) in *.
  (* ... / period *)
  unfold fdiv.
  assert (Zp : Qzero pq = false).
  { unfold Qzero. destruct (Qeq_bool pq 0) eqn:E; auto.
    apply Qeq_bool_iff in E. rewrite Hpq in E. discriminate E. }
  rewrite Zp.
  destruct (round32_mono (s1 / pq) (s2 / pq) 3 ltac:(unfold emin, emax; lia))
    as (-> & -> & R0 & R1 & R2).
  { rewrite Hpq. apply Qle_shift_div_l; lra. }
  { rewrite Hpq. apply Qmult_le_compat_r; [lra|]. apply Qlt_le_weak. reflexivity. }
  { rewrite Hpq. change (pow2 3) with 8%Q. apply Qle_shift_div_r; lra. }
  change (pow2 3) with 8%Q in R2.
  set (x1 := rndq (s1 / pq)) in *. set (x2 := rndq (s2 / pq)) in *.
  (* ... * (wrap + 1) *)
  unfold fmul.
  destruct (round32_mono (x1 * rw) (x2 * rw) 19 ltac:(unfold emin, emax; lia))
    as (-> & -> & L0 & L1 & L2).
  { apply Qmult_le_0_compat; auto. }
  { apply Qmult_le_compat_r; auto. }
  { change (pow2 19) with 524288%Q. nra. }
  exists (rndq (x1 * rw)), (rndq (x2 * rw)).
  repeat split; auto.
  (* a pulse shorter than the period stays below the full count *)
  intros Hshort.
  assert (Xd : (rndq rd == rd)%Q).
  { rewrite (rndq_proper _ _ Ed). reflexivity. }
  assert (Hu : (u2 <= rd)%Q).
  { rewrite <- Xd. apply rndq_mono. nra. }
  destruct (of_Z_exact (max_pulse_us servo) ltac:(lia)) as [_ EM].
  assert (Hs : (s2 <= 19999)%Q).
  { apply Qle_trans with (rndq (inject_Z (max_pulse_us servo))).
    - apply rndq_mono. rewrite Em.
      apply Qle_trans with (inject_Z (min_pulse_us servo) + rd)%Q; [lra|].
      rewrite Ed, <- inject_Z_plus, <- Zle_Qle. lia.
    - rewrite EM. change 19999%Q with (inject_Z 19999).
      rewrite <- Zle_Qle. lia. }
  assert (Hc : (rndq (19999 # 20000) <= 16777215 # 16777216)%Q).
  { apply Qle_bool_iff. vm_compute. reflexivity. }
  assert (Hx : (x2 <= 16777215 # 16777216)%Q).
  { eapply Qle_trans; [|exact Hc]. apply rndq_mono.
    rewrite Hpq. apply Qle_shift_div_r; [reflexivity|].
    apply Qle_trans with 19999%Q; auto.
    apply Qle_bool_iff. vm_compute. reflexivity. }
  assert (Hl : (rndq (inject_Z 16777215 * pow2 (-8))
                == inject_Z 16777215 * pow2 (-8))%Q).
  { apply rndq_exact; [lia | unfold emin; lia]. }
  apply Qle_lt_trans with (inject_Z 16777215 * pow2 (-8))%Q;
    [|reflexivity].
  rewrite <- Hl. apply rndq_mono.
  apply Qle_trans with ((16777215 # 16777216) * 65536)%Q.
  - nra.
  - apply Qle_bool_iff. vm_compute. reflexivity.
Qed.

(** Where the level of the larger angle fits 16 bits, the level does not
    decrease with the angle, whatever the platform. *)
Lemma angle_to_level_monotone_in_range p servo a1 a2 :
  is_initialized servo = true ->
  0 < min_pulse_us servo < max_pulse_us servo ->
  max_pulse_us servo <= 65535 -> 0 <= wrap_val servo <= 65535 ->
  0 <= a1 <= a2 ->
  (forall q : Q,
     level_float (Z.min a2 180) servo = Fnum q -> (q < 65536)%Q) ->
  angle_to_level p a1 (Some servo) <= angle_to_level p a2 (Some servo).
Proof.
  intros Hi Hmin Hmax Hwrap Ha Hfit.
  rewrite !angle_to_level_eq by auto.
  destruct (level_float_mono servo (Z.min a1 180) (Z.min a2 180)
              Hmin Hmax Hwrap ltac:(lia) ltac:(lia))
    as (q1 & q2 & E1 & E2 & L0 & L1 & _).
  specialize (Hfit q2 E2). rewrite E1, E2.
  destruct (float_to_u16_in_range p q1 ltac:(lra) ltac:(lra)) as [-> _].
  destruct (float_to_u16_in_range p q2 ltac:(lra) ltac:(lra)) as [-> _].
  pose proof (Qfloor_resp_le q1 q2 L1). lia.
Qed.

(** That is the case of every calibration whose longest pulse is shorter
    than the period of 20000 us. *)
Lemma angle_to_level_monotone_short_pulse p servo a1 a2 :
  is_initialized servo = true ->
  0 < min_pulse_us servo < max_pulse_us servo ->
  max_pulse_us servo < 20000 -> 0 <= wrap_val servo <= 65535 ->
  0 <= a1 <= a2 ->
  angle_to_level p a1 (Some servo) <= angle_to_level p a2 (Some servo).
Proof.
  intros Hi Hmin Hmax Hwrap Ha.
  apply angle_to_level_monotone_in_range; auto; try lia.
  intros q Eq.
  destruct (level_float_mono servo (Z.min a1 180) (Z.min a2 180)
              Hmin ltac:(lia) Hwrap ltac:(lia) ltac:(lia))
    as (q1 & q2 & E1 & E2 & L0 & L1 & Hb).
  rewrite E2 in Eq. injection Eq as <-. apply Hb. exact Hmax.
Qed.

(** C7: at calibration 1000 to 40000 us and wrap value 65535 the level
    computed for 180 degrees is 131072.0, which does not fit [uint16_t]:
    the conversion comes before the limit to [wrap_val], so the level
    written is what the platform makes of the undefined conversion.  On a
    platform that keeps the low 16 bits it is 0, below the level 3276 of
    0 degrees: [angle_to_level] decreases from angle 0 to angle 180. *)
Theorem angle_to_level_wraps :
  (exists q : Q,
     level_float 180 (calibrated 1000 40000 65535) = Fnum q /\
     (q == 131072)%Q) /\
  (forall p : platform,
     angle_to_level p 0 (Some (calibrated 1000 40000 65535)) = 3276 /\
     angle_to_level p 180 (Some (calibrated 1000 40000 65535)) =
     Z.min (u16 (float_to_u16_undef p (UndefInt 131072))) 65535) /\
  angle_to_level board 180 (Some (calibrated 1000 40000 65535)) = 0 /\
  angle_to_level board 180 (Some (calibrated 1000 40000 65535)) <
  angle_to_level board 0 (Some (calibrated 1000 40000 65535)).
Proof.
  assert (E180 : level_float 180 (calibrated 1000 40000 65535)
                 = Fnum (8388608 # 64)) by (vm_compute; reflexivity).
  assert (E0 : level_float 0 (calibrated 1000 40000 65535)
               = Fnum (13421773 # 4096)) by (vm_compute; reflexivity).
  split; [|split; [|split]].
  - exists (8388608 # 64)%Q. split; [exact E180 | reflexivity].
  - intros p. rewrite !angle_to_level_eq by reflexivity.
    change (Z.min 0 180) with 0. change (Z.min 180 180) with 180.
    rewrite E0, E180. split; reflexivity.
  - vm_compute. reflexivity.
  - vm_compute. reflexivity.
Qed.

(** The same defect in [calculate_pwm_params]: at 125 MHz for 50 Hz the
    divider is quantized down to 38 + 2/16, the wrap value in single
    precision is 65572.77, and the test [*wrap_val > 65535] reads the value
    after its conversion to [uint16_t]; the clamp to 65535 is never
    applied.  Keeping the low 16 bits the function returns 36. *)
Lemma wrap_val_clamp_unreached :
  (exists q : Q,
     wrap_float 125000000 50 38 2 = Fnum q /\ Qtrunc q = 65572) /\
  calculate_pwm_params (rp2040 125000000) 50 = Some (36, 38, 2) /\
  claimed_wrap_val 125000000 50 38 2 = Some 65535.
Proof.
  split; [|split].
  - eexists. split; [vm_compute; reflexivity | vm_compute; reflexivity].
  - vm_compute. reflexivity.
  - vm_compute. reflexivity.
Qed.

(** * Registry and operations *)

(** ** Lemmas on the array *)

Lemma store_nat_length st n e : length (store_nat st n e) = length st.
Proof.
  revert n; induction st as [|x st IH]; intros [|n]; simpl; auto.
Qed.

Lemma store_nat_same st n e :
  (n < length st)%nat -> nth n (store_nat st n e) servo_zero = e.
Proof.
  revert n; induction st as [|x st IH]; intros [|n]; simpl; intros H;
    try lia; auto.
  apply IH; lia.
Qed.

Lemma store_nat_other st n m e :
  m <> n -> nth m (store_nat st n e) servo_zero = nth m st servo_zero.
Proof.
  revert n m; induction st as [|x st IH]; intros [|n] [|m]; simpl; intros H;
    auto; try congruence.
Qed.

Lemma store_at_same_elsewhere st i e :
  0 <= i -> same_elsewhere st (store_at st i e) i.
Proof.
  intros Hi; split.
  - apply store_nat_length.
  - intros j Hpos Hj. unfold entry_at, store_at.
    apply store_nat_other. intros E. apply Hj.
    apply Z2Nat.inj; auto.
Qed.

Lemma store_nat_pins_same st n e :
  is_initialized e = is_initialized (nth n st servo_zero) ->
  gpio_num e = gpio_num (nth n st servo_zero) ->
  initialized_pins (store_nat st n e) = initialized_pins st.
Proof.
  unfold initialized_pins.
  revert n; induction st as [|x st IH]; intros [|n]; simpl; intros Hi Hg; auto.
  - rewrite Hi. destruct (is_initialized x); simpl; congruence.
  - destruct (is_initialized x); simpl; rewrite IH; auto.
Qed.

Lemma store_nat_pins_fresh st n e x :
  (n < length st)%nat ->
  is_initialized (nth n st servo_zero) = false ->
  is_initialized e = true ->
  In x (initialized_pins (store_nat st n e)) <->
  x = gpio_num e \/ In x (initialized_pins st).
Proof.
  unfold initialized_pins.
  revert n; induction st as [|y st IH]; intros [|n]; simpl; intros Hn Hf He;
    try lia.
  - rewrite Hf, He. simpl. intuition.
  - specialize (IH n ltac:(lia) Hf He).
    destruct (is_initialized y); simpl; rewrite IH; intuition.
Qed.

Lemma store_nat_pins_NoDup st n e :
  (n < length st)%nat ->
  is_initialized (nth n st servo_zero) = false ->
  is_initialized e = true ->
  ~ In (gpio_num e) (initialized_pins st) ->
  NoDup (initialized_pins st) ->
  NoDup (initialized_pins (store_nat st n e)).
Proof.
  revert n; induction st as [|y st IH]; intros [|n]; simpl; intros Hn Hf He Hni Hnd;
    try lia.
  - unfold initialized_pins in *. simpl in *. rewrite Hf in *. rewrite He.
    simpl. constructor; auto.
  - unfold initialized_pins in *. simpl in *.
    destruct (is_initialized y) eqn:Ey; simpl in *.
    + inversion Hnd; subst. constructor.
      * intros Hin.
        apply (store_nat_pins_fresh st n e (gpio_num y)) in Hin; auto; try lia.
        destruct Hin as [Heq|Hin]; auto.
      * apply IH; auto; lia.
    + apply IH; auto; lia.
Qed.

Lemma store_nat_filter_length st n e :
  (n < length st)%nat ->
  is_initialized (nth n st servo_zero) = false ->
  is_initialized e = true ->
  length (filter is_initialized (store_nat st n e)) =
  S (length (filter is_initialized st)).
Proof.
  revert n; induction st as [|y st IH]; intros [|n]; simpl; intros Hn Hf He;
    try lia.
  - rewrite Hf, He. reflexivity.
  - destruct (is_initialized y); simpl; rewrite IH; auto; lia.
Qed.

Lemma filter_length_le {A} (f : A -> bool) l :
  (length (filter f l) <= length l)%nat.
Proof.
  induction l as [|a l IH]; simpl; auto.
  destruct (f a); simpl; lia.
Qed.

(** ** Lemmas on the two scans *)

Lemma scan_servo_index_range st i gpio :
  0 <= i ->
  scan_servo_index st i gpio = -1 \/
  i <= scan_servo_index st i gpio < i + Z.of_nat (length st).
Proof.
  revert i; induction st as [|e st IH]; simpl; intros i Hi; auto.
  destruct (is_initialized e && (gpio_num e =? gpio)).
  - right; lia.
  - destruct (IH (i + 1) ltac:(lia)) as [H|H]; [left|right]; auto; lia.
Qed.

Lemma scan_servo_index_missing st i gpio :
  0 <= i ->
  scan_servo_index st i gpio = -1 <-> ~ In gpio (initialized_pins st).
Proof.
  unfold initialized_pins.
  revert i; induction st as [|e st IH]; simpl; intros i Hi.
  - tauto.
  - destruct (is_initialized e) eqn:Ei; simpl.
    + destruct (Z.eqb_spec (gpio_num e) gpio) as [Hg|Hg].
      * split; [intros; lia | intros H; exfalso; apply H; auto].
      * rewrite (IH (i + 1) ltac:(lia)). tauto.
    + apply IH; lia.
Qed.

Lemma scan_servo_index_hit st i gpio :
  0 <= i ->
  scan_servo_index st i gpio <> -1 ->
  let e := nth (Z.to_nat (scan_servo_index st i gpio - i)) st servo_zero in
  is_initialized e = true /\ gpio_num e = gpio.
Proof.
  revert i; induction st as [|e st IH]; simpl; intros i Hi Hn.
  - congruence.
  - destruct (is_initialized e && (gpio_num e =? gpio)) eqn:E.
    + replace (i - i) with 0 by lia. simpl.
      apply andb_true_iff in E. destruct E as [E1 E2].
      apply Z.eqb_eq in E2. auto.
    + specialize (IH (i + 1) ltac:(lia) Hn).
      destruct (scan_servo_index_range st (i + 1) gpio ltac:(lia)) as [R|R];
        [congruence|].
      replace (Z.to_nat (scan_servo_index st (i + 1) gpio - i))
        with (S (Z.to_nat (scan_servo_index st (i + 1) gpio - (i + 1))))
        by lia.
      exact IH.
Qed.

Lemma scan_free_index_range st i :
  0 <= i ->
  scan_free_index st i = -1 \/
  i <= scan_free_index st i < i + Z.of_nat (length st).
Proof.
  revert i; induction st as [|e st IH]; simpl; intros i Hi; auto.
  destruct (negb (is_initialized e)).
  - right; lia.
  - destruct (IH (i + 1) ltac:(lia)) as [H|H]; [left|right]; auto; lia.
Qed.

Lemma scan_free_index_full st i :
  0 <= i ->
  scan_free_index st i = -1 <->
  length (filter is_initialized st) = length st.
Proof.
  revert i; induction st as [|e st IH]; simpl; intros i Hi.
  - tauto.
  - destruct (is_initialized e) eqn:Ei; simpl.
    + rewrite (IH (i + 1) ltac:(lia)). lia.
    + pose proof (filter_length_le is_initialized st). lia.
Qed.

Lemma scan_free_index_hit st i :
  0 <= i ->
  scan_free_index st i <> -1 ->
  is_initialized (nth (Z.to_nat (scan_free_index st i - i)) st servo_zero)
  = false.
Proof.
  revert i; induction st as [|e st IH]; simpl; intros i Hi Hn.
  - congruence.
  - destruct (is_initialized e) eqn:E; simpl in *.
    + specialize (IH (i + 1) ltac:(lia) Hn).
      destruct (scan_free_index_range st (i + 1) ltac:(lia)) as [R|R];
        [congruence|].
      replace (Z.to_nat (scan_free_index st (i + 1) - i))
        with (S (Z.to_nat (scan_free_index st (i + 1) - (i + 1)))) by lia.
      exact IH.
    + replace (i - i) with 0 by lia. simpl. exact E.
Qed.

(** ** The operations, unfolded *)

Lemma live_idem d : live (live d) = live d.
Proof.
  unfold live, initialize_servo_state.
  destruct (servo_state_initialized d) eqn:E; simpl; [rewrite E|]; reflexivity.
Qed.

Lemma live_flag d : servo_state_initialized (live d) = true.
Proof.
  unfold live, initialize_servo_state.
  destruct (servo_state_initialized d) eqn:E; simpl; auto.
Qed.

Lemma live_hw_log d : hw_log (live d) = hw_log d.
Proof.
  unfold live, initialize_servo_state.
  destruct (servo_state_initialized d); reflexivity.
Qed.

Lemma live_servo_state d :
  registry_inv d -> servo_state (live d) = servo_state d.
Proof.
  intros [_ Hz _ _]. unfold live, initialize_servo_state.
  destruct (servo_state_initialized d); simpl; auto.
  symmetry; auto.
Qed.

Lemma live_fixed d : servo_state_initialized d = true -> live d = d.
Proof.
  intros H. unfold live, initialize_servo_state. rewrite H. reflexivity.
Qed.

Lemma registered_flag d gpio :
  registry_inv d -> registered d gpio -> servo_state_initialized d = true.
Proof.
  intros [_ Hz _ _] Hr.
  destruct (servo_state_initialized d); auto.
  unfold registered in Hr. rewrite Hz in Hr by reflexivity.
  simpl in Hr. contradiction.
Qed.

Lemma find_servo_index_eq gpio d :
  find_servo_index gpio d =
  (scan_servo_index (servo_state (live d)) 0 gpio, live d).
Proof.
  unfold find_servo_index, bind, get_servo_state, ret, live.
  destruct (initialize_servo_state d) as [[] d0]. reflexivity.
Qed.

Lemma find_free_index_eq d :
  find_free_index d = (scan_free_index (servo_state (live d)) 0, live d).
Proof.
  unfold find_free_index, bind, get_servo_state, ret, live.
  destruct (initialize_servo_state d) as [[] d0]. reflexivity.
Qed.

Lemma servo_detach_eq gpio d :
  servo_detach gpio d =
  let st := servo_state (live d) in
  let i := scan_servo_index st 0 gpio in
  if i =? -1 then (false, live d)
  else if is_attached (entry_at st i) then
    (true, with_registry (live d)
             (store_at st i (set_is_attached (entry_at st i) false))
             [Call_pwm_set_enabled (slice_num (entry_at st i)) false])
  else (true, live d).
Proof.
  unfold servo_detach, bind. rewrite find_servo_index_eq. cbv zeta.
  destruct (_ =? -1); [reflexivity|].
  unfold get_servo_state.
  destruct (is_attached _); reflexivity.
Qed.

Lemma servo_attach_eq gpio d :
  servo_attach gpio d =
  let st := servo_state (live d) in
  let i := scan_servo_index st 0 gpio in
  if i =? -1 then (false, live d)
  else if is_attached (entry_at st i) then (true, live d)
  else
    (true, with_registry (live d)
             (store_at st i (set_is_attached (entry_at st i) true))
             [Call_pwm_set_enabled (slice_num (entry_at st i)) true]).
Proof.
  unfold servo_attach, bind. rewrite find_servo_index_eq. cbv zeta.
  destruct (_ =? -1); [reflexivity|].
  unfold get_servo_state.
  destruct (is_attached _); reflexivity.
Qed.

Lemma servo_set_eq p gpio angle d :
  servo_set p gpio angle d =
  let st := servo_state (live d) in
  let i := scan_servo_index st 0 gpio in
  if i =? -1 then (false, live d)
  else
    let e := entry_at st i in
    let st' := if is_attached e then st
               else store_at st i (set_is_attached e true) in
    let e' := entry_at st' i in
    (true, with_registry (live d) st'
             ((if is_attached e then []
               else [Call_pwm_set_enabled (slice_num e) true]) ++
              [Call_pwm_set_gpio_level (gpio_num e')
                 (angle_to_level p angle (Some e'))])).
Proof.
  unfold servo_set, bind. rewrite find_servo_index_eq. cbv zeta.
  destruct (_ =? -1); [reflexivity|].
  unfold get_servo_state.
  destruct (is_attached _); simpl; unfold with_registry; simpl.
  - reflexivity.
  - rewrite <- app_assoc. reflexivity.
Qed.

Lemma servo_init_eq p gpio min_us max_us d :
  servo_init p gpio min_us max_us d =
  let st := servo_state (live d) in
  let index := scan_free_index st 0 in
  if index =? -1 then (false, live d)
  else if negb (scan_servo_index st 0 gpio =? -1) then (false, live d)
  else if (min_us =? 0) || (max_us =? 0) || (max_us <=? min_us)
  then (false, live d)
  else
    match calculate_pwm_params p SERVO_PWM_FREQ_HZ with
    | None => (false, live d)
    | Some (wrap, clk_div_int, clk_div_frac) =>
        let slice := u16 (pwm_gpio_to_slice_num p gpio) in
        let servo :=
          {| gpio_num := gpio; slice_num := slice;
             chan_num := u16 (pwm_gpio_to_channel p gpio);
             wrap_val := wrap; min_pulse_us := min_us;
             max_pulse_us := max_us;
             is_initialized := true; is_attached := true |} in
        let st' := store_at st index servo in
        (true, with_registry (live d) st'
                 [Call_gpio_set_function_pwm gpio;
                  Call_pwm_init slice wrap clk_div_int clk_div_frac true;
                  Call_pwm_set_gpio_level gpio
                    (angle_to_level p 0 (Some (entry_at st' index)))])
    end.
Proof.
  unfold servo_init, bind.
  fold (live d).
  replace (initialize_servo_state d) with (tt, live d)
    by (unfold live; destruct (initialize_servo_state d) as [[] ?]; reflexivity).
  rewrite find_free_index_eq, live_idem. cbv zeta.
  destruct (_ =? -1); [reflexivity|].
  rewrite find_servo_index_eq, live_idem.
  destruct (negb _); [reflexivity|].
  destruct (_ || _); [reflexivity|].
  destruct (calculate_pwm_params p SERVO_PWM_FREQ_HZ) as [[[w i] f]|];
    [|reflexivity].
  unfold hw, get_servo_state, put_servo_state, ret, with_registry; simpl.
  rewrite <- !app_assoc. reflexivity.
Qed.

(** ** Preservation of the invariant *)

Lemma pins_length st :
  length (initialized_pins st) = length (filter is_initialized st).
Proof. unfold initialized_pins. apply length_map. Qed.

Lemma registry_inv_start : registry_inv driver_start.
Proof.
  constructor; cbn; auto.
  - apply Nat.le_0_l.
  - constructor.
Qed.

Lemma registry_inv_live d : registry_inv d -> registry_inv (live d).
Proof.
  intros H. pose proof (live_servo_state d H) as E.
  destruct H as [Hl Hz Hc Hd].
  constructor; rewrite ?E; auto.
  rewrite live_flag. discriminate.
Qed.

Lemma registry_inv_build d st cs :
  servo_state_initialized d = true ->
  length st = Z.to_nat MAX_SERVOS ->
  NoDup (initialized_pins st) ->
  registry_inv (with_registry d st cs).
Proof.
  intros Hf Hl Hd.
  constructor; unfold with_registry;
    cbn [servo_state servo_state_initialized hw_log]; auto.
  - rewrite Hf. discriminate.
  - rewrite <- Hl. apply filter_length_le.
Qed.

Lemma scan_servo_index_entry st gpio :
  scan_servo_index st 0 gpio <> -1 ->
  let i := scan_servo_index st 0 gpio in
  0 <= i < Z.of_nat (length st) /\
  is_initialized (entry_at st i) = true /\ gpio_num (entry_at st i) = gpio.
Proof.
  intros Hn. cbv zeta.
  destruct (scan_servo_index_range st 0 gpio ltac:(lia)) as [R|R];
    [congruence|].
  pose proof (scan_servo_index_hit st 0 gpio ltac:(lia) Hn) as H.
  cbv zeta in H. rewrite Z.sub_0_r in H.
  split; [lia | exact H].
Qed.

Lemma scan_free_index_entry st :
  scan_free_index st 0 <> -1 ->
  let i := scan_free_index st 0 in
  0 <= i < Z.of_nat (length st) /\ is_initialized (entry_at st i) = false.
Proof.
  intros Hn. cbv zeta.
  destruct (scan_free_index_range st 0 ltac:(lia)) as [R|R]; [congruence|].
  pose proof (scan_free_index_hit st 0 ltac:(lia) Hn) as H.
  rewrite Z.sub_0_r in H.
  split; [lia | exact H].
Qed.

Lemma store_attached_pins st i b :
  initialized_pins (store_at st i (set_is_attached (entry_at st i) b)) =
  initialized_pins st.
Proof. unfold store_at, entry_at. apply store_nat_pins_same; reflexivity. Qed.

Lemma registry_inv_store_attached d i b cs :
  registry_inv d ->
  registry_inv
    (with_registry (live d)
       (store_at (servo_state (live d)) i
          (set_is_attached (entry_at (servo_state (live d)) i) b)) cs).
Proof.
  intros H. apply registry_inv_live in H. destruct H as [Hl Hz Hc Hd].
  apply registry_inv_build.
  - apply live_flag.
  - unfold store_at. rewrite store_nat_length. exact Hl.
  - rewrite store_attached_pins. exact Hd.
Qed.

Lemma servo_detach_inv gpio d :
  registry_inv d -> registry_inv (snd (servo_detach gpio d)).
Proof.
  intros H. rewrite servo_detach_eq. cbv zeta.
  destruct (_ =? -1); [apply registry_inv_live; auto|].
  destruct (is_attached _); simpl.
  - apply registry_inv_store_attached; auto.
  - apply registry_inv_live; auto.
Qed.

Lemma servo_attach_inv gpio d :
  registry_inv d -> registry_inv (snd (servo_attach gpio d)).
Proof.
  intros H. rewrite servo_attach_eq. cbv zeta.
  destruct (_ =? -1); [apply registry_inv_live; auto|].
  destruct (is_attached _); simpl.
  - apply registry_inv_live; auto.
  - apply registry_inv_store_attached; auto.
Qed.

Lemma servo_set_inv p gpio angle d :
  registry_inv d -> registry_inv (snd (servo_set p gpio angle d)).
Proof.
  intros H. rewrite servo_set_eq. cbv zeta.
  destruct (_ =? -1); [apply registry_inv_live; auto|].
  destruct (is_attached _) eqn:E; simpl.
  - pose proof (registry_inv_live d H) as [Hl Hz Hc Hd].
    apply registry_inv_build; auto. apply live_flag.
  - apply registry_inv_store_attached; auto.
Qed.

Lemma servo_init_inv p gpio min_us max_us d :
  registry_inv d -> registry_inv (snd (servo_init p gpio min_us max_us d)).
Proof.
  intros H. pose proof (registry_inv_live d H) as HL.
  rewrite servo_init_eq. cbv zeta.
  destruct (Z.eqb_spec (scan_free_index (servo_state (live d)) 0) (-1))
    as [Hfree|Hfree]; [exact HL|].
  destruct (Z.eqb_spec (scan_servo_index (servo_state (live d)) 0 gpio) (-1))
    as [Hnew|Hnew]; [|exact HL]. simpl negb. cbv iota.
  destruct (_ || _); [exact HL|].
  destruct (calculate_pwm_params p SERVO_PWM_FREQ_HZ) as [[[w i] f]|];
    [|exact HL].
  simpl snd.
  destruct (scan_free_index_entry _ Hfree) as [Hr Hu].
  destruct HL as [Hl Hz Hc Hd].
  apply registry_inv_build.
  - apply live_flag.
  - unfold store_at. rewrite store_nat_length. exact Hl.
  - unfold store_at. apply store_nat_pins_NoDup; auto.
    + lia.
    + simpl. apply scan_servo_index_missing in Hnew; auto. lia.
Qed.

Lemma api_inv p c d : registry_inv d -> registry_inv (snd (api p c d)).
Proof.
  destruct c; simpl; intros H.
  - apply servo_init_inv; auto.
  - apply servo_init_inv; auto.
  - apply servo_set_inv; auto.
  - apply servo_detach_inv; auto.
  - apply servo_attach_inv; auto.
Qed.

Lemma run_cons p c cs d :
  run p (c :: cs) d =
  (fst (api p c d) :: fst (run p cs (snd (api p c d))),
   snd (run p cs (snd (api p c d)))).
Proof.
  simpl. unfold bind, ret.
  destruct (api p c d) as [r d1]. simpl.
  destruct (run p cs d1) as [rs d2]. reflexivity.
Qed.

Lemma run_inv p cs : forall d, registry_inv d -> registry_inv (snd (run p cs d)).
Proof.
  induction cs as [|c cs IH]; intros d H.
  - exact H.
  - rewrite run_cons. simpl. apply IH. apply api_inv. exact H.
Qed.

(** ** A registered pin stays registered *)

Lemma registered_live d gpio :
  registry_inv d -> registered d gpio -> registered (live d) gpio.
Proof. intros H. unfold registered. rewrite live_servo_state; auto. Qed.

Lemma registered_store_attached d i b cs gpio :
  registry_inv d -> registered d gpio ->
  registered
    (with_registry (live d)
       (store_at (servo_state (live d)) i
          (set_is_attached (entry_at (servo_state (live d)) i) b)) cs) gpio.
Proof.
  intros H Hr. unfold registered. simpl.
  rewrite store_attached_pins. apply registered_live; auto.
Qed.

Lemma servo_init_registered p g min_us max_us d gpio :
  registry_inv d -> registered d gpio ->
  registered (snd (servo_init p g min_us max_us d)) gpio.
Proof.
  intros H Hr. pose proof (registered_live d gpio H Hr) as HL.
  pose proof (registry_inv_live d H) as [Hl Hz Hc Hd].
  rewrite servo_init_eq. cbv zeta.
  destruct (Z.eqb_spec (scan_free_index (servo_state (live d)) 0) (-1))
    as [Hfree|Hfree]; [exact HL|].
  destruct (negb _); [exact HL|].
  destruct (_ || _); [exact HL|].
  destruct (calculate_pwm_params p SERVO_PWM_FREQ_HZ) as [[[w i] f]|];
    [|exact HL].
  destruct (scan_free_index_entry _ Hfree) as [Hi Hu].
  unfold registered, store_at. simpl.
  apply store_nat_pins_fresh; auto. lia.
Qed.

Lemma api_registered p c d gpio :
  registry_inv d -> registered d gpio -> registered (snd (api p c d)) gpio.
Proof.
  intros H Hr. pose proof (registered_live d gpio H Hr) as HL.
  destruct c; simpl.
  - apply servo_init_registered; auto.
  - apply servo_init_registered; auto.
  - rewrite servo_set_eq. cbv zeta.
    destruct (_ =? -1); [exact HL|].
    destruct (is_attached _); simpl.
    + exact HL.
    + apply registered_store_attached; auto.
  - rewrite servo_detach_eq. cbv zeta.
    destruct (_ =? -1); [exact HL|].
    destruct (is_attached _); simpl; auto.
    apply registered_store_attached; auto.
  - rewrite servo_attach_eq. cbv zeta.
    destruct (_ =? -1); [exact HL|].
    destruct (is_attached _); simpl; auto.
    apply registered_store_attached; auto.
Qed.

Lemma run_registered p cs gpio :
  forall d, registry_inv d -> registered d gpio ->
            registered (snd (run p cs d)) gpio.
Proof.
  induction cs as [|c cs IH]; intros d H Hr.
  - exact Hr.
  - rewrite run_cons. simpl. apply IH.
    + apply api_inv; auto.
    + apply api_registered; auto.
Qed.

Lemma entry_of_registered d gpio e : entry_of d gpio e -> registered d gpio.
Proof.
  intros (Hin & Hi & Hg). unfold registered, initialized_pins.
  rewrite <- Hg. apply in_map. apply filter_In. auto.
Qed.

Lemma registered_entry_of d gpio :
  registered d gpio -> exists e, entry_of d gpio e.
Proof.
  unfold registered, initialized_pins. intros H.
  apply in_map_iff in H. destruct H as (e & Hg & Hin).
  apply filter_In in Hin. exists e. unfold entry_of. tauto.
Qed.

Lemma scan_servo_index_unique st gpio e :
  NoDup (initialized_pins st) ->
  In e st -> is_initialized e = true -> gpio_num e = gpio ->
  forall i, 0 <= i ->
  scan_servo_index st i gpio <> -1 /\
  nth (Z.to_nat (scan_servo_index st i gpio - i)) st servo_zero = e.
Proof.
  induction st as [|x st IH]; intros Hnd Hin Hi Hg i Hpos.
  - contradiction.
  - simpl. destruct (is_initialized x && (gpio_num x =? gpio)) eqn:E.
    + split; [lia|]. replace (i - i) with 0 by lia. simpl.
      destruct Hin as [Hx|Hin]; auto. exfalso.
      apply andb_true_iff in E. destruct E as [E1 E2].
      apply Z.eqb_eq in E2.
      unfold initialized_pins in Hnd. simpl in Hnd. rewrite E1 in Hnd.
      simpl in Hnd. inversion Hnd as [|? ? Hni _]. apply Hni.
      rewrite E2, <- Hg. apply in_map. apply filter_In. auto.
    + destruct Hin as [Hx|Hin].
      * subst x. rewrite Hi in E. simpl in E.
        apply Z.eqb_neq in E. congruence.
      * assert (Hnd' : NoDup (initialized_pins st)).
        { unfold initialized_pins in *. simpl in Hnd.
          destruct (is_initialized x); simpl in Hnd; auto.
          inversion Hnd; auto. }
        destruct (IH Hnd' Hin Hi Hg (i + 1) ltac:(lia)) as [Hn He].
        split; auto.
        destruct (scan_servo_index_range st (i + 1) gpio ltac:(lia)) as [R|R];
          [congruence|].
        replace (Z.to_nat (scan_servo_index st (i + 1) gpio - i))
          with (S (Z.to_nat (scan_servo_index st (i + 1) gpio - (i + 1))))
          by lia.
        exact He.
Qed.

(** Under the invariant the scan finds exactly the entry of the pin. *)
Lemma entry_of_scan d gpio e :
  registry_inv d -> entry_of d gpio e ->
  let i := scan_servo_index (servo_state (live d)) 0 gpio in
  live d = d /\ i <> -1 /\ 0 <= i < MAX_SERVOS /\
  entry_at (servo_state d) i = e.
Proof.
  intros H He. cbv zeta.
  pose proof (registered_flag d gpio H (entry_of_registered _ _ _ He)) as Hf.
  rewrite (live_fixed d Hf).
  destruct He as (Hin & Hi & Hg).
  destruct (scan_servo_index_unique _ gpio e (inv_distinct d H) Hin Hi Hg 0
              ltac:(lia)) as [Hn Hnth].
  rewrite Z.sub_0_r in Hnth.
  destruct (scan_servo_index_range (servo_state d) 0 gpio ltac:(lia))
    as [R|R]; [congruence|].
  rewrite (inv_length d H) in R.
  unfold MAX_SERVOS in *. repeat split; auto; lia.
Qed.

Lemma not_registered_scan d gpio :
  registry_inv d ->
  scan_servo_index (servo_state (live d)) 0 gpio = -1 <-> ~ registered d gpio.
Proof.
  intros H. rewrite live_servo_state by auto.
  apply scan_servo_index_missing. lia.
Qed.

Lemma set_is_attached_same e : set_is_attached e (is_attached e) = e.
Proof. destruct e; reflexivity. Qed.

Lemma entry_at_In st i :
  0 <= i < Z.of_nat (length st) -> In (entry_at st i) st.
Proof. intros H. unfold entry_at. apply nth_In. lia. Qed.

Lemma entry_at_store st i e :
  0 <= i < Z.of_nat (length st) -> entry_at (store_at st i e) i = e.
Proof. intros H. unfold entry_at, store_at. apply store_nat_same. lia. Qed.

Lemma store_at_length st i e : length (store_at st i e) = length st.
Proof. apply store_nat_length. Qed.

Lemma In_store_at st i e :
  0 <= i < Z.of_nat (length st) -> In e (store_at st i e).
Proof.
  intros H. pose proof (entry_at_In (store_at st i e) i) as X.
  rewrite store_at_length in X. specialize (X H).
  rewrite entry_at_store in X; auto.
Qed.

Lemma same_elsewhere_refl st i : same_elsewhere st st i.
Proof. split; auto. Qed.

(** ** Behaviour of the public operations *)

Lemma servo_init_rejects p gpio min_us max_us d :
  registry_inv d ->
  registry_full d \/ registered d gpio \/
  min_us = 0 \/ max_us = 0 \/ max_us <= min_us ->
  fst (servo_init p gpio min_us max_us d) = false.
Proof.
  intros H Hc. rewrite servo_init_eq. cbv zeta.
  destruct (Z.eqb_spec (scan_free_index (servo_state (live d)) 0) (-1))
    as [Hfree|Hfree]; [reflexivity|].
  destruct (Z.eqb_spec (scan_servo_index (servo_state (live d)) 0 gpio) (-1))
    as [Hnew|Hnew]; [|reflexivity]. simpl negb. cbv iota.
  destruct ((min_us =? 0) || (max_us =? 0) || (max_us <=? min_us)) eqn:Hb;
    [reflexivity|].
  exfalso.
  apply orb_false_iff in Hb. destruct Hb as [Hb Hb3].
  apply orb_false_iff in Hb. destruct Hb as [Hb1 Hb2].
  apply Z.eqb_neq in Hb1. apply Z.eqb_neq in Hb2. apply Z.leb_gt in Hb3.
  destruct Hc as [Hfull|[Hreg|Hbad]].
  - apply Hfree. rewrite live_servo_state by auto.
    apply scan_free_index_full; [lia|].
    unfold registry_full in Hfull. rewrite Hfull. symmetry.
    apply (inv_length d H).
  - apply not_registered_scan in Hnew; auto.
  - lia.
Qed.

Lemma servo_init_failure_frame p gpio min_us max_us d :
  registry_inv d ->
  fst (servo_init p gpio min_us max_us d) = false ->
  servo_state (snd (servo_init p gpio min_us max_us d)) = servo_state d /\
  hw_log (snd (servo_init p gpio min_us max_us d)) = hw_log d.
Proof.
  intros H. pose proof (live_servo_state d H) as E1.
  pose proof (live_hw_log d) as E2.
  rewrite servo_init_eq. cbv zeta.
  destruct (_ =? -1); [simpl; auto|].
  destruct (negb _); [simpl; auto|].
  destruct (_ || _); [simpl; auto|].
  destruct (calculate_pwm_params p SERVO_PWM_FREQ_HZ) as [[[w i] f]|];
    [|simpl; auto].
  simpl. discriminate.
Qed.

Lemma servo_init_registers p gpio min_us max_us d :
  registry_inv d ->
  fst (servo_init p gpio min_us max_us d) = true ->
  registered (snd (servo_init p gpio min_us max_us d)) gpio.
Proof.
  intros H. pose proof (registry_inv_live d H) as [Hl Hz Hc Hd].
  rewrite servo_init_eq. cbv zeta.
  destruct (Z.eqb_spec (scan_free_index (servo_state (live d)) 0) (-1))
    as [Hfree|Hfree]; [simpl; discriminate|].
  destruct (negb _); [simpl; discriminate|].
  destruct (_ || _); [simpl; discriminate|].
  destruct (calculate_pwm_params p SERVO_PWM_FREQ_HZ) as [[[w i] f]|];
    [|simpl; discriminate].
  intros _.
  destruct (scan_free_index_entry _ Hfree) as [Hi Hu].
  unfold registered, store_at. simpl.
  apply store_nat_pins_fresh; auto. lia.
Qed.

(** C3: [servo_init] returns false when the registry is full, when the pin
    is already registered or when the pulse bounds are invalid; a failing
    call leaves the registry array and the hardware untouched; and once a
    pin has been initialized, whatever calls follow, initializing it again
    fails. *)
Theorem servo_init_all_or_nothing (p : platform) (gpio min_us max_us : Z)
    (d : driver) :
  registry_inv d ->
  (registry_full d \/ registered d gpio \/
   min_us = 0 \/ max_us = 0 \/ max_us <= min_us ->
   fst (servo_init p gpio min_us max_us d) = false) /\
  (fst (servo_init p gpio min_us max_us d) = false ->
   servo_state (snd (servo_init p gpio min_us max_us d)) = servo_state d /\
   hw_log (snd (servo_init p gpio min_us max_us d)) = hw_log d) /\
  (fst (servo_init p gpio min_us max_us d) = true ->
   forall (p' : platform) (cs : list api_call) (min_us' max_us' : Z),
     fst (servo_init p' gpio min_us' max_us'
            (snd (run p' cs (snd (servo_init p gpio min_us max_us d)))))
     = false).
Proof.
  intros H. split; [|split].
  - apply servo_init_rejects; auto.
  - apply servo_init_failure_frame; auto.
  - intros Hok p' cs a b.
    pose proof (servo_init_inv p gpio min_us max_us d H) as H1.
    pose proof (servo_init_registers p gpio min_us max_us d H Hok) as R1.
    apply servo_init_rejects.
    + apply run_inv; auto.
    + right; left. apply run_registered; auto.
Qed.

Lemma servo_init_all_or_nothing_witness :
  fst (servo_init board 2 0 2000 driver_start) = false /\
  fst (servo_init board 2 1000 2000
         (snd (run board [Servo_set 2 90; Servo_detach 2]
                 (snd (servo_init board 2 1000 2000
                         driver_start))))) = false.
Proof.
  split.
  - apply (proj1 (servo_init_all_or_nothing board 2 0 2000
                    driver_start registry_inv_start)).
    right; right; left; reflexivity.
  - apply (proj2 (proj2 (servo_init_all_or_nothing board
                           2 1000 2000 driver_start registry_inv_start))).
    vm_compute; reflexivity.
Defined.

(** C4: the registry invariant (eight slots, at most eight initialized
    entries, pairwise distinct pins among them) holds at program start and
    after every public call, hence after every sequence of calls; and with
    eight entries initialized [servo_init] returns false for any pin. *)
Theorem registry_inv_preserved :
  registry_inv driver_start /\
  (forall (p : platform) (c : api_call) (d : driver),
     registry_inv d -> registry_inv (snd (api p c d))) /\
  (forall (p : platform) (cs : list api_call),
     registry_inv (snd (run p cs driver_start))) /\
  (forall (p : platform) (gpio min_us max_us : Z) (d : driver),
     registry_inv d -> registry_full d ->
     fst (servo_init p gpio min_us max_us d) = false).
Proof.
  split; [|split; [|split]].
  - exact registry_inv_start.
  - intros p c d. apply api_inv.
  - intros p cs. apply run_inv. exact registry_inv_start.
  - intros p gpio a b d H Hfull. apply servo_init_rejects; auto.
Qed.

Lemma registry_inv_preserved_witness :
  fst (servo_init board 8 1000 2000
         (snd (run board
                 (map Servo_init_default [0; 1; 2; 3; 4; 5; 6; 7])
                 driver_start))) = false.
Proof.
  destruct registry_inv_preserved as (_ & _ & Hrun & Hfull).
  apply Hfull.
  - apply Hrun.
  - vm_compute. reflexivity.
Defined.

Lemma servo_set_result p gpio angle d :
  registry_inv d ->
  fst (servo_set p gpio angle d) = false <-> ~ registered d gpio.
Proof.
  intros H. rewrite <- not_registered_scan by auto.
  rewrite servo_set_eq. cbv zeta.
  destruct (Z.eqb_spec (scan_servo_index (servo_state (live d)) 0 gpio) (-1));
    simpl; split; intros; auto; congruence.
Qed.

Lemma servo_set_effect p gpio angle d e :
  registry_inv d -> entry_of d gpio e ->
  fst (servo_set p gpio angle d) = true /\
  entry_of (snd (servo_set p gpio angle d)) gpio (set_is_attached e true) /\
  hw_log (snd (servo_set p gpio angle d)) =
  hw_log d ++
  (if is_attached e then []
   else [Call_pwm_set_enabled (slice_num e) true]) ++
  [Call_pwm_set_gpio_level gpio
     (angle_to_level p angle (Some (set_is_attached e true)))].
Proof.
  intros H He.
  destruct (entry_of_scan d gpio e H He) as (Hlive & Hn & Hr & Hat).
  pose proof He as (Hin & Hi & Hg).
  rewrite servo_set_eq. cbv zeta. rewrite Hlive in *.
  apply Z.eqb_neq in Hn. rewrite Hn. rewrite Hat.
  assert (Hlen : 0 <= scan_servo_index (servo_state d) 0 gpio
                 < Z.of_nat (length (servo_state d))).
  { rewrite (inv_length d H). unfold MAX_SERVOS in *. lia. }
  destruct (is_attached e) eqn:Ea;
    cbn [fst snd servo_state hw_log with_registry app].
  - rewrite Hat. rewrite <- Ea, set_is_attached_same.
    repeat split; auto. congruence.
  - rewrite entry_at_store by auto. repeat split; auto.
    + apply In_store_at; auto.
    + cbn [gpio_num set_is_attached]. rewrite Hg. reflexivity.
Qed.

(** C6: [servo_set] returns false exactly when the pin is not registered;
    when it is, the call returns true, a Detached entry is first re-enabled
    ([pwm_set_enabled (slice, true)]) and marked attached, and the level
    computed for the angle is then written to the pin, so that the entry is
    attached afterwards. *)
Theorem servo_set_live_output (p : platform) (gpio angle : Z) (d : driver) :
  registry_inv d ->
  (fst (servo_set p gpio angle d) = false <-> ~ registered d gpio) /\
  (forall e : servo_info_t,
     entry_of d gpio e ->
     fst (servo_set p gpio angle d) = true /\
     entry_of (snd (servo_set p gpio angle d)) gpio
       (set_is_attached e true) /\
     hw_log (snd (servo_set p gpio angle d)) =
     hw_log d ++
     (if is_attached e then []
      else [Call_pwm_set_enabled (slice_num e) true]) ++
     [Call_pwm_set_gpio_level gpio
        (angle_to_level p angle (Some (set_is_attached e true)))]).
Proof.
  intros H. split.
  - apply servo_set_result; auto.
  - intros e He. apply servo_set_effect; auto.
Qed.

Lemma detached_2_inv : registry_inv detached_2.
Proof.
  constructor; vm_compute.
  - reflexivity.
  - discriminate.
  - repeat constructor.
  - constructor; [intros [] | constructor].
Qed.

Lemma detached_2_entry : entry_of detached_2 2 (entry_2 false).
Proof. vm_compute. auto. Qed.

Lemma servo_set_live_output_witness :
  fst (servo_set board 2 45 detached_2) = true /\
  entry_of (snd (servo_set board 2 45 detached_2)) 2
    (entry_2 true) /\
  hw_log (snd (servo_set board 2 45 detached_2)) =
  hw_log detached_2 ++
  [Call_pwm_set_enabled 1 true; Call_pwm_set_gpio_level 2 4096].
Proof.
  exact (proj2 (servo_set_live_output board 2 45 detached_2
                  detached_2_inv) (entry_2 false) detached_2_entry).
Defined.

Lemma servo_detach_result gpio d :
  registry_inv d ->
  fst (servo_detach gpio d) = false <-> ~ registered d gpio.
Proof.
  intros H. rewrite <- not_registered_scan by auto.
  rewrite servo_detach_eq. cbv zeta.
  destruct (Z.eqb_spec (scan_servo_index (servo_state (live d)) 0 gpio) (-1)).
  - simpl; split; auto.
  - destruct (is_attached _); simpl; split; intros; congruence.
Qed.

Lemma servo_attach_result gpio d :
  registry_inv d ->
  fst (servo_attach gpio d) = false <-> ~ registered d gpio.
Proof.
  intros H. rewrite <- not_registered_scan by auto.
  rewrite servo_attach_eq. cbv zeta.
  destruct (Z.eqb_spec (scan_servo_index (servo_state (live d)) 0 gpio) (-1)).
  - simpl; split; auto.
  - destruct (is_attached _); simpl; split; intros; congruence.
Qed.

Lemma servo_detach_again gpio d e :
  registry_inv d -> entry_of d gpio e -> is_attached e = false ->
  servo_detach gpio d = (true, d).
Proof.
  intros H He Ha.
  destruct (entry_of_scan d gpio e H He) as (Hlive & Hn & Hr & Hat).
  rewrite servo_detach_eq. cbv zeta. rewrite Hlive in *.
  apply Z.eqb_neq in Hn. rewrite Hn, Hat, Ha.
  reflexivity.
Qed.

Lemma servo_attach_again gpio d e :
  registry_inv d -> entry_of d gpio e -> is_attached e = true ->
  servo_attach gpio d = (true, d).
Proof.
  intros H He Ha.
  destruct (entry_of_scan d gpio e H He) as (Hlive & Hn & Hr & Hat).
  rewrite servo_attach_eq. cbv zeta. rewrite Hlive in *.
  apply Z.eqb_neq in Hn. rewrite Hn, Hat, Ha.
  reflexivity.
Qed.

Lemma toggles_succeed p gpio cs :
  toggles gpio cs ->
  forall d, registry_inv d -> registered d gpio ->
  fst (run p cs d) = repeat true (length cs).
Proof.
  induction 1 as [|c cs Hc Hcs IH]; intros d H Hr.
  - reflexivity.
  - rewrite run_cons. cbn [fst length repeat].
    rewrite IH.
    + f_equal.
      destruct (fst (api p c d)) eqn:E; auto. exfalso.
      destruct Hc as [Hc|Hc]; subst c; simpl in E.
      * apply servo_detach_result in E; auto.
      * apply servo_attach_result in E; auto.
    + apply api_inv; auto.
    + apply api_registered; auto.
Qed.

(** C8: [servo_detach] and [servo_attach] return false exactly when the
    pin is not registered; detaching a Detached pin and attaching an
    Attached pin return true and leave the whole state, hardware calls
    included, as it was; and in any sequence of detach and attach calls on
    a registered pin every call returns true. *)
Theorem detach_attach_idempotent (p : platform) (gpio : Z) (d : driver) :
  registry_inv d ->
  (fst (servo_detach gpio d) = false <-> ~ registered d gpio) /\
  (fst (servo_attach gpio d) = false <-> ~ registered d gpio) /\
  (forall e : servo_info_t,
     entry_of d gpio e -> is_attached e = false ->
     servo_detach gpio d = (true, d)) /\
  (forall e : servo_info_t,
     entry_of d gpio e -> is_attached e = true ->
     servo_attach gpio d = (true, d)) /\
  (forall cs : list api_call,
     registered d gpio -> toggles gpio cs ->
     fst (run p cs d) = repeat true (length cs)).
Proof.
  intros H. repeat split.
  - apply servo_detach_result; auto.
  - apply servo_detach_result; auto.
  - apply servo_attach_result; auto.
  - apply servo_attach_result; auto.
  - intros e. apply servo_detach_again; auto.
  - intros e. apply servo_attach_again; auto.
  - intros cs Hr Ht. apply toggles_succeed with (gpio := gpio); auto.
Qed.

Lemma detach_attach_idempotent_witness :
  servo_detach 2 detached_2 = (true, detached_2) /\
  fst (run board [Servo_detach 2; Servo_attach 2; Servo_attach 2;
                  Servo_detach 2] detached_2)
  = [true; true; true; true].
Proof.
  destruct (detach_attach_idempotent board 2 detached_2 detached_2_inv)
    as (_ & _ & Hd & _ & Hseq).
  split.
  - apply (Hd (entry_2 false)); [exact detached_2_entry | reflexivity].
  - apply Hseq.
    + exact (entry_of_registered _ _ _ detached_2_entry).
    + unfold toggles.
      repeat (apply Forall_cons;
              [first [left; reflexivity | right; reflexivity]|]).
      apply Forall_nil.
Defined.

Lemma servo_attach_effect gpio d e :
  registry_inv d -> entry_of d gpio e -> is_attached e = false ->
  exists i : Z,
    0 <= i < MAX_SERVOS /\
    entry_at (servo_state d) i = e /\
    servo_attach gpio d =
    (true, with_registry d (store_at (servo_state d) i (set_is_attached e true))
             [Call_pwm_set_enabled (slice_num e) true]).
Proof.
  intros H He Ha.
  destruct (entry_of_scan d gpio e H He) as (Hlive & Hn & Hr & Hat).
  rewrite Hlive in *.
  exists (scan_servo_index (servo_state d) 0 gpio).
  split; [exact Hr|]. split; [exact Hat|].
  rewrite servo_attach_eq. cbv zeta. rewrite Hlive.
  apply Z.eqb_neq in Hn. rewrite Hn, Hat, Ha. reflexivity.
Qed.

(** C9: [servo_attach] on a registered, Detached pin returns true; its
    only hardware call is [pwm_set_enabled (slice, true)] (no level is
    written); in the entry of the pin only [is_attached] changes, to true;
    every other entry of the registry is unchanged. *)
Theorem servo_attach_frame (gpio : Z) (d : driver) (e : servo_info_t) :
  registry_inv d -> entry_of d gpio e -> is_attached e = false ->
  fst (servo_attach gpio d) = true /\
  hw_log (snd (servo_attach gpio d)) =
    hw_log d ++ [Call_pwm_set_enabled (slice_num e) true] /\
  exists i : Z,
    0 <= i < MAX_SERVOS /\
    entry_at (servo_state d) i = e /\
    same_elsewhere (servo_state d) (servo_state (snd (servo_attach gpio d))) i /\
    let e' := entry_at (servo_state (snd (servo_attach gpio d))) i in
    gpio_num e' = gpio_num e /\ slice_num e' = slice_num e /\
    chan_num e' = chan_num e /\ wrap_val e' = wrap_val e /\
    min_pulse_us e' = min_pulse_us e /\ max_pulse_us e' = max_pulse_us e /\
    is_initialized e' = is_initialized e /\ is_attached e' = true.
Proof.
  intros H He Ha.
  destruct (servo_attach_effect gpio d e H He Ha) as (i & Hi & Hat & Heq).
  rewrite Heq. cbn [fst snd servo_state hw_log with_registry].
  split; [reflexivity|]. split; [reflexivity|].
  exists i. split; [exact Hi|]. split; [exact Hat|].
  split; [apply store_at_same_elsewhere; lia|].
  cbv zeta. rewrite entry_at_store.
  - repeat split.
  - rewrite (inv_length d H). unfold MAX_SERVOS in *. lia.
Qed.

Lemma servo_attach_frame_witness :
  fst (servo_attach 2 detached_2) = true /\
  hw_log (snd (servo_attach 2 detached_2)) =
    hw_log detached_2 ++ [Call_pwm_set_enabled 1 true].
Proof.
  destruct (servo_attach_frame 2 detached_2 (entry_2 false) detached_2_inv
              detached_2_entry eq_refl) as (Hr & Hlog & _).
  split; [exact Hr | exact Hlog].
Defined.

(** C10: for a registered pin [servo_set] returns true for every 8-bit
    angle and writes the level of that angle, after the enable if the entry
    was detached; for an angle above 180 the level written is the level of
    angle 180, and the call does exactly what it does for 180: same
    hardware calls, same resulting state. *)
Theorem servo_set_saturates (p : platform) (gpio angle : Z) (d : driver) :
  registry_inv d -> registered d gpio -> 0 <= angle <= 255 ->
  fst (servo_set p gpio angle d) = true /\
  (exists e : servo_info_t,
     entry_of d gpio e /\
     hw_log (snd (servo_set p gpio angle d)) =
     hw_log d ++
     (if is_attached e then []
      else [Call_pwm_set_enabled (slice_num e) true]) ++
     [Call_pwm_set_gpio_level gpio
        (angle_to_level p angle (Some (set_is_attached e true)))] /\
     (180 < angle ->
      angle_to_level p angle (Some (set_is_attached e true)) =
      angle_to_level p 180 (Some (set_is_attached e true)) /\
      hw_log (snd (servo_set p gpio angle d)) =
      hw_log d ++
      (if is_attached e then []
       else [Call_pwm_set_enabled (slice_num e) true]) ++
      [Call_pwm_set_gpio_level gpio
         (angle_to_level p 180 (Some (set_is_attached e true)))])) /\
  (180 < angle -> servo_set p gpio angle d = servo_set p gpio 180 d).
Proof.
  intros H Hr Ha.
  destruct (registered_entry_of d gpio Hr) as (e & He).
  destruct (servo_set_effect p gpio angle d e H He) as (R & _ & L).
  assert (S : forall s : servo_info_t,
            180 < angle ->
            angle_to_level p angle (Some s) = angle_to_level p 180 (Some s)).
  { intros s Hbig. unfold angle_to_level.
    apply Z.ltb_lt in Hbig. rewrite Hbig. reflexivity. }
  split; [exact R|]. split.
  - exists e. split; [exact He|]. split; [exact L|].
    intros Hbig. split; [apply S; exact Hbig|].
    rewrite L, (S _ Hbig). reflexivity.
  - intros Hbig. rewrite !servo_set_eq. cbv zeta.
    destruct (_ =? -1); [reflexivity|].
    do 4 f_equal. unfold angle_to_level.
    apply Z.ltb_lt in Hbig. rewrite Hbig. reflexivity.
Qed.

Lemma servo_set_saturates_witness :
  fst (servo_set board 2 255 detached_2) = true /\
  hw_log (snd (servo_set board 2 255 detached_2)) =
    hw_log detached_2 ++
    [Call_pwm_set_enabled 1 true;
     Call_pwm_set_gpio_level 2
       (angle_to_level board 180 (Some (entry_2 true)))] /\
  angle_to_level board 180 (Some (entry_2 true)) = 6553 /\
  servo_set board 2 255 detached_2 = servo_set board 2 180 detached_2.
Proof.
  destruct (servo_set_saturates board 2 255 detached_2 detached_2_inv
              (entry_of_registered _ _ _ detached_2_entry) ltac:(lia))
    as (Hr & (e & He & _ & Hl) & Hs).
  assert (Ee : e = entry_2 false).
  { destruct He as (Hin & Hi & _). vm_compute in Hin.
    repeat (destruct Hin as [Hin|Hin];
            [subst e; try discriminate Hi; try reflexivity|]).
    destruct Hin. }
  subst e. destruct (Hl ltac:(lia)) as (_ & Hlog).
  split; [exact Hr|]. split; [exact Hlog|].
  split; [vm_compute; reflexivity | apply Hs; lia].
Defined.

(** * Further properties of the driver *)

(** ** Lookup and allocation *)

Lemma pins_index_unique st i j :
  NoDup (initialized_pins st) ->
  (i < length st)%nat -> (j < length st)%nat ->
  is_initialized (nth i st servo_zero) = true ->
  is_initialized (nth j st servo_zero) = true ->
  gpio_num (nth i st servo_zero) = gpio_num (nth j st servo_zero) ->
  i = j.
Proof.
  revert i j. induction st as [|e st IH]; intros i j Hnd Hi Hj Ii Ij Hg.
  - simpl in Hi. lia.
  - assert (Hin : forall k, (k < length st)%nat ->
                   is_initialized (nth k st servo_zero) = true ->
                   In (gpio_num (nth k st servo_zero)) (initialized_pins st)).
    { intros k Hk Ik. unfold initialized_pins. apply in_map.
      apply filter_In. split; auto. apply nth_In; auto. }
    unfold initialized_pins in Hnd. simpl in Hnd, Hi, Hj.
    destruct i as [|i], j as [|j]; auto; simpl in *.
    + rewrite Ii in Hnd. simpl in Hnd. inversion Hnd as [|? ? Hni _].
      exfalso. apply Hni. rewrite Hg. apply Hin; auto. lia.
    + rewrite Ij in Hnd. simpl in Hnd. inversion Hnd as [|? ? Hni _].
      exfalso. apply Hni. rewrite <- Hg. apply Hin; auto. lia.
    + f_equal. apply IH; auto; try lia.
      destruct (is_initialized e); simpl in Hnd; auto.
      inversion Hnd; auto.
Qed.

(** X1: on a state that satisfies the registry invariant,
    [find_servo_index] returns -1 exactly when the pin is not registered;
    otherwise it returns an index within the array whose entry is
    initialized and carries the pin, and no other index has such an entry.
    The search changes neither the array nor the hardware. *)
Theorem find_servo_index_lookup (gpio : Z) (d : driver) :
  registry_inv d ->
  (fst (find_servo_index gpio d) = -1 <-> ~ registered d gpio) /\
  (fst (find_servo_index gpio d) <> -1 ->
   0 <= fst (find_servo_index gpio d) < MAX_SERVOS /\
   is_initialized (entry_at (servo_state d) (fst (find_servo_index gpio d)))
   = true /\
   gpio_num (entry_at (servo_state d) (fst (find_servo_index gpio d))) = gpio /\
   forall j : Z,
     0 <= j < MAX_SERVOS ->
     is_initialized (entry_at (servo_state d) j) = true ->
     gpio_num (entry_at (servo_state d) j) = gpio ->
     j = fst (find_servo_index gpio d)) /\
  servo_state (snd (find_servo_index gpio d)) = servo_state d /\
  hw_log (snd (find_servo_index gpio d)) = hw_log d.
Proof.
  intros H. rewrite find_servo_index_eq. cbn [fst snd].
  pose proof (live_servo_state d H) as EL. rewrite EL.
  split; [|split; [|split]].
  - apply scan_servo_index_missing. lia.
  - intros Hn.
    destruct (scan_servo_index_entry (servo_state d) gpio Hn) as (R & I & G).
    rewrite (inv_length d H) in R.
    split; [unfold MAX_SERVOS in *; lia|]. split; [exact I|]. split; [exact G|].
    intros j Hj Ij Gj.
    assert (E : Z.to_nat j = Z.to_nat (scan_servo_index (servo_state d) 0 gpio)).
    { apply (pins_index_unique (servo_state d)); auto.
      - apply (inv_distinct d H).
      - rewrite (inv_length d H). unfold MAX_SERVOS in *. lia.
      - rewrite (inv_length d H). lia.
      - unfold entry_at in G, Gj. congruence. }
    lia.
  - reflexivity.
  - apply live_hw_log.
Qed.

Lemma scan_free_index_first st :
  forall i, 0 <= i ->
  forall j, i <= j < scan_free_index st i ->
  is_initialized (nth (Z.to_nat (j - i)) st servo_zero) = true.
Proof.
  induction st as [|e st IH]; intros i Hi j Hj.
  - simpl in Hj. lia.
  - simpl in Hj. destruct (is_initialized e) eqn:E; simpl in Hj; [|lia].
    destruct (Z.eq_dec j i) as [->|Hne].
    + replace (i - i) with 0 by lia. exact E.
    + replace (Z.to_nat (j - i)) with (S (Z.to_nat (j - (i + 1)))) by lia.
      simpl. apply IH; lia.
Qed.

(** X2: [find_free_index] returns -1 exactly when all [MAX_SERVOS]
    entries are initialized; otherwise it returns the lowest free index:
    the entry there is uninitialized and every entry below it is
    initialized. *)
Theorem find_free_index_lowest (d : driver) :
  registry_inv d ->
  (fst (find_free_index d) = -1 <-> registry_full d) /\
  (fst (find_free_index d) <> -1 ->
   0 <= fst (find_free_index d) < MAX_SERVOS /\
   is_initialized (entry_at (servo_state d) (fst (find_free_index d))) = false /\
   forall j : Z,
     0 <= j < fst (find_free_index d) ->
     is_initialized (entry_at (servo_state d) j) = true).
Proof.
  intros H. rewrite find_free_index_eq. cbn [fst snd].
  rewrite (live_servo_state d H).
  split.
  - rewrite (scan_free_index_full _ 0) by lia.
    unfold registry_full. rewrite (inv_length d H). tauto.
  - intros Hn.
    destruct (scan_free_index_entry (servo_state d) Hn) as (R & I).
    rewrite (inv_length d H) in R.
    split; [unfold MAX_SERVOS in *; lia|]. split; [exact I|].
    intros j Hj.
    pose proof (scan_free_index_first (servo_state d) 0 ltac:(lia) j Hj) as X.
    rewrite Z.sub_0_r in X. exact X.
Qed.

(** ** Initialization *)

Lemma scan_servo_index_at d gpio j :
  registry_inv d -> 0 <= j < MAX_SERVOS ->
  is_initialized (entry_at (servo_state d) j) = true ->
  gpio_num (entry_at (servo_state d) j) = gpio ->
  scan_servo_index (servo_state d) 0 gpio = j.
Proof.
  intros H Hj Ij Gj.
  assert (Hn : scan_servo_index (servo_state d) 0 gpio <> -1).
  { intros C. apply scan_servo_index_missing in C; [|lia]. apply C.
    unfold initialized_pins. rewrite <- Gj. apply in_map. apply filter_In.
    split; auto. apply entry_at_In. rewrite (inv_length d H).
    unfold MAX_SERVOS in *. lia. }
  destruct (scan_servo_index_entry (servo_state d) gpio Hn) as (R & I & G).
  rewrite (inv_length d H) in R.
  assert (E : Z.to_nat j = Z.to_nat (scan_servo_index (servo_state d) 0 gpio)).
  { apply (pins_index_unique (servo_state d)); auto.
    - apply (inv_distinct d H).
    - rewrite (inv_length d H). unfold MAX_SERVOS in *. lia.
    - rewrite (inv_length d H). lia.
    - unfold entry_at in G, Gj. congruence. }
  lia.
Qed.

Lemma servo_init_true_scan p gpio min_us max_us d :
  fst (servo_init p gpio min_us max_us d) = true <->
  scan_free_index (servo_state (live d)) 0 <> -1 /\
  scan_servo_index (servo_state (live d)) 0 gpio = -1 /\
  min_us <> 0 /\ max_us <> 0 /\ min_us < max_us /\
  calculate_pwm_params p SERVO_PWM_FREQ_HZ <> None.
Proof.
  rewrite servo_init_eq. cbv zeta.
  destruct (Z.eqb_spec (scan_free_index (servo_state (live d)) 0) (-1))
    as [Hfree|Hfree].
  { simpl. split; [discriminate|]. intros (X & _). tauto. }
  destruct (Z.eqb_spec (scan_servo_index (servo_state (live d)) 0 gpio) (-1))
    as [Hnew|Hnew]; simpl negb; cbv iota.
  2:{ simpl. split; [discriminate|]. intros (_ & X & _). tauto. }
  destruct ((min_us =? 0) || (max_us =? 0) || (max_us <=? min_us)) eqn:Hb3.
  { simpl. split; [discriminate|]. intros (_ & _ & X1 & X2 & X3 & _).
    apply orb_true_iff in Hb3. destruct Hb3 as [Hb3|Hb3].
    - apply orb_true_iff in Hb3. destruct Hb3 as [Hb3|Hb3];
        apply Z.eqb_eq in Hb3; lia.
    - apply Z.leb_le in Hb3. lia. }
  apply orb_false_iff in Hb3. destruct Hb3 as [Hb3 Hb4].
  apply orb_false_iff in Hb3. destruct Hb3 as [Hb1 Hb2].
  apply Z.eqb_neq in Hb1, Hb2. apply Z.leb_gt in Hb4.
  destruct (calculate_pwm_params p SERVO_PWM_FREQ_HZ) as [[[w i] f]|].
  - simpl. split; auto. intros _.
    repeat split; try tauto; try lia. discriminate.
  - simpl. split; [discriminate|]. intros (_ & _ & _ & _ & _ & X). congruence.
Qed.

Lemma free_slot_scan d :
  registry_inv d ->
  scan_free_index (servo_state (live d)) 0 <> -1 <-> ~ registry_full d.
Proof.
  intros H.
  rewrite (live_servo_state d H), (scan_free_index_full _ 0) by lia.
  unfold registry_full. rewrite (inv_length d H). tauto.
Qed.

(** X7: on a state that satisfies the registry invariant, [servo_init]
    returns true exactly when a slot is free, the pin is not registered,
    [0 < min_pulse_us < max_pulse_us] and [calculate_pwm_params] succeeds
    for the servo frequency. *)
Theorem servo_init_succeeds_iff (p : platform) (gpio min_us max_us : Z)
    (d : driver) :
  registry_inv d -> 0 <= min_us ->
  (fst (servo_init p gpio min_us max_us d) = true <->
   ~ registry_full d /\ ~ registered d gpio /\
   0 < min_us < max_us /\
   calculate_pwm_params p SERVO_PWM_FREQ_HZ <> None).
Proof.
  intros H Ha.
  rewrite servo_init_true_scan, (free_slot_scan d H),
    (not_registered_scan d gpio H).
  split.
  - intros (F & N & B1 & B2 & B3 & C).
    split; [exact F|]. split; [exact N|]. split; [lia | exact C].
  - intros (F & N & B & C).
    split; [exact F|]. split; [exact N|].
    split; [lia|]. split; [lia|]. split; [lia | exact C].
Qed.

Lemma servo_init_succeeds_iff_witness :
  fst (servo_init board 5 544 2400 detached_2) = true.
Proof.
  apply (proj2 (servo_init_succeeds_iff board 5 544 2400 detached_2
                  detached_2_inv ltac:(lia))).
  repeat split; try lia.
  - vm_compute. discriminate.
  - vm_compute. intros [C|[]]. discriminate C.
  - vm_compute. discriminate.
Defined.

(** X9: [servo_init_default] returns true exactly when a slot is free,
    the pin is not registered and [calculate_pwm_params] succeeds for the
    servo frequency: the default bounds 1000 and 2000 pass the calibration
    check. *)
Theorem servo_init_default_succeeds_iff (p : platform) (gpio : Z) (d : driver) :
  registry_inv d ->
  (fst (servo_init_default p gpio d) = true <->
   ~ registry_full d /\ ~ registered d gpio /\
   calculate_pwm_params p SERVO_PWM_FREQ_HZ <> None).
Proof.
  intros H. unfold servo_init_default.
  rewrite servo_init_true_scan, (free_slot_scan d H),
    (not_registered_scan d gpio H).
  unfold DEFAULT_SERVO_MIN_PULSE_US, DEFAULT_SERVO_MAX_PULSE_US.
  split.
  - intros (F & N & _ & _ & _ & C). tauto.
  - intros (F & N & C).
    split; [exact F|]. split; [exact N|].
    split; [discriminate|]. split; [discriminate|]. split; [lia | exact C].
Qed.

Lemma servo_init_default_succeeds_iff_witness :
  fst (servo_init_default board 7 detached_2) = true.
Proof.
  apply (proj2 (servo_init_default_succeeds_iff board 7 detached_2
                  detached_2_inv)).
  repeat split.
  - vm_compute. discriminate.
  - vm_compute. intros [C|[]]. discriminate C.
  - vm_compute. discriminate.
Defined.

Lemma servo_init_success_eq p gpio min_us max_us d wrap clk_div_int clk_div_frac :
  registry_inv d ->
  fst (servo_init p gpio min_us max_us d) = true ->
  calculate_pwm_params p SERVO_PWM_FREQ_HZ
  = Some (wrap, clk_div_int, clk_div_frac) ->
  let index := scan_free_index (servo_state d) 0 in
  let servo :=
    {| gpio_num := gpio;
       slice_num := u16 (pwm_gpio_to_slice_num p gpio);
       chan_num := u16 (pwm_gpio_to_channel p gpio);
       wrap_val := wrap; min_pulse_us := min_us; max_pulse_us := max_us;
       is_initialized := true; is_attached := true |} in
  0 <= index < MAX_SERVOS /\
  is_initialized (entry_at (servo_state d) index) = false /\
  ~ registered d gpio /\ 0 <> min_us /\ min_us < max_us /\
  servo_init p gpio min_us max_us d =
  (true,
   with_registry (live d) (store_at (servo_state d) index servo)
     [Call_gpio_set_function_pwm gpio;
      Call_pwm_init (u16 (pwm_gpio_to_slice_num p gpio)) wrap
        clk_div_int clk_div_frac true;
      Call_pwm_set_gpio_level gpio (angle_to_level p 0 (Some servo))]).
Proof.
  intros H Hok Hc. cbv zeta.
  revert Hok. rewrite servo_init_eq. cbv zeta.
  pose proof (live_servo_state d H) as EL.
  pose proof (not_registered_scan d gpio H) as NR.
  rewrite EL in *.
  destruct (Z.eqb_spec (scan_free_index (servo_state d) 0) (-1))
    as [Hfree|Hfree]; [simpl; discriminate|].
  destruct (Z.eqb_spec (scan_servo_index (servo_state d) 0 gpio) (-1))
    as [Hnew|Hnew]; simpl negb; cbv iota; [|simpl; discriminate].
  destruct ((min_us =? 0) || (max_us =? 0) || (max_us <=? min_us)) eqn:Hb3;
    [simpl; discriminate|].
  apply orb_false_iff in Hb3. destruct Hb3 as [Hb3 Hb4].
  apply orb_false_iff in Hb3. destruct Hb3 as [Hb1 Hb2].
  apply Z.eqb_neq in Hb1, Hb2. apply Z.leb_gt in Hb4.
  rewrite Hc. intros _.
  destruct (scan_free_index_entry _ Hfree) as (R & I).
  rewrite (inv_length d H) in R.
  split; [unfold MAX_SERVOS in *; lia|]. split; [exact I|].
  split; [apply NR; exact Hnew|]. split; [lia|]. split; [lia|].
  rewrite entry_at_store; [reflexivity|].
  rewrite (inv_length d H). lia.
Qed.

(** X8: a successful [servo_init] stores, at the index that
    [find_free_index] returns, the entry with the pin, its slice and
    channel, the computed wrap value and the two pulse bounds, initialized
    and attached, and leaves every other entry as it was; it performs
    exactly [gpio_set_function], [pwm_init] (started, with the computed
    parameters) and [pwm_set_gpio_level] with the level of angle 0, in this
    order; afterwards [find_servo_index] finds the pin at that index. *)
Theorem servo_init_effect (p : platform) (gpio min_us max_us : Z)
    (d : driver) (wrap clk_div_int clk_div_frac : Z) :
  registry_inv d ->
  fst (servo_init p gpio min_us max_us d) = true ->
  calculate_pwm_params p SERVO_PWM_FREQ_HZ
  = Some (wrap, clk_div_int, clk_div_frac) ->
  let d' := snd (servo_init p gpio min_us max_us d) in
  let index := fst (find_free_index d) in
  let servo :=
    {| gpio_num := gpio;
       slice_num := u16 (pwm_gpio_to_slice_num p gpio);
       chan_num := u16 (pwm_gpio_to_channel p gpio);
       wrap_val := wrap; min_pulse_us := min_us; max_pulse_us := max_us;
       is_initialized := true; is_attached := true |} in
  0 <= index < MAX_SERVOS /\
  entry_at (servo_state d') index = servo /\
  same_elsewhere (servo_state d) (servo_state d') index /\
  hw_log d' =
    hw_log d ++
    [Call_gpio_set_function_pwm gpio;
     Call_pwm_init (u16 (pwm_gpio_to_slice_num p gpio)) wrap
       clk_div_int clk_div_frac true;
     Call_pwm_set_gpio_level gpio (angle_to_level p 0 (Some servo))] /\
  fst (find_servo_index gpio d') = index.
Proof.
  intros H Hok Hc. cbv zeta.
  pose proof (servo_init_inv p gpio min_us max_us d H) as H'.
  destruct (servo_init_success_eq p gpio min_us max_us d _ _ _ H Hok Hc)
    as (R & I & NR & _ & _ & E).
  cbv zeta in E.
  rewrite find_free_index_eq. cbn [fst]. rewrite (live_servo_state d H).
  set (index := scan_free_index (servo_state d) 0) in *.
  rewrite E in *. cbn [fst snd] in *.
  assert (Hs : entry_at
                 (servo_state
                    (with_registry (live d)
                       (store_at (servo_state d) index
                          {| gpio_num := gpio;
                             slice_num := u16 (pwm_gpio_to_slice_num p gpio);
                             chan_num := u16 (pwm_gpio_to_channel p gpio);
                             wrap_val := wrap; min_pulse_us := min_us;
                             max_pulse_us := max_us;
                             is_initialized := true; is_attached := true |})
                       [Call_gpio_set_function_pwm gpio;
                        Call_pwm_init (u16 (pwm_gpio_to_slice_num p gpio)) wrap
                          clk_div_int clk_div_frac true;
                        Call_pwm_set_gpio_level gpio
                          (angle_to_level p 0
                             (Some
                                {| gpio_num := gpio;
                                   slice_num := u16 (pwm_gpio_to_slice_num p gpio);
                                   chan_num := u16 (pwm_gpio_to_channel p gpio);
                                   wrap_val := wrap; min_pulse_us := min_us;
                                   max_pulse_us := max_us;
                                   is_initialized := true;
                                   is_attached := true |}))])) index
               = {| gpio_num := gpio;
                    slice_num := u16 (pwm_gpio_to_slice_num p gpio);
                    chan_num := u16 (pwm_gpio_to_channel p gpio);
                    wrap_val := wrap; min_pulse_us := min_us;
                    max_pulse_us := max_us;
                    is_initialized := true; is_attached := true |}).
  { cbn [servo_state with_registry]. apply entry_at_store.
    rewrite (inv_length d H). unfold MAX_SERVOS in *. lia. }
  split; [exact R|]. split; [exact Hs|].
  split; [cbn [servo_state with_registry]; apply store_at_same_elsewhere; lia|].
  split; [cbn [hw_log with_registry]; rewrite live_hw_log; reflexivity|].
  rewrite find_servo_index_eq. cbn [fst].
  rewrite (live_servo_state _ H').
  apply scan_servo_index_at; auto; rewrite Hs; reflexivity.
Qed.

Lemma servo_init_effect_witness :
  entry_at (servo_state (snd (servo_init board 5 544 2400 detached_2))) 1
  = {| gpio_num := 5; slice_num := 2; chan_num := 1; wrap_val := 65535;
       min_pulse_us := 544; max_pulse_us := 2400;
       is_initialized := true; is_attached := true |} /\
  fst (find_servo_index 5 (snd (servo_init board 5 544 2400 detached_2))) = 1.
Proof.
  destruct (servo_init_effect board 5 544 2400 detached_2 65535 39 1
              detached_2_inv) as (_ & E & _ & _ & F).
  - vm_compute. reflexivity.
  - vm_compute. reflexivity.
  - split; [exact E | exact F].
Defined.

(** ** Detach and attach *)

Lemma store_nat_twice st n a b :
  store_nat (store_nat st n a) n b = store_nat st n b.
Proof.
  revert n; induction st as [|x st IH]; intros [|n]; simpl; auto.
  f_equal. apply IH.
Qed.

Lemma store_nat_id st n :
  store_nat st n (nth n st servo_zero) = st.
Proof.
  revert n; induction st as [|x st IH]; intros [|n]; simpl; auto.
  f_equal. apply IH.
Qed.

Lemma servo_detach_effect gpio d e :
  registry_inv d -> entry_of d gpio e -> is_attached e = true ->
  exists i : Z,
    0 <= i < MAX_SERVOS /\
    entry_at (servo_state d) i = e /\
    servo_detach gpio d =
    (true, with_registry d
             (store_at (servo_state d) i (set_is_attached e false))
             [Call_pwm_set_enabled (slice_num e) false]).
Proof.
  intros H He Ha.
  destruct (entry_of_scan d gpio e H He) as (Hlive & Hn & Hr & Hat).
  rewrite Hlive in *.
  exists (scan_servo_index (servo_state d) 0 gpio).
  split; [exact Hr|]. split; [exact Hat|].
  rewrite servo_detach_eq. cbv zeta. rewrite Hlive.
  apply Z.eqb_neq in Hn. rewrite Hn, Hat, Ha. reflexivity.
Qed.

(** X11: [servo_detach] on a registered, attached pin returns true,
    performs the one call [pwm_set_enabled (slice, false)] and clears the
    attached flag of the pin's entry; every other entry, also one on the
    same slice, is left as it was. *)
Theorem servo_detach_frame (gpio : Z) (d : driver) (e : servo_info_t) :
  registry_inv d -> entry_of d gpio e -> is_attached e = true ->
  fst (servo_detach gpio d) = true /\
  hw_log (snd (servo_detach gpio d)) =
    hw_log d ++ [Call_pwm_set_enabled (slice_num e) false] /\
  exists i : Z,
    0 <= i < MAX_SERVOS /\
    entry_at (servo_state d) i = e /\
    same_elsewhere (servo_state d) (servo_state (snd (servo_detach gpio d))) i /\
    entry_at (servo_state (snd (servo_detach gpio d))) i =
    set_is_attached e false.
Proof.
  intros H He Ha.
  destruct (servo_detach_effect gpio d e H He Ha) as (i & Hi & Hat & Heq).
  rewrite Heq. cbn [fst snd servo_state hw_log with_registry].
  split; [reflexivity|]. split; [reflexivity|].
  exists i. split; [exact Hi|]. split; [exact Hat|].
  split; [apply store_at_same_elsewhere; lia|].
  apply entry_at_store. rewrite (inv_length d H). unfold MAX_SERVOS in *. lia.
Qed.

Lemma servo_detach_frame_witness :
  fst (servo_detach 2 (snd (servo_attach 2 detached_2))) = true /\
  hw_log (snd (servo_detach 2 (snd (servo_attach 2 detached_2)))) =
    hw_log (snd (servo_attach 2 detached_2)) ++ [Call_pwm_set_enabled 1 false].
Proof.
  destruct (servo_detach_frame 2 (snd (servo_attach 2 detached_2))
              (entry_2 true)) as (R & L & _).
  - constructor; vm_compute.
    + reflexivity.
    + discriminate.
    + repeat constructor.
    + constructor; [intros [] | constructor].
  - vm_compute. auto.
  - reflexivity.
  - split; [exact R | exact L].
Defined.

Lemma entry_of_store d i e e' cs gpio :
  registry_inv d -> 0 <= i < MAX_SERVOS ->
  entry_at (servo_state d) i = e ->
  is_initialized e' = true -> gpio_num e' = gpio ->
  entry_of (with_registry d (store_at (servo_state d) i e') cs) gpio e'.
Proof.
  intros H Hi Hat Ii Gi. unfold entry_of.
  cbn [servo_state with_registry]. repeat split; auto.
  apply In_store_at. rewrite (inv_length d H). unfold MAX_SERVOS in *. lia.
Qed.

Lemma registry_inv_toggle d i e b cs :
  registry_inv d -> servo_state_initialized d = true ->
  entry_at (servo_state d) i = e ->
  registry_inv
    (with_registry d (store_at (servo_state d) i (set_is_attached e b)) cs).
Proof.
  intros H Hf Hat. apply registry_inv_build; auto.
  - rewrite store_at_length. apply (inv_length d H).
  - rewrite <- Hat, store_attached_pins. apply (inv_distinct d H).
Qed.

(** X12: on a registered pin, [servo_detach] followed by [servo_attach]
    when the pin is attached, [servo_attach] followed by [servo_detach]
    when it is detached, both succeed and restore the array exactly; the
    hardware sees the slice switched and switched back. *)
Theorem detach_attach_round_trip (gpio : Z) (d : driver) (e : servo_info_t) :
  registry_inv d -> entry_of d gpio e ->
  let first := if is_attached e then servo_detach gpio else servo_attach gpio in
  let second := if is_attached e then servo_attach gpio else servo_detach gpio in
  fst (first d) = true /\
  fst (second (snd (first d))) = true /\
  servo_state (snd (second (snd (first d)))) = servo_state d /\
  hw_log (snd (second (snd (first d)))) =
    hw_log d ++
    [Call_pwm_set_enabled (slice_num e) (negb (is_attached e));
     Call_pwm_set_enabled (slice_num e) (is_attached e)].
Proof.
  intros H He. cbv zeta.
  pose proof (registered_flag d gpio H (entry_of_registered _ _ _ He)) as Hf.
  pose proof He as (Hin & Ie & Ge).
  destruct (is_attached e) eqn:Ea; simpl negb.
  - destruct (servo_detach_effect gpio d e H He Ea) as (i & Hi & Hat & E1).
    rewrite E1. cbn [fst snd].
    set (d1 := with_registry d _ _).
    assert (H1 : registry_inv d1) by (apply registry_inv_toggle; auto).
    assert (He1 : entry_of d1 gpio (set_is_attached e false))
      by (apply (entry_of_store d i e); auto).
    destruct (servo_attach_effect gpio d1 _ H1 He1 eq_refl)
      as (j & Hj & Hatj & E2).
    assert (Eij : j = i).
    { rewrite <- (scan_servo_index_at d1 gpio j H1 Hj);
        [|rewrite Hatj; auto|rewrite Hatj; auto].
      apply scan_servo_index_at; auto; unfold d1;
        cbn [servo_state with_registry]; rewrite entry_at_store; auto;
        rewrite (inv_length d H); unfold MAX_SERVOS in *; lia. }
    subst j. rewrite E2. cbn [fst snd servo_state hw_log with_registry].
    split; [reflexivity|]. split; [reflexivity|]. split.
    + unfold d1. cbn [servo_state with_registry]. unfold store_at.
      rewrite store_nat_twice.
      replace (set_is_attached (set_is_attached e false) true) with e
        by (rewrite <- Ea at 1; destruct e; simpl in *; subst; reflexivity).
      rewrite <- Hat. unfold entry_at. apply store_nat_id.
    + unfold d1. cbn [hw_log with_registry]. rewrite <- app_assoc. reflexivity.
  - destruct (servo_attach_effect gpio d e H He Ea) as (i & Hi & Hat & E1).
    rewrite E1. cbn [fst snd].
    set (d1 := with_registry d _ _).
    assert (H1 : registry_inv d1) by (apply registry_inv_toggle; auto).
    assert (He1 : entry_of d1 gpio (set_is_attached e true))
      by (apply (entry_of_store d i e); auto).
    destruct (servo_detach_effect gpio d1 _ H1 He1 eq_refl)
      as (j & Hj & Hatj & E2).
    assert (Eij : j = i).
    { rewrite <- (scan_servo_index_at d1 gpio j H1 Hj);
        [|rewrite Hatj; auto|rewrite Hatj; auto].
      apply scan_servo_index_at; auto; unfold d1;
        cbn [servo_state with_registry]; rewrite entry_at_store; auto;
        rewrite (inv_length d H); unfold MAX_SERVOS in *; lia. }
    subst j. rewrite E2. cbn [fst snd servo_state hw_log with_registry].
    split; [reflexivity|]. split; [reflexivity|]. split.
    + unfold d1. cbn [servo_state with_registry]. unfold store_at.
      rewrite store_nat_twice.
      replace (set_is_attached (set_is_attached e true) false) with e
        by (rewrite <- Ea at 1; destruct e; simpl in *; subst; reflexivity).
      rewrite <- Hat. unfold entry_at. apply store_nat_id.
    + unfold d1. cbn [hw_log with_registry]. rewrite <- app_assoc. reflexivity.
Qed.

Lemma detach_attach_round_trip_witness :
  servo_state (snd (servo_detach 2 (snd (servo_attach 2 detached_2))))
  = servo_state detached_2 /\
  hw_log (snd (servo_detach 2 (snd (servo_attach 2 detached_2)))) =
    hw_log detached_2 ++
    [Call_pwm_set_enabled 1 true; Call_pwm_set_enabled 1 false].
Proof.
  destruct (detach_attach_round_trip 2 detached_2 (entry_2 false)
              detached_2_inv detached_2_entry) as (_ & _ & S & L).
  split; [exact S | exact L].
Defined.

Lemma servo_set_state p gpio angle d e :
  registry_inv d -> entry_of d gpio e ->
  exists i : Z,
    0 <= i < MAX_SERVOS /\ entry_at (servo_state d) i = e /\
    servo_set p gpio angle d =
    (true,
     with_registry d
       (store_at (servo_state d) i (set_is_attached e true))
       ((if is_attached e then []
         else [Call_pwm_set_enabled (slice_num e) true]) ++
        [Call_pwm_set_gpio_level gpio
           (angle_to_level p angle (Some (set_is_attached e true)))])).
Proof.
  intros H He.
  destruct (entry_of_scan d gpio e H He) as (Hlive & Hn & Hr & Hat).
  pose proof He as (Hin & Ie & Ge).
  rewrite Hlive in *.
  exists (scan_servo_index (servo_state d) 0 gpio).
  split; [exact Hr|]. split; [exact Hat|].
  rewrite servo_set_eq. cbv zeta. rewrite Hlive.
  apply Z.eqb_neq in Hn. rewrite Hn, Hat.
  assert (Hlen : 0 <= scan_servo_index (servo_state d) 0 gpio
                 < Z.of_nat (length (servo_state d))).
  { rewrite (inv_length d H). unfold MAX_SERVOS in *. lia. }
  destruct (is_attached e) eqn:Ea.
  - rewrite Hat. rewrite <- Ea at 3 4. rewrite set_is_attached_same.
    rewrite Ge. do 2 f_equal.
    rewrite <- Hat at 1. unfold store_at, entry_at. rewrite store_nat_id.
    reflexivity.
  - rewrite entry_at_store by auto.
    cbn [gpio_num set_is_attached]. rewrite Ge. reflexivity.
Qed.

(** X10: [servo_set] on a registered pin changes at most the attached
    flag of the pin's own entry and leaves every other entry as it was; a
    second [servo_set] right after it succeeds, leaves the array unchanged
    and performs the level write only, with no enable. *)
Theorem servo_set_frame (p : platform) (gpio a1 a2 : Z) (d : driver)
    (e : servo_info_t) :
  registry_inv d -> entry_of d gpio e ->
  (exists i : Z,
     0 <= i < MAX_SERVOS /\ entry_at (servo_state d) i = e /\
     entry_at (servo_state (snd (servo_set p gpio a1 d))) i =
       set_is_attached e true /\
     same_elsewhere (servo_state d)
       (servo_state (snd (servo_set p gpio a1 d))) i) /\
  fst (servo_set p gpio a2 (snd (servo_set p gpio a1 d))) = true /\
  servo_state (snd (servo_set p gpio a2 (snd (servo_set p gpio a1 d)))) =
    servo_state (snd (servo_set p gpio a1 d)) /\
  hw_log (snd (servo_set p gpio a2 (snd (servo_set p gpio a1 d)))) =
    hw_log (snd (servo_set p gpio a1 d)) ++
    [Call_pwm_set_gpio_level gpio
       (angle_to_level p a2 (Some (set_is_attached e true)))].
Proof.
  intros H He.
  pose proof (registered_flag d gpio H (entry_of_registered _ _ _ He)) as Hf.
  pose proof He as (Hin & Ie & Ge).
  destruct (servo_set_state p gpio a1 d e H He) as (i & Hi & Hat & E1).
  assert (Hlen : 0 <= i < Z.of_nat (length (servo_state d))).
  { rewrite (inv_length d H). unfold MAX_SERVOS in *. lia. }
  rewrite E1. cbn [fst snd].
  set (d1 := with_registry d _ _).
  assert (H1 : registry_inv d1) by (apply registry_inv_toggle; auto).
  assert (He1 : entry_of d1 gpio (set_is_attached e true))
    by (apply (entry_of_store d i e); auto).
  split.
  - exists i. split; [exact Hi|]. split; [exact Hat|].
    unfold d1. cbn [servo_state with_registry].
    split; [apply entry_at_store; auto|].
    apply store_at_same_elsewhere. lia.
  - destruct (servo_set_state p gpio a2 d1 _ H1 He1) as (j & Hj & Hatj & E2).
    assert (Eij : j = i).
    { rewrite <- (scan_servo_index_at d1 gpio j H1 Hj);
        [|rewrite Hatj; auto|rewrite Hatj; auto].
      apply scan_servo_index_at; auto; unfold d1;
        cbn [servo_state with_registry]; rewrite entry_at_store; auto. }
    subst j. rewrite E2. cbn [fst snd servo_state hw_log with_registry].
    split; [reflexivity|]. split.
    + unfold d1. cbn [servo_state with_registry]. unfold store_at.
      rewrite store_nat_twice. reflexivity.
    + reflexivity.
Qed.

Lemma servo_set_frame_witness :
  hw_log (snd (servo_set board 2 90 (snd (servo_set board 2 45 detached_2)))) =
    hw_log (snd (servo_set board 2 45 detached_2)) ++
    [Call_pwm_set_gpio_level 2 4915].
Proof.
  destruct (servo_set_frame board 2 45 90 detached_2 (entry_2 false)
              detached_2_inv detached_2_entry) as (_ & _ & _ & L).
  exact L.
Defined.

(** X13: a public operation that returns false has changed no entry and
    performed no hardware call. *)
Theorem failed_call_changes_nothing (p : platform) (c : api_call) (d : driver) :
  registry_inv d ->
  fst (api p c d) = false ->
  servo_state (snd (api p c d)) = servo_state d /\
  hw_log (snd (api p c d)) = hw_log d.
Proof.
  intros H. pose proof (live_servo_state d H) as E1.
  pose proof (live_hw_log d) as E2.
  destruct c; simpl.
  - apply servo_init_failure_frame; auto.
  - apply servo_init_failure_frame; auto.
  - rewrite servo_set_eq. cbv zeta.
    destruct (_ =? -1); simpl; auto. discriminate.
  - rewrite servo_detach_eq. cbv zeta.
    destruct (_ =? -1); simpl; auto.
    destruct (is_attached _); simpl; auto; discriminate.
  - rewrite servo_attach_eq. cbv zeta.
    destruct (_ =? -1); simpl; auto.
    destruct (is_attached _); simpl; auto; discriminate.
Qed.

Lemma failed_call_changes_nothing_witness :
  servo_state (snd (api board (Servo_set 9 90) detached_2))
  = servo_state detached_2 /\
  hw_log (snd (api board (Servo_set 9 90) detached_2)) = hw_log detached_2.
Proof.
  apply (failed_call_changes_nothing board (Servo_set 9 90) detached_2
           detached_2_inv).
  vm_compute. reflexivity.
Defined.

(** ** Two pins on one slice *)

(** X14: with two registered, attached pins on one slice, after
    [servo_detach] of the first the entry of the second still says
    attached, so [servo_set] on the second writes the level only: the
    slice, disabled by the detach, is not enabled again. *)
Theorem detach_silences_sibling (p : platform) (g1 g2 angle : Z) (d : driver)
    (e1 e2 : servo_info_t) :
  registry_inv d ->
  entry_of d g1 e1 -> entry_of d g2 e2 -> g1 <> g2 ->
  slice_num e1 = slice_num e2 ->
  is_attached e1 = true -> is_attached e2 = true ->
  let d1 := snd (servo_detach g1 d) in
  let d2 := snd (servo_set p g2 angle d1) in
  entry_of d1 g2 e2 /\
  fst (servo_set p g2 angle d1) = true /\
  entry_of d2 g2 e2 /\
  hw_log d2 =
    hw_log d ++
    [Call_pwm_set_enabled (slice_num e2) false;
     Call_pwm_set_gpio_level g2 (angle_to_level p angle (Some e2))].
Proof.
  intros H He1 He2 Hne Hs A1 A2. cbv zeta.
  pose proof (registered_flag d g1 H (entry_of_registered _ _ _ He1)) as Hf.
  destruct (servo_detach_effect g1 d e1 H He1 A1) as (i & Hi & Hat & E1).
  destruct (entry_of_scan d g2 e2 H He2) as (_ & _ & Hj & Hatj).
  set (j := scan_servo_index (servo_state (live d)) 0 g2) in *.
  pose proof He1 as (_ & _ & G1). pose proof He2 as (_ & I2 & G2).
  assert (Hij : j <> i) by (intros C; subst j; rewrite C in Hatj; congruence).
  rewrite E1. cbn [snd].
  set (d1 := with_registry d _ _).
  assert (H1 : registry_inv d1) by (apply registry_inv_toggle; auto).
  assert (He21 : entry_of d1 g2 e2).
  { unfold entry_of. repeat split; auto.
    rewrite <- Hatj.
    replace (entry_at (servo_state d) j) with (entry_at (servo_state d1) j).
    - apply entry_at_In. unfold d1. cbn [servo_state with_registry].
      rewrite store_at_length, (inv_length d H). unfold MAX_SERVOS in *. lia.
    - unfold d1. cbn [servo_state with_registry].
      apply store_at_same_elsewhere; lia. }
  split; [exact He21|].
  destruct (servo_set_effect p g2 angle d1 e2 H1 He21) as (R & He22 & L).
  rewrite A2 in L. rewrite <- A2 in He22 at 1. rewrite <- A2 in L at 1.
  rewrite set_is_attached_same in He22, L.
  split; [exact R|]. split; [exact He22|].
  rewrite L. unfold d1. cbn [hw_log with_registry].
  rewrite <- app_assoc, Hs. reflexivity.
Qed.

(** ** What every reachable state satisfies *)

Lemma calculate_pwm_params_wrap_range p freq_hz w i f :
  calculate_pwm_params p freq_hz = Some (w, i, f) -> 1 <= w <= 65535.
Proof.
  rewrite calculate_pwm_params_eq.
  destruct (divider_parts p freq_hz) as [[i' f']|]; [|discriminate].
  cbv zeta.
  pose proof (float_to_u16_range p
                (wrap_float (u32 (clock_get_hz_clk_sys p)) freq_hz i' f')) as R.
  destruct (Z.eqb_spec
              (float_to_u16 p
                 (wrap_float (u32 (clock_get_hz_clk_sys p)) freq_hz i' f')) 0);
    [discriminate|].
  intros X. injection X as <- _ _. lia.
Qed.

Lemma calculate_pwm_params_parts_range p freq_hz w i f :
  calculate_pwm_params p freq_hz = Some (w, i, f) ->
  1 <= i <= 255 /\ 0 <= f <= 15.
Proof.
  rewrite calculate_pwm_params_eq.
  destruct (divider_parts p freq_hz) as [[i' f']|] eqn:D; [|discriminate].
  cbv zeta. destruct (_ =? 0); [discriminate|].
  intros X. injection X as _ <- <-.
  destruct (divider_parts_some p freq_hz _ _ D) as (A & B & _). auto.
Qed.

Lemma angle_to_level_range p angle e :
  is_initialized e = true -> 0 <= wrap_val e ->
  0 <= angle_to_level p angle (Some e) <= wrap_val e.
Proof.
  intros Hi Hw. rewrite angle_to_level_eq by auto.
  pose proof (float_to_u16_range p (level_float (Z.min angle 180) e)). lia.
Qed.

Lemma In_store_nat st n e x :
  In x (store_nat st n e) -> x = e \/ In x st.
Proof.
  revert n; induction st as [|y st IH]; intros [|n]; simpl; auto.
  - intros [->|H]; auto.
  - intros [->|H]; auto. destruct (IH n H); auto.
Qed.

Lemma entry_ok_attached p K e b :
  entry_ok p K e -> entry_ok p K (set_is_attached e b).
Proof. destruct e; unfold entry_ok; simpl; auto. Qed.

Lemma entries_ok_toggle p K d i b cs :
  entries_ok p K d ->
  entries_ok p K
    (with_registry d
       (store_at (servo_state d) i
          (set_is_attached (entry_at (servo_state d) i) b)) cs).
Proof.
  intros H e Hin Hi. cbn [servo_state with_registry] in Hin.
  apply In_store_nat in Hin. destruct Hin as [->|Hin]; [|apply H; auto].
  apply entry_ok_attached.
  assert (Hi' : is_initialized (entry_at (servo_state d) i) = true)
    by (destruct (entry_at (servo_state d) i); exact Hi).
  apply H; auto. unfold entry_at in *.
  destruct (nth_in_or_default (Z.to_nat i) (servo_state d) servo_zero)
    as [X|X]; auto.
  rewrite X in Hi'. discriminate.
Qed.

Lemma driver_ok_live p K d : driver_ok p K d -> driver_ok p K (live d).
Proof.
  intros (H & He & Hl). split; [apply registry_inv_live; auto|].
  split.
  - intros e. rewrite (live_servo_state d H). apply He.
  - rewrite live_hw_log. exact Hl.
Qed.

Lemma scan_entry_ok p K d gpio :
  driver_ok p K d ->
  scan_servo_index (servo_state (live d)) 0 gpio <> -1 ->
  let e := entry_at (servo_state (live d))
             (scan_servo_index (servo_state (live d)) 0 gpio) in
  is_initialized e = true /\ gpio_num e = gpio /\ entry_ok p K e.
Proof.
  intros (H & He & Hl) Hn. cbv zeta.
  rewrite (live_servo_state d H) in *.
  destruct (scan_servo_index_entry _ gpio Hn) as (R & I & G).
  split; [exact I|]. split; [exact G|].
  apply He; auto. apply entry_at_In. exact R.
Qed.

(** The level of an entry is within the wrap value of the entry, whatever
    the clock is when [servo_set] runs: [angle_to_level] reads the stored
    wrap value, not the clock. *)
Lemma level_call_ok p q K e angle gpio :
  entry_ok p K e -> is_initialized e = true ->
  hw_call_ok p K
    (Call_pwm_set_gpio_level gpio (angle_to_level q angle (Some e))).
Proof.
  intros (_ & _ & _ & _ & _ & W & hz & i & f & Hk & C) Hi. simpl.
  exists hz, (wrap_val e), i, f. split; [exact Hk|]. split; [exact C|].
  apply angle_to_level_range; auto. lia.
Qed.

Lemma driver_ok_toggle p K d i b cs :
  driver_ok p K (live d) ->
  Forall (hw_call_ok p K) cs ->
  driver_ok p K
    (with_registry (live d)
       (store_at (servo_state (live d)) i
          (set_is_attached (entry_at (servo_state (live d)) i) b)) cs).
Proof.
  intros (H & He & Hl) Hcs. split; [|split].
  - apply registry_inv_toggle; auto. apply live_flag.
  - apply entries_ok_toggle; auto.
  - cbn [hw_log with_registry]. apply Forall_app. auto.
Qed.

Lemma servo_init_driver_ok p K hz gpio a b d :
  is_u16 gpio -> is_u16 a -> is_u16 b -> K hz ->
  driver_ok p K d ->
  driver_ok p K (snd (servo_init (with_clock p hz) gpio a b d)).
Proof.
  intros Tg Ta Tb Hk (H & He & Hl).
  set (q := with_clock p hz).
  destruct (fst (servo_init q gpio a b d)) eqn:R.
  - destruct (calculate_pwm_params q SERVO_PWM_FREQ_HZ)
      as [[[w i] f]|] eqn:C.
    + destruct (servo_init_success_eq q gpio a b d w i f H R C)
        as (Ri & Ii & NR & Ha & Hab & E).
      cbv zeta in E.
      pose proof (servo_init_inv q gpio a b d H) as H'.
      rewrite E in *. cbn [snd] in *.
      pose proof (calculate_pwm_params_wrap_range _ _ _ _ _ C) as Wr.
      pose proof (calculate_pwm_params_parts_range _ _ _ _ _ C) as Pr.
      set (servo := {| gpio_num := gpio |}) in *.
      assert (Ok : entry_ok p K servo).
      { unfold entry_ok, servo, is_u16 in *. simpl.
        repeat split; try lia; try reflexivity.
        exists hz, i, f. split; [exact Hk | exact C]. }
      split; [exact H'|]. split.
      * intros e Hin Hi. cbn [servo_state with_registry] in Hin.
        apply In_store_nat in Hin. destruct Hin as [->|Hin]; auto.
      * cbn [hw_log with_registry]. rewrite live_hw_log.
        apply Forall_app. split; auto.
        constructor; [exact Tg|].
        constructor.
        { simpl. split; [reflexivity|]. split; [|tauto].
          exists hz. split; [exact Hk | exact C]. }
        constructor; [|constructor].
        apply level_call_ok; [exact Ok | reflexivity].
    + exfalso. revert R. rewrite servo_init_eq. cbv zeta.
      destruct (_ =? -1); [simpl; discriminate|].
      destruct (negb _); [simpl; discriminate|].
      destruct (_ || _); [simpl; discriminate|].
      rewrite C. simpl. discriminate.
  - destruct (servo_init_failure_frame q gpio a b d H R) as [E1 E2].
    split; [apply servo_init_inv; auto|].
    split.
    + intros e. rewrite E1. apply He.
    + rewrite E2. exact Hl.
Qed.

Lemma api_driver_ok p K hz c d :
  api_call_typed c -> (init_pin c <> None -> K hz) ->
  driver_ok p K d -> driver_ok p K (snd (api (with_clock p hz) c d)).
Proof.
  intros Ht Hk Hd. pose proof (driver_ok_live p K d Hd) as HL.
  destruct c; simpl in Ht, Hk |- *.
  - destruct Ht as (A & B & C).
    apply servo_init_driver_ok; auto. apply Hk. discriminate.
  - unfold servo_init_default.
    apply servo_init_driver_ok; auto;
      try (unfold is_u16, DEFAULT_SERVO_MIN_PULSE_US,
             DEFAULT_SERVO_MAX_PULSE_US; lia).
    apply Hk. discriminate.
  - rewrite servo_set_eq. cbv zeta.
    destruct (Z.eqb_spec (scan_servo_index (servo_state (live d)) 0 gpio) (-1))
      as [E|E]; [exact HL|].
    destruct (scan_entry_ok p K d gpio Hd E) as (I & G & Ok).
    cbv zeta in I, G, Ok.
    cbn [snd].
    destruct (is_attached _) eqn:Ea.
    + destruct HL as (H & He & Hl). split; [|split].
      * apply registry_inv_build; [apply live_flag|apply (inv_length _ H)|
                                   apply (inv_distinct _ H)].
      * exact He.
      * cbn [hw_log with_registry]. apply Forall_app. split; auto.
        constructor; [|constructor]. apply level_call_ok; auto.
    + apply driver_ok_toggle; auto.
      constructor; [simpl; trivial|].
      constructor; [|constructor].
      rewrite entry_at_store.
      * apply level_call_ok; [apply entry_ok_attached; auto|].
        destruct (entry_at _ _); exact I.
      * destruct HL as (H & _). destruct Hd as (H0 & _).
        rewrite (live_servo_state d H0) in *.
        destruct (scan_servo_index_entry _ gpio E) as (R & _). exact R.
  - rewrite servo_detach_eq. cbv zeta.
    destruct (_ =? -1); [exact HL|].
    destruct (is_attached _); [|exact HL]. cbn [snd].
    apply driver_ok_toggle; auto. repeat constructor.
  - rewrite servo_attach_eq. cbv zeta.
    destruct (_ =? -1); [exact HL|].
    destruct (is_attached _); [exact HL|]. cbn [snd].
    apply driver_ok_toggle; auto. repeat constructor.
Qed.

Lemma run_clocked_cons p hz c cs d :
  run_clocked p ((hz, c) :: cs) d =
  (fst (api (with_clock p hz) c d)
   :: fst (run_clocked p cs (snd (api (with_clock p hz) c d))),
   snd (run_clocked p cs (snd (api (with_clock p hz) c d)))).
Proof.
  simpl. unfold bind, ret.
  destruct (api (with_clock p hz) c d) as [r d1]. simpl.
  destruct (run_clocked p cs d1) as [rs d2]. reflexivity.
Qed.

Lemma with_clock_same p : with_clock p (clock_get_hz_clk_sys p) = p.
Proof. destruct p; reflexivity. Qed.

(** [run] is [run_clocked] at the one clock of the platform. *)
Lemma run_clocked_constant p cs :
  forall d,
    run_clocked p (map (pair (clock_get_hz_clk_sys p)) cs) d = run p cs d.
Proof.
  induction cs as [|c cs IH]; intros d; [reflexivity|].
  cbn [map]. rewrite run_clocked_cons, run_cons, with_clock_same, !IH.
  reflexivity.
Qed.

Lemma run_driver_ok p K cs :
  Forall (fun x => api_call_typed (snd x)) cs ->
  (forall hz, In hz (init_clocks cs) -> K hz) ->
  forall d, driver_ok p K d -> driver_ok p K (snd (run_clocked p cs d)).
Proof.
  induction 1 as [|[hz c] cs Hc Hcs IH]; intros Hk d Hd.
  - exact Hd.
  - rewrite run_clocked_cons. cbn [snd]. apply IH.
    + intros hz' Hin. apply Hk. unfold init_clocks. cbn [flat_map].
      apply in_or_app. right. exact Hin.
    + apply api_driver_ok; auto.
      intros Hn. apply Hk. unfold init_clocks. cbn [flat_map fst snd].
      apply in_or_app. left.
      destruct (init_pin c); [left; reflexivity | congruence].
Qed.

Lemma driver_ok_start p K : driver_ok p K driver_start.
Proof.
  split; [exact registry_inv_start|]. split.
  - intros e Hin Hi. apply repeat_spec in Hin. subst e. discriminate Hi.
  - constructor.
Qed.

(** X16: after any sequence of calls with arguments of their C types,
    from the start state, each call at the system clock it finds, every
    initialized entry has a 16-bit pin, the slice and channel the platform
    gives for that pin, pulse bounds with
    [0 < min_pulse_us < max_pulse_us <= 65535] and a wrap value in
    [[1, 65535]], the one [calculate_pwm_params] returns for the servo
    frequency at the clock of one of the init calls.  When all init calls
    of the sequence found the same clock, whatever the clock was at the
    other calls, any two initialized entries have the same wrap value. *)
Theorem entries_well_formed (p : platform) (cs : list (Z * api_call)) :
  Forall (fun x => api_call_typed (snd x)) cs ->
  (forall e : servo_info_t,
     In e (servo_state (snd (run_clocked p cs driver_start))) ->
     is_initialized e = true ->
     entry_ok p (fun hz => In hz (init_clocks cs)) e) /\
  (forall sys_clk_hz : Z,
     (forall hz, In hz (init_clocks cs) -> hz = sys_clk_hz) ->
     forall e e' : servo_info_t,
       In e (servo_state (snd (run_clocked p cs driver_start))) ->
       In e' (servo_state (snd (run_clocked p cs driver_start))) ->
       is_initialized e = true -> is_initialized e' = true ->
       wrap_val e = wrap_val e').
Proof.
  intros Ht.
  destruct (run_driver_ok p (fun hz => In hz (init_clocks cs)) cs Ht
              ltac:(auto) driver_start (driver_ok_start p _))
    as (_ & He & _).
  split; [exact He|].
  intros hz0 Hsame e e' Hin Hin' Hi Hi'.
  destruct (He e Hin Hi) as (_ & _ & _ & _ & _ & _ & hz & i & f & K & C).
  destruct (He e' Hin' Hi')
    as (_ & _ & _ & _ & _ & _ & hz' & i' & f' & K' & C').
  rewrite (Hsame hz K) in C. rewrite (Hsame hz' K') in C'.
  congruence.
Qed.

(** X17: after any sequence of calls with arguments of their C types,
    from the start state, each call at the system clock it finds, every
    [pwm_init] in the hardware log has started its slice with the
    parameters [calculate_pwm_params] returns for the servo frequency at
    the clock of one of the init calls (wrap value in [[1, 65535]], divider
    parts in [[1, 255]] and [[0, 15]]), and every level written lies
    within a wrap value computed at such a clock.  When all init calls of
    the sequence found the same clock, every level written lies within the
    wrap value of every [pwm_init] of the log, hence within the period of
    its slice. *)
Theorem hardware_calls_in_range (p : platform) (cs : list (Z * api_call)) :
  Forall (fun x => api_call_typed (snd x)) cs ->
  Forall (hw_call_ok p (fun hz => In hz (init_clocks cs)))
    (hw_log (snd (run_clocked p cs driver_start))) /\
  (forall sys_clk_hz : Z,
     (forall hz, In hz (init_clocks cs) -> hz = sys_clk_hz) ->
     forall (slice wrap clk_div_int clk_div_frac : Z) (start : bool)
            (gpio level : Z),
       In (Call_pwm_init slice wrap clk_div_int clk_div_frac start)
          (hw_log (snd (run_clocked p cs driver_start))) ->
       In (Call_pwm_set_gpio_level gpio level)
          (hw_log (snd (run_clocked p cs driver_start))) ->
       0 <= level <= wrap).
Proof.
  intros Ht.
  destruct (run_driver_ok p (fun hz => In hz (init_clocks cs)) cs Ht
              ltac:(auto) driver_start (driver_ok_start p _))
    as (_ & _ & Hl).
  split; [exact Hl|].
  intros hz0 Hsame slice wrap i f start gpio level Hinit Hlevel.
  rewrite Forall_forall in Hl.
  pose proof (Hl _ Hinit) as (_ & (hz & K & C) & _).
  pose proof (Hl _ Hlevel) as (hz' & wrap' & i' & f' & K' & C' & B).
  rewrite (Hsame hz K) in C. rewrite (Hsame hz' K') in C'.
  assert (wrap' = wrap) by congruence. lia.
Qed.

(** The hypothesis on the clocks is needed: with the system clock changed
    from 128 MHz to 125 MHz between the two inits of slice 1, the entries
    hold the wrap values 65535 and 36, the slice runs with the wrap value
    36 of the second [pwm_init], and [servo_set (2, 90)] writes the level
    4915 computed from the 65535 of its entry. *)
Lemma clock_change_between_inits :
  map wrap_val
    (filter is_initialized
       (servo_state (snd (run_clocked board drifting_calls driver_start))))
  = [65535; 36] /\
  hw_log (snd (run_clocked board drifting_calls driver_start)) =
  [Call_gpio_set_function_pwm 2; Call_pwm_init 1 65535 39 1 true;
   Call_pwm_set_gpio_level 2 3276;
   Call_gpio_set_function_pwm 3; Call_pwm_init 1 36 38 2 true;
   Call_pwm_set_gpio_level 3 1;
   Call_pwm_set_gpio_level 2 4915].
Proof. split; vm_compute; reflexivity. Qed.

Lemma registered_after_init p gpio a b d g :
  registry_inv d ->
  registered (snd (servo_init p gpio a b d)) g <->
  registered d g \/ (fst (servo_init p gpio a b d) = true /\ gpio = g).
Proof.
  intros H. destruct (fst (servo_init p gpio a b d)) eqn:R.
  - destruct (calculate_pwm_params p SERVO_PWM_FREQ_HZ) as [[[w i] f]|] eqn:C.
    + destruct (servo_init_success_eq p gpio a b d w i f H R C)
        as (Ri & Ii & NR & _ & _ & E).
      cbv zeta in E. rewrite E. cbn [snd]. unfold registered.
      cbn [servo_state with_registry]. unfold store_at.
      rewrite store_nat_pins_fresh; auto.
      * simpl. fold (initialized_pins (servo_state d)). unfold registered.
        intuition (subst; auto).
      * rewrite (inv_length d H). unfold MAX_SERVOS in *. lia.
    + exfalso. revert R. rewrite servo_init_eq. cbv zeta.
      destruct (_ =? -1); [simpl; discriminate|].
      destruct (negb _); [simpl; discriminate|].
      destruct (_ || _); [simpl; discriminate|].
      rewrite C. simpl. discriminate.
  - destruct (servo_init_failure_frame p gpio a b d H R) as [E1 _].
    unfold registered. rewrite E1. split; auto.
    intros [X|[X _]]; auto. discriminate.
Qed.

Lemma count_after_init p gpio a b d :
  registry_inv d ->
  length (initialized_pins (servo_state (snd (servo_init p gpio a b d)))) =
  (length (initialized_pins (servo_state d)) +
   (if fst (servo_init p gpio a b d) then 1 else 0))%nat.
Proof.
  intros H. destruct (fst (servo_init p gpio a b d)) eqn:R.
  - destruct (calculate_pwm_params p SERVO_PWM_FREQ_HZ) as [[[w i] f]|] eqn:C.
    + destruct (servo_init_success_eq p gpio a b d w i f H R C)
        as (Ri & Ii & NR & _ & _ & E).
      cbv zeta in E. rewrite E. cbn [snd servo_state with_registry].
      rewrite !pins_length. unfold store_at.
      rewrite store_nat_filter_length; auto; try lia.
      rewrite (inv_length d H). unfold MAX_SERVOS in *. lia.
    + exfalso. revert R. rewrite servo_init_eq. cbv zeta.
      destruct (_ =? -1); [simpl; discriminate|].
      destruct (negb _); [simpl; discriminate|].
      destruct (_ || _); [simpl; discriminate|].
      rewrite C. simpl. discriminate.
  - destruct (servo_init_failure_frame p gpio a b d H R) as [E1 _].
    rewrite E1. lia.
Qed.

Lemma pins_after_other p c d :
  registry_inv d -> init_pin c = None ->
  initialized_pins (servo_state (snd (api p c d))) =
  initialized_pins (servo_state d).
Proof.
  intros H Hc. pose proof (live_servo_state d H) as EL.
  destruct c; simpl in Hc; try discriminate; simpl.
  - rewrite servo_set_eq. cbv zeta.
    destruct (_ =? -1); cbn [snd]; [congruence|].
    destruct (is_attached _); cbn [servo_state with_registry]; [congruence|].
    rewrite store_attached_pins. congruence.
  - rewrite servo_detach_eq. cbv zeta.
    destruct (_ =? -1); cbn [snd]; [congruence|].
    destruct (is_attached _); cbn [snd servo_state with_registry];
      [|congruence].
    rewrite store_attached_pins. congruence.
  - rewrite servo_attach_eq. cbv zeta.
    destruct (_ =? -1); cbn [snd]; [congruence|].
    destruct (is_attached _); cbn [snd servo_state with_registry];
      [congruence|].
    rewrite store_attached_pins. congruence.
Qed.

(** X18: the pins registered after a public operation are those
    registered before it and, when the operation is a successful
    [servo_init] or [servo_init_default], its pin; the number of
    initialized entries grows by one exactly then.  No operation removes a
    servo. *)
Theorem registered_only_grows (p : platform) (c : api_call) (d : driver) :
  registry_inv d ->
  (forall g : Z,
     registered (snd (api p c d)) g <->
     registered d g \/ (fst (api p c d) = true /\ init_pin c = Some g)) /\
  length (initialized_pins (servo_state (snd (api p c d)))) =
  (length (initialized_pins (servo_state d)) +
   match init_pin c with
   | Some _ => if fst (api p c d) then 1 else 0
   | None => 0
   end)%nat.
Proof.
  intros H. destruct (init_pin c) as [g0|] eqn:Hc.
  - assert (E : api p c d = servo_init p g0
                  (match c with Servo_init _ a _ => a | _ => 1000 end)
                  (match c with Servo_init _ _ b => b | _ => 2000 end) d).
    { destruct c; simpl in Hc; try discriminate; injection Hc as <-;
        reflexivity. }
    rewrite E. split.
    + intros g. rewrite registered_after_init by auto.
      split; intros [X|[X Y]]; auto; right; split; auto; congruence.
    + apply count_after_init; auto.
  - split.
    + intros g. unfold registered. rewrite pins_after_other by auto.
      split; auto. intros [X|[_ X]]; auto. discriminate.
    + rewrite pins_after_other by auto. lia.
Qed.

Lemma registered_only_grows_witness :
  (registered (snd (api board (Servo_init 5 544 2400) detached_2)) 5 <->
   registered detached_2 5 \/
   (fst (api board (Servo_init 5 544 2400) detached_2) = true /\
    init_pin (Servo_init 5 544 2400) = Some 5)) /\
  registered (snd (api board (Servo_init 5 544 2400) detached_2)) 5.
Proof.
  pose proof (proj1 (registered_only_grows board (Servo_init 5 544 2400)
                       detached_2 detached_2_inv) 5) as W.
  split; [exact W|]. apply W. right. split; vm_compute; reflexivity.
Defined.

(** ** Order of allocation *)

Lemma all_free_filled st :
  forallb (fun x => negb (is_initialized x)) st = true ->
  filled_prefix st = true /\ initialized_pins st = [].
Proof.
  induction st as [|e st IH]; simpl; auto.
  intros H. apply andb_true_iff in H. destruct H as [H1 H2].
  unfold initialized_pins. simpl.
  destruct (is_initialized e); [discriminate|]. split; auto.
  apply IH; auto.
Qed.

Lemma store_first_free st e :
  filled_prefix st = true -> is_initialized e = true ->
  forall i, 0 <= i -> scan_free_index st i <> -1 ->
  filled_prefix (store_nat st (Z.to_nat (scan_free_index st i - i)) e) = true /\
  initialized_pins (store_nat st (Z.to_nat (scan_free_index st i - i)) e) =
  initialized_pins st ++ [gpio_num e].
Proof.
  intros Hf He. induction st as [|x st IH]; intros i Hi Hn.
  - simpl in Hn. congruence.
  - simpl in Hf, Hn |- *. destruct (is_initialized x) eqn:Ex; simpl in Hn |- *.
    + destruct (scan_free_index_range st (i + 1) ltac:(lia)) as [R|R];
        [congruence|].
      replace (Z.to_nat (scan_free_index st (i + 1) - i))
        with (S (Z.to_nat (scan_free_index st (i + 1) - (i + 1)))) by lia.
      destruct (IH Hf (i + 1) ltac:(lia) Hn) as [A B].
      simpl. rewrite Ex. split; auto.
      unfold initialized_pins in *. simpl. rewrite Ex. simpl. rewrite B.
      reflexivity.
    + replace (i - i) with 0 by lia. simpl. rewrite He.
      destruct (all_free_filled st Hf) as [A B].
      split; auto. unfold initialized_pins in *. simpl. rewrite He, Ex.
      simpl. rewrite B. reflexivity.
Qed.

Lemma filled_prefix_same_flags st n e :
  is_initialized e = is_initialized (nth n st servo_zero) ->
  filled_prefix (store_nat st n e) = filled_prefix st.
Proof.
  intros He.
  assert (G : forall st n, 
             is_initialized e = is_initialized (nth n st servo_zero) ->
             forallb (fun x => negb (is_initialized x)) (store_nat st n e) =
             forallb (fun x => negb (is_initialized x)) st).
  { clear. induction st as [|x st IH]; intros [|n] He; simpl in *; auto.
    - rewrite He. reflexivity.
    - rewrite IH; auto. }
  revert n He. induction st as [|x st IH]; intros [|n] He; simpl in *; auto.
  - rewrite He. reflexivity.
  - destruct (is_initialized x); auto.
Qed.

Lemma filled_prefix_closed st :
  filled_prefix st = true ->
  forall i j, (i <= j)%nat ->
  is_initialized (nth j st servo_zero) = true ->
  is_initialized (nth i st servo_zero) = true.
Proof.
  induction st as [|x st IH]; intros Hf i j Hij Hj.
  - destruct j; discriminate Hj.
  - simpl in Hf. destruct i as [|i]; destruct j as [|j]; simpl in *; auto;
      try lia.
    + destruct (is_initialized x) eqn:Ex; auto.
      exfalso.
      assert (In (nth j st servo_zero) st).
      { destruct (nth_in_or_default j st servo_zero) as [X|X]; auto.
        rewrite X in Hj. discriminate. }
      rewrite forallb_forall in Hf. specialize (Hf _ H).
      rewrite Hj in Hf. discriminate.
    + destruct (is_initialized x) eqn:Ex.
      * apply (IH Hf i j); auto. lia.
      * exfalso.
        assert (In (nth j st servo_zero) st).
        { destruct (nth_in_or_default j st servo_zero) as [X|X]; auto.
          rewrite X in Hj. discriminate. }
        rewrite forallb_forall in Hf. specialize (Hf _ H).
        rewrite Hj in Hf. discriminate.
Qed.

Lemma pwm_pins_app l1 l2 : pwm_pins (l1 ++ l2) = pwm_pins l1 ++ pwm_pins l2.
Proof. unfold pwm_pins. apply flat_map_app. Qed.

Lemma pwm_init_count_app l1 l2 :
  pwm_init_count (l1 ++ l2) = (pwm_init_count l1 + pwm_init_count l2)%nat.
Proof. unfold pwm_init_count. rewrite filter_app, length_app. reflexivity. Qed.

Lemma allocation_inv_live d : allocation_inv d -> allocation_inv (live d).
Proof.
  intros (H & F & P & C). pose proof (live_servo_state d H) as E.
  split; [apply registry_inv_live; auto|].
  rewrite E, live_hw_log. auto.
Qed.

Lemma allocation_inv_toggle d i b c :
  allocation_inv (live d) ->
  pwm_pins [c] = [] -> pwm_init_count [c] = 0%nat ->
  allocation_inv
    (with_registry (live d)
       (store_at (servo_state (live d)) i
          (set_is_attached (entry_at (servo_state (live d)) i) b)) [c]).
Proof.
  intros (H & F & P & C) Hp Hc. split; [|split; [|split]].
  - apply registry_inv_toggle; auto. apply live_flag.
  - cbn [servo_state with_registry]. unfold store_at, entry_at.
    rewrite filled_prefix_same_flags; auto.
  - cbn [servo_state hw_log with_registry].
    rewrite pwm_pins_app, Hp, app_nil_r, store_attached_pins. exact P.
  - cbn [servo_state hw_log with_registry].
    rewrite pwm_init_count_app, Hc, store_attached_pins. lia.
Qed.

Lemma api_allocation_inv p c d :
  allocation_inv d -> allocation_inv (snd (api p c d)).
Proof.
  intros Hd. pose proof (allocation_inv_live d Hd) as HL.
  assert (Hinit : forall gpio a b,
            allocation_inv (snd (servo_init p gpio a b d))).
  { intros gpio a b. destruct Hd as (H & F & P & C).
    destruct (fst (servo_init p gpio a b d)) eqn:R.
    - destruct (calculate_pwm_params p SERVO_PWM_FREQ_HZ) as [[[w i] f]|] eqn:Cp.
      + destruct (servo_init_success_eq p gpio a b d w i f H R Cp)
          as (Ri & Ii & NR & _ & _ & E).
        cbv zeta in E.
        pose proof (servo_init_inv p gpio a b d H) as H'.
        rewrite E in *. cbn [snd] in *.
        set (servo := {| gpio_num := gpio |}) in *.
        assert (Hn : scan_free_index (servo_state d) 0 <> -1) by lia.
        destruct (store_first_free (servo_state d) servo F eq_refl 0
                    ltac:(lia) Hn) as [A B].
        rewrite Z.sub_0_r in A, B.
        split; [exact H'|].
        cbn [servo_state hw_log with_registry]. unfold store_at.
        rewrite live_hw_log, pwm_pins_app, pwm_init_count_app, A, B, P, C.
        rewrite length_app. simpl. auto.
      + exfalso. revert R. rewrite servo_init_eq. cbv zeta.
        destruct (_ =? -1); [simpl; discriminate|].
        destruct (negb _); [simpl; discriminate|].
        destruct (_ || _); [simpl; discriminate|].
        rewrite Cp. simpl. discriminate.
    - destruct (servo_init_failure_frame p gpio a b d H R) as [E1 E2].
      split; [apply servo_init_inv; auto|].
      rewrite E1, E2. auto. }
  destruct c; simpl.
  - apply Hinit.
  - apply Hinit.
  - rewrite servo_set_eq. cbv zeta.
    destruct (_ =? -1); [exact HL|]. cbn [snd].
    destruct (is_attached _) eqn:Ea.
    + destruct HL as (H & F & P & C). split; [|split; [|split]]; auto.
      * apply registry_inv_build; [apply live_flag|apply (inv_length _ H)|
                                   apply (inv_distinct _ H)].
      * cbn [servo_state hw_log with_registry].
        rewrite pwm_pins_app. simpl. rewrite app_nil_r. exact P.
      * cbn [servo_state hw_log with_registry].
        rewrite pwm_init_count_app. simpl. rewrite C.
        unfold pwm_init_count. simpl. lia.
    + destruct HL as (H & F & P & C). split; [|split; [|split]].
      * apply registry_inv_toggle; auto. apply live_flag.
      * cbn [servo_state with_registry]. unfold store_at, entry_at.
        rewrite filled_prefix_same_flags; auto.
      * cbn [servo_state hw_log with_registry].
        rewrite pwm_pins_app, store_attached_pins. simpl.
        rewrite app_nil_r. exact P.
      * cbn [servo_state hw_log with_registry].
        rewrite pwm_init_count_app, store_attached_pins, C.
        unfold pwm_init_count. simpl. lia.
  - rewrite servo_detach_eq. cbv zeta.
    destruct (_ =? -1); [exact HL|].
    destruct (is_attached _); [|exact HL]. cbn [snd].
    apply allocation_inv_toggle; auto.
  - rewrite servo_attach_eq. cbv zeta.
    destruct (_ =? -1); [exact HL|].
    destruct (is_attached _); [exact HL|]. cbn [snd].
    apply allocation_inv_toggle; auto.
Qed.

Lemma run_allocation_inv p cs :
  forall d, allocation_inv d -> allocation_inv (snd (run p cs d)).
Proof.
  induction cs as [|c cs IH]; intros d Hd.
  - exact Hd.
  - rewrite run_cons. cbn [snd]. apply IH. apply api_allocation_inv; auto.
Qed.

Lemma allocation_inv_start : allocation_inv driver_start.
Proof.
  split; [exact registry_inv_start|]. repeat split.
Qed.

(** X19: after any sequence of calls from the start state the
    initialized entries form a prefix of the array; the pins given to
    [gpio_set_function] are, in call order, the pins of the initialized
    entries in array order; the number of [pwm_init] calls is the number of
    initialized entries, at most 8. *)
Theorem slots_fill_in_order (p : platform) (cs : list api_call) :
  (forall i j : Z,
     0 <= i <= j ->
     is_initialized (entry_at (servo_state (snd (run p cs driver_start))) j)
     = true ->
     is_initialized (entry_at (servo_state (snd (run p cs driver_start))) i)
     = true) /\
  pwm_pins (hw_log (snd (run p cs driver_start))) =
    initialized_pins (servo_state (snd (run p cs driver_start))) /\
  pwm_init_count (hw_log (snd (run p cs driver_start))) =
    length (initialized_pins (servo_state (snd (run p cs driver_start)))) /\
  (pwm_init_count (hw_log (snd (run p cs driver_start))) <= 8)%nat.
Proof.
  destruct (run_allocation_inv p cs driver_start allocation_inv_start)
    as (H & F & P & C).
  split; [|split; [|split]]; auto.
  - intros i j Hij Hj. unfold entry_at in *.
    apply (filled_prefix_closed _ F (Z.to_nat i) (Z.to_nat j)); auto. lia.
  - rewrite C, pins_length. apply (inv_capacity _ H).
Qed.

Lemma slots_fill_in_order_witness :
  is_initialized
    (entry_at
       (servo_state
          (snd (run board [Servo_init_default 7; Servo_init_default 3]
                  driver_start))) 1) = true /\
  is_initialized
    (entry_at
       (servo_state
          (snd (run board [Servo_init_default 7; Servo_init_default 3]
                  driver_start))) 0) = true.
Proof.
  assert (E : is_initialized
                (entry_at
                   (servo_state
                      (snd (run board
                              [Servo_init_default 7; Servo_init_default 3]
                              driver_start))) 1) = true)
    by (vm_compute; reflexivity).
  split; [exact E|].
  apply (proj1 (slots_fill_in_order board
                  [Servo_init_default 7; Servo_init_default 3]) 0 1);
    [lia | exact E].
Defined.

(** ** More on the PWM parameters and levels *)

Lemma ideal_divider_freq_zero sys :
  1 <= sys <= 2 ^ 32 -> ideal_divider sys 0 = Finf false.
Proof.
  intros Hs. unfold ideal_divider.
  destruct (of_Z_pos sys Hs) as [-> Hr].
  assert (E : fmul (of_Z 0) (Fnum 65536) = Fnum 0) by (vm_compute; reflexivity).
  rewrite E. unfold fdiv. change (Qzero 0) with true. cbv iota.
  assert (Hz : Qzero (rndq (inject_Z sys)) = false).
  { unfold Qzero. destruct (Qeq_bool _ 0) eqn:Q; auto.
    apply Qeq_bool_iff in Q. exfalso. lra. }
  rewrite Hz.
  assert (Hn : Qneg (rndq (inject_Z sys)) = false).
  { unfold Qneg. assert (X : (0 <= rndq (inject_Z sys))%Q) by lra.
    apply Qle_bool_iff in X. rewrite X. reflexivity. }
  rewrite Hn. reflexivity.
Qed.

(** X3: a wrap value that [calculate_pwm_params] returns lies in
    [[1, 65535]], for every clock, target frequency and platform; for the
    target frequency 0 the function fails (the ideal divider is a division
    by zero, which is not within the maximum divider). *)
Theorem calculate_pwm_params_result (p : platform) (freq_hz : Z) :
  (forall wrap clk_div_int clk_div_frac : Z,
     calculate_pwm_params p freq_hz = Some (wrap, clk_div_int, clk_div_frac) ->
     1 <= wrap <= 65535) /\
  calculate_pwm_params p 0 = None.
Proof.
  split.
  - intros w i f. apply calculate_pwm_params_wrap_range.
  - rewrite calculate_pwm_params_eq. unfold divider_parts. cbv zeta.
    pose proof (u32_range (clock_get_hz_clk_sys p)) as R.
    destruct (Z.eqb_spec (u32 (clock_get_hz_clk_sys p)) 0); [reflexivity|].
    rewrite ideal_divider_freq_zero by lia.
    reflexivity.
Qed.

Lemma calculate_pwm_params_result_witness :
  calculate_pwm_params board SERVO_PWM_FREQ_HZ = Some (65535, 39, 1) /\
  1 <= 65535 <= 65535.
Proof.
  assert (E : calculate_pwm_params board SERVO_PWM_FREQ_HZ
              = Some (65535, 39, 1)) by (vm_compute; reflexivity).
  split; [exact E|].
  exact (proj1 (calculate_pwm_params_result board SERVO_PWM_FREQ_HZ)
           65535 39 1 E).
Defined.

Lemma feq_refl x : feq x x.
Proof. destruct x; simpl; auto. reflexivity. Qed.

Lemma round32_feq q q' : (q == q')%Q -> feq (round32 q) (round32 q').
Proof.
  intros E. unfold round32. cbv zeta.
  pose proof (rndq_proper _ _ E) as Er.
  assert (Ea : Qle_bool (pow2 emax) (Qabs (rndq q))
               = Qle_bool (pow2 emax) (Qabs (rndq q'))).
  { rewrite (Qabs_wd _ _ Er). reflexivity. }
  assert (En : Qneg (rndq q) = Qneg (rndq q')).
  { unfold Qneg. rewrite Er. reflexivity. }
  rewrite Ea, En. clear Ea En.
  destruct (Qle_bool (pow2 emax) (Qabs (rndq q'))); unfold feq;
    [reflexivity | exact Er].
Qed.

Lemma Qzero_comp q q' : (q == q')%Q -> Qzero q = Qzero q'.
Proof. intros E. unfold Qzero. rewrite E. reflexivity. Qed.

Lemma Qneg_comp q q' : (q == q')%Q -> Qneg q = Qneg q'.
Proof. intros E. unfold Qneg. rewrite E. reflexivity. Qed.

Lemma fdiv_feq x x' y : feq x x' -> feq (fdiv x y) (fdiv x' y).
Proof.
  destruct x as [a|s|], x' as [a'|s'|]; simpl; try tauto.
  - intros E. destruct y as [b|t|]; simpl; auto; try reflexivity.
    rewrite (Qzero_comp _ _ E), (Qneg_comp _ _ E).
    destruct (Qzero b); [destruct (Qzero a'); simpl; auto|].
    apply round32_feq. rewrite E. reflexivity.
  - intros ->. apply feq_refl.
Qed.

Lemma fmul_feq x x' y : feq x x' -> feq (fmul x y) (fmul x' y).
Proof.
  destruct x as [a|s|], x' as [a'|s'|]; simpl; try tauto.
  - intros E. destruct y as [b|t|]; simpl; auto.
    + apply round32_feq. rewrite E. reflexivity.
    + rewrite (Qzero_comp _ _ E), (Qneg_comp _ _ E).
      destruct (Qzero a'); simpl; auto.
  - intros ->. apply feq_refl.
Qed.

Lemma float_to_u16_feq p x x' :
  feq x x' -> float_to_u16 p x = float_to_u16 p x'.
Proof.
  destruct x as [a|s|], x' as [a'|s'|]; simpl; try tauto.
  - intros E. rewrite (Qtrunc_proper _ _ E). reflexivity.
  - intros ->. reflexivity.
Qed.

Lemma angle_fraction_ends :
  fdiv (of_Z 0) (Fnum 180) = Fnum 0 /\
  exists one : Q, fdiv (of_Z 180) (Fnum 180) = Fnum one /\ (one == 1)%Q.
Proof.
  split; [vm_compute; reflexivity|].
  eexists. split; [vm_compute; reflexivity | reflexivity].
Qed.

(** The pulse width computed for the two ends of the range is exact. *)
Lemma pulse_us_endpoints min_us max_us :
  is_u16 min_us -> is_u16 max_us ->
  feq (fadd (of_Z min_us)
         (fmul (fdiv (of_Z 0) (Fnum 180)) (of_Z (max_us - min_us))))
      (of_Z min_us) /\
  feq (fadd (of_Z min_us)
         (fmul (fdiv (of_Z 180) (Fnum 180)) (of_Z (max_us - min_us))))
      (of_Z max_us).
Proof.
  unfold is_u16. intros Hmin Hmax.
  destruct (of_Z_exact min_us ltac:(lia)) as [-> Em].
  destruct (of_Z_exact max_us ltac:(lia)) as [-> EM].
  destruct (of_Z_exact (max_us - min_us) ltac:(lia)) as [-> Ed].
  set (rm := rndq (inject_Z min_us)) in *.
  set (rM := rndq (inject_Z max_us)) in *.
  set (rd := rndq (inject_Z (max_us - min_us))) in *.
  destruct angle_fraction_ends as (F0 & one & F1 & E1). rewrite F0, F1.
  split.
  - unfold fmul.
    assert (Z0 : (0 * rd == inject_Z 0 * pow2 0)%Q) by ring.
    destruct (round32_exact _ 0 0 Z0 ltac:(lia) ltac:(unfold emin; lia))
      as [-> Ez].
    unfold fadd.
    assert (Zs : (rm + rndq (0 * rd) == inject_Z min_us * pow2 0)%Q).
    { rewrite Ez, Em. change (pow2 0) with 1%Q. ring. }
    destruct (round32_exact _ min_us 0 Zs ltac:(lia) ltac:(unfold emin; lia))
      as [-> Es].
    simpl. rewrite Es, Zs, Em. change (pow2 0) with 1%Q. ring.
  - unfold fmul.
    assert (Z0 : (one * rd == inject_Z (max_us - min_us) * pow2 0)%Q).
    { rewrite E1, Ed. change (pow2 0) with 1%Q. ring. }
    destruct (round32_exact _ (max_us - min_us) 0 Z0 ltac:(lia)
                ltac:(unfold emin; lia)) as [-> Ez].
    unfold fadd.
    assert (Zs : (rm + rndq (one * rd) == inject_Z max_us * pow2 0)%Q).
    { rewrite Ez, Z0, Em. change (pow2 0) with 1%Q.
      unfold Z.sub. rewrite inject_Z_plus, inject_Z_opp. ring. }
    destruct (round32_exact _ max_us 0 Zs ltac:(lia) ltac:(unfold emin; lia))
      as [-> Es].
    simpl. rewrite Es, Zs, EM. change (pow2 0) with 1%Q. ring.
Qed.

(** X5: for an initialized entry with 16-bit pulse bounds the level of
    angle 0 is the level of a pulse of exactly [min_pulse_us], and the
    level of every angle of 180 or more is the level of a pulse of exactly
    [max_pulse_us]: the interpolation adds no rounding error at the two
    ends of the range. *)
Theorem angle_to_level_endpoints (p : platform) (servo : servo_info_t) :
  is_initialized servo = true ->
  is_u16 (min_pulse_us servo) -> is_u16 (max_pulse_us servo) ->
  angle_to_level p 0 (Some servo) =
    Z.min (float_to_u16 p (pulse_level (min_pulse_us servo) (wrap_val servo)))
          (wrap_val servo) /\
  forall angle : Z,
    180 <= angle ->
    angle_to_level p angle (Some servo) =
    Z.min (float_to_u16 p (pulse_level (max_pulse_us servo) (wrap_val servo)))
          (wrap_val servo).
Proof.
  intros Hi Hmin Hmax.
  destruct (pulse_us_endpoints _ _ Hmin Hmax) as [E0 E180].
  split.
  - rewrite angle_to_level_eq by auto. change (Z.min 0 180) with 0.
    f_equal. apply float_to_u16_feq. unfold level_float, pulse_level.
    apply fmul_feq, fdiv_feq. exact E0.
  - intros angle Ha. rewrite angle_to_level_eq by auto.
    replace (Z.min angle 180) with 180 by lia.
    f_equal. apply float_to_u16_feq. unfold level_float, pulse_level.
    apply fmul_feq, fdiv_feq. exact E180.
Qed.

Lemma angle_to_level_endpoints_witness :
  angle_to_level board 0 (Some (calibrated 1000 2000 65535)) =
    Z.min (float_to_u16 board (pulse_level 1000 65535)) 65535 /\
  angle_to_level board 255 (Some (calibrated 1000 2000 65535)) =
    Z.min (float_to_u16 board (pulse_level 2000 65535)) 65535.
Proof.
  destruct (angle_to_level_endpoints board (calibrated 1000 2000 65535)
              eq_refl) as [E0 E180].
  - unfold is_u16. simpl. lia.
  - unfold is_u16. simpl. lia.
  - split; [exact E0 | apply E180; lia].
Defined.

Lemma servo_freq_constants :
  (exists c : Q,
     fmul (of_Z SERVO_PWM_FREQ_HZ) (Fnum 65536) = Fnum c /\ (c == 3276800)%Q) /\
  (exists r : Q, of_Z SERVO_PWM_FREQ_HZ = Fnum r /\ (r == 50)%Q).
Proof.
  split; eexists; (split; [vm_compute; reflexivity | reflexivity]).
Qed.

Lemma Qzero_false q : (0 < q)%Q -> Qzero q = false.
Proof.
  intros H. unfold Qzero. destruct (Qeq_bool q 0) eqn:E; auto.
  apply Qeq_bool_iff in E. exfalso. lra.
Qed.

Lemma inject_Z_pos n : 0 < n -> (0 < inject_Z n)%Q.
Proof. intros H. change 0%Q with (inject_Z 0). rewrite <- Zlt_Qlt. exact H. Qed.

(** On the clocks that are [n / 16] times 50 * 65536 Hz the ideal divider
    is on the hardware grid. *)
Lemma grid_clock_divider n :
  16 <= n <= 4095 ->
  exists rs v : Q,
    of_Z (204800 * n) = Fnum rs /\ (rs == inject_Z (204800 * n))%Q /\
    raise_to_one (ideal_divider (204800 * n) SERVO_PWM_FREQ_HZ) = Fnum v /\
    (v == inject_Z n * pow2 (-4))%Q /\
    fgtb (Fnum v) MAX_DIVIDER = false.
Proof.
  intros Hn. pose proof (inject_Z_pos n ltac:(lia)) as Pn.
  assert (Es : (inject_Z (204800 * n) == inject_Z (25 * n) * pow2 13)%Q).
  { rewrite !inject_Z_mult. change (pow2 13) with (inject_Z 8192).
    change (inject_Z 204800) with (inject_Z 25 * inject_Z 8192)%Q. ring. }
  destruct (round32_exact _ (25 * n) 13 Es ltac:(lia) ltac:(unfold emin; lia))
    as [Er Ers].
  exists (rndq (inject_Z (204800 * n))).
  unfold ideal_divider. unfold of_Z at 1 2. rewrite Er.
  destruct servo_freq_constants as ((c & -> & Ec) & _).
  set (rs := rndq (inject_Z (204800 * n))) in *.
  unfold fdiv. rewrite (Qzero_false c) by (rewrite Ec; reflexivity).
  assert (Ev : (rs / c == inject_Z n * pow2 (-4))%Q).
  { rewrite Ers, Ec, inject_Z_mult. change (pow2 (-4)) with (1 # 16)%Q.
    change (inject_Z 204800) with 204800%Q. field. }
  destruct (round32_exact _ n (-4) Ev ltac:(lia) ltac:(unfold emin; lia))
    as [-> Erv].
  exists (rndq (rs / c)).
  assert (Hv : (rndq (rs / c) == inject_Z n * pow2 (-4))%Q)
    by (rewrite Erv; exact Ev).
  assert (B : (1 <= rndq (rs / c))%Q /\ (rndq (rs / c) <= 4095 # 16)%Q).
  { rewrite Hv. change (pow2 (-4)) with (1 # 16)%Q.
    assert (X : (inject_Z 16 <= inject_Z n)%Q /\ (inject_Z n <= inject_Z 4095)%Q)
      by (rewrite <- !Zle_Qle; lia).
    change (inject_Z 16) with 16%Q in X. change (inject_Z 4095) with 4095%Q in X.
    destruct X. split; lra. }
  destruct B as [B1 B2].
  split; [reflexivity|]. split; [exact Ers|].
  split.
  - unfold raise_to_one, fltb.
    apply Qle_bool_iff in B1. rewrite B1. reflexivity.
  - split; [exact Hv|].
    destruct MAX_DIVIDER_value as (m & -> & Hm).
    unfold fgtb, fltb. rewrite <- Hm in B2.
    apply Qle_bool_iff in B2. rewrite B2. reflexivity.
Qed.

(** X4: on a system clock of [204800 * n] Hz with [16 <= n <= 4095],
    that is [n / 16] times 50 * 65536 Hz, [calculate_pwm_params] for the
    servo frequency succeeds on every platform with the divider [n / 16]
    exactly (integer part [n / 16], sixteenths [n mod 16]) and the wrap
    value 65535: every intermediate value is exact in single precision and
    no conversion is out of range. *)
Theorem calculate_pwm_params_exact (p : platform) (n : Z) :
  16 <= n <= 4095 ->
  u32 (clock_get_hz_clk_sys p) = 204800 * n ->
  calculate_pwm_params p SERVO_PWM_FREQ_HZ = Some (65535, n / 16, n mod 16).
Proof.
  intros Hn Hclk. pose proof (inject_Z_pos n ltac:(lia)) as Pn.
  destruct (grid_clock_divider n Hn) as (rs & v & Eof & Ers & Ed & Ev & Eg).
  assert (P4 : pow2 (-4) == 1 # 16) by reflexivity.
  assert (L1 : (1 <= v)%Q /\ (v <= 4095 # 16)%Q).
  { rewrite Ev, P4.
    assert (X : (inject_Z 16 <= inject_Z n)%Q /\ (inject_Z n <= inject_Z 4095)%Q)
      by (rewrite <- !Zle_Qle; lia).
    change (inject_Z 16) with 16%Q in X. change (inject_Z 4095) with 4095%Q in X.
    destruct X. split; lra. }
  destruct L1 as [L1 U1].
  assert (Hk : (v == inject_Z (n * 2 ^ 19) * pow2 (-23))%Q).
  { rewrite Ev, inject_Z_mult. rewrite <- Qmult_assoc.
    assert (X : (inject_Z (2 ^ 19) * pow2 (-23) == pow2 (-4))%Q) by reflexivity.
    rewrite X. reflexivity. }
  destruct (divider_parts_bounds p v (n * 2 ^ 19) L1 U1 Hk)
    as (Ei & Bi & Ef & Bf).
  cbv zeta in Ef, Bf.
  assert (Ei' : float_to_u16 p (Fnum v) = n / 16).
  { rewrite Ei. assert (X : (v == n # 16)%Q).
    { rewrite Ev, P4. unfold Qeq. simpl. lia. }
    rewrite (Qfloor_comp _ _ X). reflexivity. }
  assert (Ef' : float_to_u16 p
                  (fmul (fsub (Fnum v) (of_Z (float_to_u16 p (Fnum v))))
                     (Fnum 16)) = n mod 16).
  { rewrite Ef, Ei'.
    assert (X : ((v - inject_Z (n / 16)) * 16 == inject_Z (n mod 16))%Q).
    { rewrite Ev, P4. rewrite (Z.mod_eq n 16) by lia.
      unfold Z.sub. rewrite inject_Z_plus, inject_Z_opp, inject_Z_mult.
      change (inject_Z 16) with 16%Q. field. }
    rewrite (Qfloor_comp _ _ X). apply Qfloor_Z. }
  rewrite calculate_pwm_params_eq. unfold divider_parts. cbv zeta.
  rewrite Hclk.
  destruct (Z.eqb_spec (204800 * n) 0) as [C|_]; [lia|].
  unfold SERVO_PWM_FREQ_HZ in *. rewrite Ed, Eg, Ef', Ei'.
  (* the wrap value *)
  assert (Bm : 0 <= n mod 16 < 16) by (apply Z.mod_pos_bound; lia).
  assert (Bd : 1 <= n / 16 <= 255).
  { split; [apply Z.div_le_lower_bound; lia|].
    assert (n / 16 < 256) by (apply Z.div_lt_upper_bound; lia). lia. }
  destruct (effective_divider_exact (n / 16) (n mod 16) Bd ltac:(lia))
    as (e & Ee & Eev).
  assert (Een : (e == inject_Z n * pow2 (-4))%Q).
  { rewrite Eev, P4. rewrite (Z.div_mod n 16) at 3 by lia.
    rewrite inject_Z_plus, inject_Z_mult. change (inject_Z 16) with 16%Q.
    field. }
  unfold wrap_float. rewrite Ee, Eof.
  destruct servo_freq_constants as (_ & r50 & E50 & Er50).
  unfold SERVO_PWM_FREQ_HZ in E50. rewrite E50.
  unfold fmul.
  assert (Em : (e * r50 == inject_Z (25 * n) * pow2 (-3))%Q).
  { rewrite Een, Er50, P4, inject_Z_mult. change (pow2 (-3)) with (1 # 8)%Q.
    change (inject_Z 25) with 25%Q. field. }
  destruct (round32_exact _ (25 * n) (-3) Em ltac:(lia)
              ltac:(unfold emin; lia)) as [-> Erm].
  set (m := rndq (e * r50)) in *.
  assert (Pm : (0 < m)%Q).
  { rewrite Erm, Em, inject_Z_mult. change (pow2 (-3)) with (1 # 8)%Q.
    change (inject_Z 25) with 25%Q. lra. }
  unfold fdiv. rewrite (Qzero_false m Pm).
  assert (Et : (rs / m == inject_Z 1 * pow2 16)%Q).
  { rewrite Ers, Erm, Em, !inject_Z_mult.
    change (pow2 (-3)) with (1 # 8)%Q. change (pow2 16) with 65536%Q.
    change (inject_Z 204800) with 204800%Q. change (inject_Z 25) with 25%Q.
    change (inject_Z 1) with 1%Q. field. lra. }
  destruct (round32_exact _ 1 16 Et ltac:(lia) ltac:(unfold emin; lia))
    as [-> Ert].
  set (t := rndq (rs / m)) in *.
  unfold fsub, fopp, fadd.
  assert (Ew : (t + Qopp 1 == inject_Z 65535 * pow2 0)%Q).
  { rewrite Ert, Et. reflexivity. }
  destruct (round32_exact _ 65535 0 Ew ltac:(lia) ltac:(unfold emin; lia))
    as [-> Erw].
  set (w := rndq (t + Qopp 1)) in *.
  assert (W : (w == 65535)%Q) by (rewrite Erw, Ew; reflexivity).
  destruct (float_to_u16_in_range p w ltac:(rewrite W; discriminate)
              ltac:(rewrite W; reflexivity)) as [-> _].
  rewrite (Qfloor_comp _ _ W). reflexivity.
Qed.

Lemma calculate_pwm_params_exact_witness :
  calculate_pwm_params board SERVO_PWM_FREQ_HZ = Some (65535, 39, 1).
Proof.
  apply (calculate_pwm_params_exact board 625); [lia | reflexivity].
Defined.

(** ** Examples and further properties *)

Lemma find_servo_index_lookup_witness :
  registry_inv detached_2 /\
  gpio_num (entry_at (servo_state detached_2)
              (fst (find_servo_index 2 detached_2))) = 2.
Proof.
  split; [exact detached_2_inv|].
  apply (find_servo_index_lookup 2 detached_2 detached_2_inv).
  vm_compute. discriminate.
Defined.

Lemma find_free_index_lowest_witness :
  registry_inv detached_2 /\
  is_initialized (entry_at (servo_state detached_2)
                    (fst (find_free_index detached_2))) = false.
Proof.
  split; [exact detached_2_inv|].
  apply (find_free_index_lowest detached_2 detached_2_inv).
  vm_compute. discriminate.
Defined.

Lemma pair_23_inv : registry_inv pair_23.
Proof. apply run_inv. exact registry_inv_start. Qed.

Lemma pair_23_entries :
  entry_of pair_23 2 (entry_2 true) /\ entry_of pair_23 3 entry_3.
Proof. vm_compute. auto 10. Qed.

Lemma detach_silences_sibling_witness :
  entry_of (snd (servo_set board 3 90 (snd (servo_detach 2 pair_23)))) 3
    entry_3 /\
  hw_log (snd (servo_set board 3 90 (snd (servo_detach 2 pair_23)))) =
  hw_log pair_23 ++
  [Call_pwm_set_enabled 1 false; Call_pwm_set_gpio_level 3 4915].
Proof.
  destruct (detach_silences_sibling board 2 3 90 pair_23 (entry_2 true) entry_3
              pair_23_inv (proj1 pair_23_entries) (proj2 pair_23_entries)
              ltac:(lia) eq_refl eq_refl eq_refl) as (_ & _ & E & L).
  split; [exact E | exact L].
Defined.

Lemma steady_calls_typed :
  Forall (fun x => api_call_typed (snd x)) steady_calls.
Proof. repeat constructor; unfold is_u16; simpl; lia. Qed.

Lemma steady_calls_clocks :
  forall hz, In hz (init_clocks steady_calls) -> hz = 128000000.
Proof. intros hz [E|[E|[]]]; symmetry; exact E. Qed.

Lemma entries_well_formed_witness :
  Forall (fun x => api_call_typed (snd x)) steady_calls /\
  entry_ok board (fun hz => In hz (init_clocks steady_calls)) entry_3 /\
  wrap_val (entry_2 true) = wrap_val entry_3.
Proof.
  destruct (entries_well_formed board steady_calls steady_calls_typed)
    as (Hok & Hsame).
  split; [exact steady_calls_typed|]. split.
  - apply Hok; [vm_compute; auto | reflexivity].
  - apply (Hsame 128000000 steady_calls_clocks (entry_2 true) entry_3).
    + vm_compute. auto.
    + vm_compute. auto.
    + reflexivity.
    + reflexivity.
Defined.

Lemma hardware_calls_in_range_witness :
  Forall (fun x => api_call_typed (snd x)) steady_calls /\
  Forall (hw_call_ok board (fun hz => In hz (init_clocks steady_calls)))
    (hw_log (snd (run_clocked board steady_calls driver_start))) /\
  0 <= 4915 <= 65535.
Proof.
  destruct (hardware_calls_in_range board steady_calls steady_calls_typed)
    as (Hok & Hsame).
  split; [exact steady_calls_typed|]. split; [exact Hok|].
  apply (Hsame 128000000 steady_calls_clocks 1 65535 39 1 true 2 4915).
  - vm_compute. auto 10.
  - vm_compute. auto 10.
Defined.

(** X6: for an initialized entry with
    [0 < min_pulse_us < max_pulse_us < 20000] (the period of 50 Hz in
    microseconds) and a 16-bit wrap value, [angle_to_level] is monotone in
    the angle, returns the same level on every platform (no conversion is
    out of range) and a level in [[0, wrap_val]]. *)
Theorem angle_to_level_monotone (p p' : platform) (servo : servo_info_t)
    (a1 a2 : Z) :
  is_initialized servo = true ->
  0 < min_pulse_us servo < max_pulse_us servo ->
  max_pulse_us servo < 20000 ->
  0 <= wrap_val servo <= 65535 ->
  0 <= a1 <= a2 ->
  angle_to_level p a1 (Some servo) <= angle_to_level p a2 (Some servo) /\
  angle_to_level p' a1 (Some servo) = angle_to_level p a1 (Some servo) /\
  0 <= angle_to_level p a1 (Some servo) <= wrap_val servo.
Proof.
  intros Hi Hmin Hmax Hwrap Ha.
  destruct (level_float_mono servo (Z.min a1 180) (Z.min a2 180)
              Hmin ltac:(lia) Hwrap ltac:(lia) ltac:(lia))
    as (q1 & q2 & E1 & E2 & L0 & L1 & Hb).
  specialize (Hb Hmax).
  split; [|split].
  - apply angle_to_level_monotone_in_range; auto; try lia.
    intros q Eq. rewrite E2 in Eq. injection Eq as <-. exact Hb.
  - rewrite !angle_to_level_eq by auto. rewrite E1.
    destruct (float_to_u16_in_range p q1 ltac:(lra) ltac:(lra)) as [-> _].
    destruct (float_to_u16_in_range p' q1 ltac:(lra) ltac:(lra)) as [-> _].
    reflexivity.
  - rewrite angle_to_level_eq by auto.
    pose proof (float_to_u16_range p (level_float (Z.min a1 180) servo)).
    lia.
Qed.

Lemma angle_to_level_monotone_witness :
  angle_to_level board 45 (Some (calibrated 1000 2000 65535)) <=
  angle_to_level board 90 (Some (calibrated 1000 2000 65535)).
Proof.
  apply (angle_to_level_monotone board board (calibrated 1000 2000 65535)
           45 90); simpl; (reflexivity || lia).
Defined.

Lemma servo_init_success_params p gpio min_us max_us d :
  fst (servo_init p gpio min_us max_us d) = true ->
  exists wrap clk_div_int clk_div_frac : Z,
    calculate_pwm_params p SERVO_PWM_FREQ_HZ
    = Some (wrap, clk_div_int, clk_div_frac).
Proof.
  destruct (calculate_pwm_params p SERVO_PWM_FREQ_HZ) as [[[w i] f]|] eqn:C.
  - intros _. exists w, i, f. reflexivity.
  - rewrite servo_init_eq. cbv zeta.
    destruct (_ =? -1); [simpl; discriminate|].
    destruct (negb _); [simpl; discriminate|].
    destruct (_ || _); [simpl; discriminate|].
    rewrite C. simpl. discriminate.
Qed.

(** X15: a successful [servo_init] of a pin on the slice of a detached
    servo starts that slice again ([pwm_init] with [start = true]), while
    the entry of the detached servo still says detached. *)
Theorem init_restarts_detached_slice (p : platform) (g1 g2 min_us max_us : Z)
    (d : driver) (e1 : servo_info_t) :
  registry_inv d ->
  entry_of d g1 e1 -> is_attached e1 = false ->
  u16 (pwm_gpio_to_slice_num p g2) = slice_num e1 ->
  fst (servo_init p g2 min_us max_us d) = true ->
  let d' := snd (servo_init p g2 min_us max_us d) in
  entry_of d' g1 e1 /\
  exists wrap clk_div_int clk_div_frac level : Z,
    hw_log d' =
    hw_log d ++
    [Call_gpio_set_function_pwm g2;
     Call_pwm_init (slice_num e1) wrap clk_div_int clk_div_frac true;
     Call_pwm_set_gpio_level g2 level].
Proof.
  intros H He1 A1 Hs Hok. cbv zeta.
  destruct (servo_init_success_params p g2 min_us max_us d Hok)
    as (w & i & f & C).
  destruct (servo_init_success_eq p g2 min_us max_us d w i f H Hok C)
    as (R & I & NR & _ & _ & E).
  cbv zeta in E. rewrite E. cbn [snd].
  destruct (entry_of_scan d g1 e1 H He1) as (EL & _ & Hj & Hatj).
  set (j := scan_servo_index (servo_state (live d)) 0 g1) in *.
  set (index := scan_free_index (servo_state d) 0) in *.
  pose proof He1 as (_ & I1 & G1).
  assert (Hij : j <> index).
  { intros X. rewrite X in Hatj. rewrite Hatj in I. congruence. }
  split.
  - unfold entry_of. cbn [servo_state with_registry].
    split; [|split; auto].
    rewrite <- Hatj.
    replace (entry_at (servo_state d) j)
      with (entry_at (store_at (servo_state d) index
              {| gpio_num := g2;
                 slice_num := u16 (pwm_gpio_to_slice_num p g2);
                 chan_num := u16 (pwm_gpio_to_channel p g2);
                 wrap_val := w; min_pulse_us := min_us;
                 max_pulse_us := max_us;
                 is_initialized := true; is_attached := true |}) j).
    + apply entry_at_In. rewrite store_at_length, (inv_length d H).
      unfold MAX_SERVOS in *. lia.
    + apply store_at_same_elsewhere; lia.
  - exists w, i, f. eexists.
    cbn [hw_log with_registry]. rewrite live_hw_log, Hs. reflexivity.
Qed.

Lemma init_restarts_detached_slice_witness :
  entry_of (snd (servo_init board 3 1000 2000 detached_2)) 2 (entry_2 false) /\
  exists wrap clk_div_int clk_div_frac level : Z,
    hw_log (snd (servo_init board 3 1000 2000 detached_2)) =
    hw_log detached_2 ++
    [Call_gpio_set_function_pwm 3;
     Call_pwm_init 1 wrap clk_div_int clk_div_frac true;
     Call_pwm_set_gpio_level 3 level].
Proof.
  apply (init_restarts_detached_slice board 2 3 1000 2000 detached_2
           (entry_2 false) detached_2_inv detached_2_entry eq_refl eq_refl).
  vm_compute. reflexivity.
Defined.
